(** * ATOM calibration: the interactive data labeler and the configuration
      of a calibration package

    Shallow embeddings of two programs of the repository,
    atom_calibration/collect/interactive_data_labeler.py and
    interactive_calibration/scripts/configure_calibration_pkg.py.

    Numbers.  Python's [float] is IEEE 754 binary64, which is Rocq's
    primitive [float]; every comparison and arithmetic operation of the
    source on ranges, coordinates and distances is the primitive one, so
    NaN and the infinities behave as they do in the interpreter.  Python
    integers are [Z].

    Exceptions.  A computation that may raise returns a [result]; a method
    that mutates the labeler is a function from the labeler to a [result]
    and the labeler as it stands when the method returns or raises. *)

From Stdlib Require Import ZArith List Bool Lia String.
From Stdlib Require Import Floats.
From Stdlib Require DecimalString.
Import ListNotations.

(* Decimal literals such as 0.2 denote, as in Python, the nearest binary64. *)
#[local] Set Warnings "-inexact-float".

Local Open Scope Z_scope.

(** ** Python exceptions and fallible computations *)

Inductive exn : Type :=
| IndexError
| ValueError (what : string)
| OverflowError
| AttributeError
| KeyError (key : string)
| SystemExit (code : Z)
| LibraryError (library : string).

Inductive result (A : Type) : Type :=
| Ok (a : A)
| Raise (e : exn).

Arguments Ok {A} a.
Arguments Raise {A} e.

Definition bind {A B : Type} (c : result A) (k : A -> result B) : result B :=
  match c with
  | Ok a => k a
  | Raise e => Raise e
  end.

Notation "x <- c ;; k" := (bind c (fun x => k))
  (at level 61, c at next level, right associativity).

(** A computation returns. *)
Definition returns {A : Type} (r : result A) : bool :=
  match r with
  | Ok _ => true
  | Raise _ => false
  end.

(** [for x in l: st = body(st, x)], stopping at the first exception. *)
Fixpoint for_each {S A : Type} (body : S -> A -> result S) (l : list A) (st : S)
  : result S :=
  match l with
  | [] => Ok st
  | a :: l' => st' <- body st a ;; for_each body l' st'
  end.

(** [enumerate(l)], counting from [i]. *)
Fixpoint enumerate_from {A : Type} (i : Z) (l : list A) : list (Z * A) :=
  match l with
  | [] => []
  | a :: l' => (i, a) :: enumerate_from (i + 1) l'
  end.

Definition enumerate {A : Type} (l : list A) : list (Z * A) := enumerate_from 0 l.

Definition len {A : Type} (l : list A) : Z := Z.of_nat (List.length l).

(** [l[i]] on a Python list: a negative index counts from the end, an index
    outside [-len(l) .. len(l)-1] raises IndexError. *)
Definition getitem {A : Type} (l : list A) (i : Z) : result A :=
  let j := if i <? 0 then len l + i else i in
  if j <? 0 then Raise IndexError
  else match nth_error l (Z.to_nat j) with
       | Some a => Ok a
       | None => Raise IndexError
       end.

(** [d[k]] on a dict whose key [k] may be missing. *)
Definition key {A : Type} (k : string) (o : option A) : result A :=
  match o with
  | Some a => Ok a
  | None => Raise (KeyError k)
  end.

(** ** Python float operations *)

(** The integer value of a finite float's magnitude, truncated. *)
Definition trunc_mag (m : positive) (e : Z) : Z :=
  match e with
  | Z0 => Zpos m
  | Zpos p => Zpos m * 2 ^ Zpos p
  | Zneg p => Zpos m / 2 ^ Zpos p
  end.

(** [int(x)] on a float: truncation toward zero. *)
Definition int_of_float (x : float) : result Z :=
  match Prim2SF x with
  | S754_zero _ => Ok 0
  | S754_finite s m e => Ok (if s then - trunc_mag m e else trunc_mag m e)
  | S754_infinity _ => Raise OverflowError
  | S754_nan => Raise (ValueError "cannot convert float NaN to integer")
  end.

(** [round(x)] on a float (Python 3): nearest integer, ties to even. *)
Definition round_half_even (x : float) : result Z :=
  match Prim2SF x with
  | S754_zero _ => Ok 0
  | S754_finite s m e =>
      let mag :=
        match e with
        | Zneg p =>
            let q := Zpos m / 2 ^ Zpos p in
            let r := Zpos m mod 2 ^ Zpos p in
            match 2 * r ?= 2 ^ Zpos p with
            | Lt => q
            | Gt => q + 1
            | Eq => if Z.even q then q else q + 1
            end
        | _ => trunc_mag m e
        end in
      Ok (if s then - mag else mag)
  | S754_infinity _ => Raise OverflowError
  | S754_nan => Raise (ValueError "cannot convert float NaN to integer")
  end.

(** [float(z)], also the conversion of an int operand of a float operation:
    the nearest binary64, ties to even; OverflowError when that is not
    finite. *)
Definition float_of_int (z : Z) : result float :=
  let f := SF2Prim (binary_normalize prec emax z 0 false) in
  if is_infinity f then Raise OverflowError else Ok f.


(** * Configuration of a calibration package
    (interactive_calibration/scripts/configure_calibration_pkg.py)

    The script reads the configuration of the package and the topics of its
    bag file, checks the sensor topics against the bag, and writes launch
    files and two RViz configurations.  What follows embeds
    [create_display], the check of the topics and the construction of the
    display lists; reading and writing files and rendering templates are
    not part of it. *)

(** ** Python dicts with string keys *)

(** The items of a dict in insertion order; a key is looked up from the
    front. *)
Definition dict (V : Type) : Type := list (string * V).

Fixpoint dict_get {V : Type} (d : dict V) (k : string) : option V :=
  match d with
  | [] => None
  | (k', v) :: d' => if String.eqb k k' then Some v else dict_get d' k
  end.

(** [k in d]. *)
Definition dict_contains {V : Type} (d : dict V) (k : string) : bool :=
  match dict_get d k with
  | Some _ => true
  | None => false
  end.

(** [d[k]]: a missing key raises KeyError. *)
Definition dict_getitem {V : Type} (d : dict V) (k : string) : result V :=
  key k (dict_get d k).

(** [d[k] = v]: the value of a key of the dict is replaced where the key
    stands, a new key goes to the end. *)
Fixpoint dict_setitem {V : Type} (d : dict V) (k : string) (v : V) : dict V :=
  match d with
  | [] => [(k, v)]
  | (k', v') :: d' =>
      if String.eqb k k' then (k', v) :: d' else (k', v') :: dict_setitem d' k v
  end.

(** The keys of a dict, as [for k in d] goes through them. *)
Definition dict_keys {V : Type} (d : dict V) : list string := map fst d.

(** ** Displays *)

(* A dict value nests [value] in the list of its items. *)
#[local] Set Warnings "-register-all".

(** The values of the options of a display. *)
Inductive value : Type :=
| VStr (s : string)
| VInt (z : Z)
| VFloat (f : float)
| VBool (b : bool)
| VDict (items : list (string * value)).

(* String literals are the keys of the dicts below. *)
Local Open Scope string_scope.

(** [display_dicts], lines 28-86: the options of each type of display with
    their default values. *)
Definition display_dicts : dict (dict value) :=
  [("rviz/Image",
    [("Name", VStr "TopCRGBDCamera-Image");
     ("Min Value", VInt 0);
     ("Enabled", VBool false);
     ("Value", VBool false);
     ("Transport Hint", VStr "raw");
     ("Image Topic", VStr "/top_center_rgbd_camera/rgb/image_raw");
     ("Queue Size", VInt 2);
     ("Max Value", VInt 1);
     ("Unreliable", VBool false);
     ("Median window", VInt 5);
     ("Class", VStr "rviz/Image");
     ("Normalize Range", VBool true)]);
   ("rviz/LaserScan",
    [("Min Color", VStr "0; 0; 0");
     ("Style", VStr "Points");
     ("Use rainbow", VBool true);
     ("Name", VStr "Left-LaserScan");
     ("Autocompute Intensity Bounds", VBool true);
     ("Enabled", VBool true);
     ("Value", VBool true);
     ("Autocompute Value Bounds", VDict [("Max Value", VFloat 0.5);
        ("Min Value", VFloat 0.5);
        ("Value", VBool true)]);
     ("Size (m)", VFloat 0.10000000149011612);
     ("Unreliable", VBool false);
     ("Color Transformer", VStr "FlatColor");
     ("Decay Time", VInt 0);
     ("Size (Pixels)", VInt 5);
     ("Min Intensity", VInt 215);
     ("Use Fixed Frame", VBool true);
     ("Max Intensity", VInt 695);
     ("Color", VStr "239; 41; 41");
     ("Invert Rainbow", VBool false);
     ("Topic", VStr "/left_laser/laserscan");
     ("Max Color", VStr "255; 255; 255");
     ("Channel Name", VStr "intensity");
     ("Queue Size", VInt 10);
     ("Position Transformer", VStr "XYZ");
     ("Alpha", VInt 1);
     ("Selectable", VBool true);
     ("Class", VStr "rviz/LaserScan");
     ("Axis", VStr "Z")]);
   ("rviz/PointCloud2",
    [("Min Color", VStr "0; 0; 0");
     ("Style", VStr "Points");
     ("Use rainbow", VBool true);
     ("Name", VStr "TopCRGBD-PointCloud2");
     ("Autocompute Intensity Bounds", VBool true);
     ("Enabled", VBool false);
     ("Value", VBool false);
     ("Autocompute Value Bounds", VDict [("Max Value", VFloat 9.872922897338867);
        ("Min Value", VFloat 0.9480007290840149);
        ("Value", VBool true)]);
     ("Size (m)", VFloat 0.009999999776482582);
     ("Unreliable", VBool false);
     ("Color Transformer", VStr "AxisColor");
     ("Decay Time", VInt 0);
     ("Size (Pixels)", VInt 3);
     ("Min Intensity", VInt 0);
     ("Use Fixed Frame", VBool false);
     ("Max Intensity", VInt 4096);
     ("Color", VStr "241; 225; 37");
     ("Invert Rainbow", VBool false);
     ("Topic", VStr "/top_center_rgbd_camera/depth/points");
     ("Max Color", VStr "255; 255; 255");
     ("Channel Name", VStr "intensity");
     ("Queue Size", VInt 10);
     ("Position Transformer", VStr "XYZ");
     ("Alpha", VInt 1);
     ("Selectable", VBool true);
     ("Class", VStr "rviz/PointCloud2");
     ("Axis", VStr "Z")]);
   ("rviz/Camera",
    [("Image Rendering", VStr "background and overlay");
     ("Name", VStr "TopRight-Camera");
     ("Enabled", VBool false);
     ("Value", VBool false);
     ("Overlay Alpha", VFloat 0.5);
     ("Transport Hint", VStr "raw");
     ("Zoom Factor", VInt 1);
     ("Queue Size", VInt 2);
     ("Visibility", VDict [("TopCRGBDCamera-Image", VBool true);
        ("TopRight-Image", VBool true);
        ("TopLeft-Camera", VBool true);
        ("Left-LaserScan", VBool true);
        ("FrontalLaser-PointCloud2", VBool true);
        ("Value", VBool true);
        ("DataLabeler-InteractiveMarkers", VBool false);
        ("RightLaser-Labels", VBool false);
        ("Right-LaserScan", VBool true);
        ("Camera", VBool true);
        ("RightLaser-Clusters", VBool true);
        ("LeftLaser-Clusters", VBool true);
        ("TopCRGBDCam-Image-Labelled", VBool true);
        ("TopLeft-Image", VBool true);
        ("LeftLaser-Labels", VBool false);
        ("TopLeftImage-Labeled", VBool true);
        ("FirstGuess-InteractiveMarkers", VBool true);
        ("RobotModel", VBool false);
        ("TopRightImage-Labeled", VBool true);
        ("Grid", VBool true);
        ("TopCRGBD-PointCloud2", VBool true);
        ("TF", VBool false)]);
     ("Unreliable", VBool false);
     ("Class", VStr "rviz/Camera");
     ("Image Topic", VStr "/top_right_camera/image_color")]);
   ("rviz/InteractiveMarkers",
    [("Show Visual Aids", VBool false);
     ("Name", VStr "DataLabeler-InteractiveMarkers");
     ("Update Topic", VStr "/data_labeler/update");
     ("Enabled", VBool true);
     ("Show Descriptions", VBool false);
     ("Value", VBool true);
     ("Show Axes", VBool false);
     ("Enable Transparency", VBool true);
     ("Class", VStr "rviz/InteractiveMarkers")]);
   ("rviz/tf",
    [("Frame Timeout", VInt 15);
     ("Name", VStr "TF");
     ("Enabled", VBool true);
     ("Marker Scale", VInt 1);
     ("Tree", VDict []);
     ("Value", VBool false);
     ("Show Axes", VBool true);
     ("Update Interval", VInt 0);
     ("Show Names", VBool false);
     ("Show Arrows", VBool false);
     ("Frames", VDict [("All Enabled", VBool true)]);
     ("Class", VStr "rviz/TF")]);
   ("rviz/grid",
    [("Reference Frame", VStr "base_footprint");
     ("Name", VStr "Grid");
     ("Cell Size", VInt 1);
     ("Normal Cell Count", VInt 0);
     ("Color", VStr "160; 160; 164");
     ("Line Style", VDict [("Line Width", VFloat 0.029999999329447746);
        ("Value", VStr "Lines")]);
     ("Enabled", VBool true);
     ("Value", VBool true);
     ("Plane", VStr "XY");
     ("Offset", VDict [("Y", VInt 0);
        ("X", VInt 0);
        ("Z", VInt 0)]);
     ("Alpha", VFloat 0.5);
     ("Plane Cell Count", VInt 10);
     ("Class", VStr "rviz/Grid")]);
   ("rviz/RobotModel",
    [("Name", VStr "RobotModel");
     ("Links", VDict []);
     ("Robot Description", VStr "robot_description");
     ("Visual Enabled", VBool true);
     ("Enabled", VBool true);
     ("Value", VBool true);
     ("Update Interval", VInt 0);
     ("Collision Enabled", VBool false);
     ("TF Prefix", VStr "");
     ("Alpha", VInt 1);
     ("Class", VStr "rviz/RobotModel")])].

Local Close Scope string_scope.

(** Body of the loop of [create_display], lines 89-94. *)
Definition create_display_option (display_type : string) (options d : dict value)
  (k : string) : result (dict value) :=
  if negb (dict_contains d k) then
    Raise (ValueError ("Option " ++ k ++ " does not exist for " ++ display_type))
  else
    v <- dict_getitem options k ;;
    Ok (dict_setitem d k v).

(** [create_display(display_type, options)], lines 27-95.  The dict it
    returns is built anew by every call. *)
Definition create_display (display_type : string) (options : dict value)
  : result (dict value) :=
  d <- dict_getitem display_dicts display_type ;;
  for_each (create_display_option display_type options) (dict_keys options) d.

(** ** The inputs of the script *)

(** What the script reads of its configuration, its bag file and the
    colour map: [config['world_link']]; [config['sensors']] with the string
    entries of each sensor; [bag_info[1]] with the [msg_type] of each
    topic; the array [cm.Set3(numpy.linspace(0, 1, n))] for the number [n]
    of sensors (lines 138 and 345) as the list of its rows; and what
    [colormapToRVizColor], a function of interactive_calibration.utilities,
    returns on a row. *)
Record Inputs : Type := mkInputs {
  world_link : value;
  sensors : dict (dict string);
  bag_topics : dict string;
  cm_sensors : list (list float);
  colormapToRVizColor : list float -> value
}.

(** [Fore.RED] and [Style.RESET_ALL] of colorama. *)
Definition Fore_RED : string := String (Ascii.ascii_of_nat 27) "[31m".
Definition Style_RESET_ALL : string := String (Ascii.ascii_of_nat 27) "[0m".

(** The double quote. *)
Definition dquote : string := String (Ascii.ascii_of_nat 34) EmptyString.

(** ** The check of the sensor topics *)

(** A value of [compressed_topics], lines 191-192. *)
Record CompressedTopic : Type := mkCompressedTopic {
  topic_compressed : string;
  msg_type : string;
  sensor_key : string
}.

(** Body of the loop of lines 183-202. *)
Definition verify_sensor (i : Inputs) (compressed_topics : dict CompressedTopic)
  (sensor_key : string) : result (dict CompressedTopic) :=
  s <- dict_getitem (sensors i) sensor_key ;;
  topic <- dict_getitem s "topic_name" ;;
  if negb (dict_contains (bag_topics i) topic) then
    let topic_compressed := (topic ++ "/compressed")%string in
    if dict_contains (bag_topics i) topic_compressed then
      msg_type <- dict_getitem (bag_topics i) topic_compressed ;;
      if String.eqb msg_type "sensor_msgs/CompressedImage" then
        Ok (dict_setitem compressed_topics topic
              (mkCompressedTopic topic_compressed msg_type sensor_key))
      else
        Raise (ValueError (Fore_RED ++ " Topic " ++ topic ++ " (from sensor " ++ sensor_key
                           ++ ") exists in compressed format in the bag file, but is not of msg_type "
                           ++ dquote ++ "sensor_msgs/CompressedImage" ++ dquote
                           ++ Style_RESET_ALL))
    else
      Raise (ValueError (Fore_RED ++ " Topic " ++ topic ++ " (from sensor " ++ sensor_key
                         ++ ") does not exist in the bag file." ++ Style_RESET_ALL))
  else Ok compressed_topics.

(** The verifications, lines 181-202: the compressed topics to decompress
    in the launch file. *)
Definition verify_topics (i : Inputs) : result (dict CompressedTopic) :=
  for_each (verify_sensor i) (dict_keys (sensors i)) [].

(** ** The displays of the RViz configurations *)

(** An element of a list of displays: what [yaml.load] returns on a template
    of the package rendered on the context [c], or a dict that
    [create_display] returned. *)
Inductive display : Type :=
| Rendered (template : string) (c : dict value)
| Created (d : dict value).

(** The [msg_type] of the topic of a sensor, lines 286-289. *)
Definition initial_estimate_msg_type (i : Inputs) (topic : string) : result string :=
  let topic_compressed := (topic ++ "/compressed")%string in
  if dict_contains (bag_topics i) topic then dict_getitem (bag_topics i) topic
  else dict_getitem (bag_topics i) topic_compressed.

(** The [msg_type] of the topic of a sensor, lines 351-356. *)
Definition collect_data_msg_type (i : Inputs) (topic : string) : result string :=
  let topic_compressed := (topic ++ "/compressed")%string in
  if dict_contains (bag_topics i) topic then dict_getitem (bag_topics i) topic
  else if dict_contains (bag_topics i) topic_compressed then
    dict_getitem (bag_topics i) topic_compressed
  else Raise (ValueError ("Could not find topic " ++ topic ++ " in bag file.")).

(** [str(n)] for an int. *)
Definition str (n : Z) : string := DecimalString.NilZero.string_of_int (Z.to_int n).

(** The colour of the displays of the sensor at position [idx], lines
    380-381 and 403-404:
    [str(int(cm_sensors[idx, 0] * 255)) + '; ' + ...]. *)
Definition rviz_color (i : Inputs) (idx : Z) : result string :=
  row <- getitem (cm_sensors i) idx ;;
  r <- getitem row 0 ;;
  r <- int_of_float (r * 255)%float ;;
  row <- getitem (cm_sensors i) idx ;;
  g <- getitem row 1 ;;
  g <- int_of_float (g * 255)%float ;;
  row <- getitem (cm_sensors i) idx ;;
  b <- getitem row 2 ;;
  b <- int_of_float (b * 255)%float ;;
  Ok (str r ++ "; " ++ str g ++ "; " ++ str b)%string.

(* String literals are the keys of the dicts below. *)
Local Open Scope string_scope.

(** The contexts of the templates, lines 258-323. *)
Definition core_displays (i : Inputs) : list display :=
  [Rendered "/rviz/Grid.rviz" [("Reference_Frame", world_link i)];
   Rendered "/rviz/TF.rviz" [("Name", VStr "TF")];
   Rendered "/rviz/RobotModel.rviz" [("Name", VStr "RobotModel")]].

Definition move_sensors_marker : display :=
  Rendered "/rviz/InteractiveMarker.rviz"
    [("Name", VStr "MoveSensors-InteractiveMarker");
     ("Update_Topic", VStr "set_initial_estimate/update")].

Definition image_context (display_name topic : string) : dict value :=
  [("Name", VStr display_name); ("Image_Topic", VStr topic)].

Definition laser_scan_context (display_name topic : string) (color : value) : dict value :=
  [("Name", VStr display_name); ("Topic", VStr topic); ("Color", color)].

Definition point_cloud2_context (display_name topic : string) (color : value) : dict value :=
  [("Name", VStr display_name); ("Topic", VStr topic); ("Color", color);
   ("Style", VStr "Points"); ("Size__m_", VFloat 0.2); ("Alpha", VInt 1)].

(** The options of the calls of [create_display], lines 342-417. *)
Definition marker_options : dict value :=
  [("Name", VStr "ManualDataLabeler-InteractiveMarkers");
   ("Update Topic", VStr "data_labeler/update")].

Definition image_options (display_name topic : string) : dict value :=
  [("Name", VStr display_name); ("Image Topic", VStr topic); ("Enabled", VBool false)].

Definition laser_scan_options (display_name topic color : string) : dict value :=
  [("Name", VStr display_name); ("Topic", VStr topic); ("Enabled", VBool true);
   ("Color", VStr color)].

Definition point_cloud2_options (display_name topic color style : string) (alpha : value)
  : dict value :=
  [("Name", VStr display_name); ("Topic", VStr topic); ("Enabled", VBool true);
   ("Color", VStr color); ("Style", VStr style); ("Size (m)", VFloat 0.2);
   ("Alpha", alpha)].

Local Close Scope string_scope.

(** The displays of a sensor in set_initial_estimate.rviz, body of the loop
    of lines 282-327. *)
Definition initial_estimate_sensor (i : Inputs) (displays : list display)
  (ik : Z * string) : result (list display) :=
  let '(idx, sensor_key) := ik in
  row <- getitem (cm_sensors i) idx ;;
  let color := colormapToRVizColor i row in
  s <- dict_getitem (sensors i) sensor_key ;;
  topic <- dict_getitem s "topic_name" ;;
  msg_type <- initial_estimate_msg_type i topic ;;
  if String.eqb msg_type "sensor_msgs/CompressedImage"
     || String.eqb msg_type "sensor_msgs/Image" then
    let displays :=
      displays ++ [Rendered "/rviz/Image.rviz" (image_context (sensor_key ++ "-Image") topic)] in
    Ok (displays
        ++ [Rendered "/rviz/Camera.rviz" (image_context (sensor_key ++ "-Camera") topic)])
  else if String.eqb msg_type "sensor_msgs/LaserScan" then
    Ok (displays
        ++ [Rendered "/rviz/LaserScan.rviz"
              (laser_scan_context (sensor_key ++ "-LaserScan") topic color)])
  else if String.eqb msg_type "sensor_msgs/PointCloud2" then
    Ok (displays
        ++ [Rendered "/rviz/PointCloud2.rviz"
              (point_cloud2_context (sensor_key ++ "-PointCloud2") topic color)])
  else Ok displays.

(** The displays of set_initial_estimate.rviz, lines 273-329, on the list
    [core_displays] as it stands: [displays] is another name of that list,
    and every display is appended to it. *)
Definition set_initial_estimate_displays (i : Inputs) (core_displays : list display)
  : result (list display) :=
  let displays := core_displays ++ [move_sensors_marker] in
  for_each (initial_estimate_sensor i) (enumerate (dict_keys (sensors i))) displays.

(** The exceptions of the script: those above, and NameError. *)
Inductive script_exn : Type :=
| Builtin (e : exn)
| NameError (name : string).

(** How a part of the script ends. *)
Inductive run (A : Type) : Type :=
| Done (a : A)
| Failed (e : script_exn).

Arguments Done {A} a.
Arguments Failed {A} e.

Definition builtin {A : Type} (r : result A) : run A :=
  match r with
  | Ok a => Done a
  | Raise e => Failed (Builtin e)
  end.

Definition run_bind {A B : Type} (c : run A) (k : A -> run B) : run B :=
  match c with
  | Done a => k a
  | Failed e => Failed e
  end.

Notation "x <-- c ;; k" := (run_bind c (fun x => k))
  (at level 61, c at next level, right associativity).

Fixpoint run_each {S A : Type} (body : S -> A -> run S) (l : list A) (st : S) : run S :=
  match l with
  | [] => Done st
  | a :: l' => st' <-- body st a ;; run_each body l' st'
  end.

(** The displays of a sensor in collect_data.rviz, body of the loop of
    lines 348-420.  Nothing binds the name [wg] of line 387, so the branch
    of a laser scan ends there. *)
Definition collect_data_sensor (i : Inputs) (displays : list display)
  (ik : Z * string) : run (list display) :=
  let '(idx, sensor_key) := ik in
  s <-- builtin (dict_getitem (sensors i) sensor_key) ;;
  topic <-- builtin (dict_getitem s "topic_name") ;;
  msg_type <-- builtin (collect_data_msg_type i topic) ;;
  if String.eqb msg_type "sensor_msgs/CompressedImage"
     || String.eqb msg_type "sensor_msgs/Image" then
    let display_name := (sensor_key ++ "-Image")%string in
    d <-- builtin (create_display "rviz/Image" (image_options display_name topic)) ;;
    let displays := displays ++ [Created d] in
    let display_name := (sensor_key ++ "-Labels" ++ "-Image")%string in
    d <-- builtin (create_display "rviz/Image"
                     (image_options display_name (topic ++ "/labeled"))) ;;
    let displays := displays ++ [Created d] in
    let display_name := (sensor_key ++ "-Camera")%string in
    d <-- builtin (create_display "rviz/Camera" (image_options display_name topic)) ;;
    Done (displays ++ [Created d])
  else if String.eqb msg_type "sensor_msgs/LaserScan" then
    let display_name := (sensor_key ++ "-LaserScan")%string in
    color <-- builtin (rviz_color i idx) ;;
    d <-- builtin (create_display "rviz/LaserScan"
                     (laser_scan_options display_name topic color)) ;;
    let displays := displays ++ [Created d] in
    Failed (NameError "wg")
  else if String.eqb msg_type "sensor_msgs/PointCloud2" then
    let display_name := (sensor_key ++ "-PointCloud2")%string in
    color <-- builtin (rviz_color i idx) ;;
    d <-- builtin (create_display "rviz/PointCloud2"
                     (point_cloud2_options display_name topic color "Points" (VInt 1))) ;;
    let displays := displays ++ [Created d] in
    let display_name := (sensor_key ++ "-Labels-PointCloud2")%string in
    d <-- builtin (create_display "rviz/PointCloud2"
                     (point_cloud2_options display_name (topic ++ "/labeled") color
                        "Spheres" (VFloat 0.05))) ;;
    Done (displays ++ [Created d])
  else Done displays.

(** The displays of collect_data.rviz, lines 339-422, on the list
    [core_displays] as it stands. *)
Definition collect_data_displays (i : Inputs) (core_displays : list display)
  : run (list display) :=
  d <-- builtin (create_display "rviz/InteractiveMarkers" marker_options) ;;
  let displays := core_displays ++ [Created d] in
  run_each (collect_data_sensor i) (enumerate (dict_keys (sensors i))) displays.

(** The two display lists of the script, lines 255-422.  Both sections
    start with [displays = core_displays], so the second one goes on with
    the list that the first one has filled. *)
Definition rviz_displays (i : Inputs) : run (list display * list display) :=
  set_initial_estimate <-- builtin (set_initial_estimate_displays i (core_displays i)) ;;
  collect_data <-- collect_data_displays i set_initial_estimate ;;
  Done (set_initial_estimate, collect_data).

(** ** Statements about the script *)

(** The topic of a sensor is in the bag, or its compressed variant is, as a
    compressed image. *)
Definition topic_available (bag : dict string) (topic : string) : bool :=
  dict_contains bag topic
  || match dict_get bag (topic ++ "/compressed") with
     | Some t => String.eqb t "sensor_msgs/CompressedImage"
     | None => false
     end.

(** The topic that the configuration names for a sensor. *)
Definition sensor_topic (i : Inputs) (sensor_key topic : string) : Prop :=
  exists s, dict_get (sensors i) sensor_key = Some s /\ dict_get s "topic_name" = Some topic.

(** The sensor of a key publishes laser scans: its topic is in the bag with
    the message type sensor_msgs/LaserScan. *)
Definition laser_scan_sensor (i : Inputs) (k : string) : bool :=
  match dict_get (sensors i) k with
  | Some s =>
      match dict_get s "topic_name" with
      | Some topic =>
          match dict_get (bag_topics i) topic with
          | Some t => String.eqb t "sensor_msgs/LaserScan"
          | None => false
          end
      | None => false
      end
  | None => false
  end.

(* String literals are the keys of the dicts below. *)
Local Open Scope string_scope.

(** A package with a camera, whose images are in the bag in compressed form
    only, and a 3D lidar. *)
Definition camera_and_lidar : Inputs :=
  mkInputs (VStr "base_link")
    [("camera", [("topic_name", "/camera/image")]);
     ("lidar", [("topic_name", "/lidar/points")])]
    [("/camera/image/compressed", "sensor_msgs/CompressedImage");
     ("/lidar/points", "sensor_msgs/PointCloud2")]
    [[0.5; 0.5; 0.5; 1]; [1; 0; 0.25; 1]]%float
    (fun _ => VStr "127; 127; 127").

(** A package with a 2D lidar. *)
Definition laser_only : Inputs :=
  mkInputs (VStr "base_link")
    [("laser", [("topic_name", "/laser/scan")])]
    [("/laser/scan", "sensor_msgs/LaserScan")]
    [[0.5; 0.5; 0.5; 1]]%float
    (fun _ => VStr "127; 127; 127").

Local Close Scope string_scope.
(** * Interactive data labeler
    (atom_calibration/collect/interactive_data_labeler.py)

    What follows embeds [InteractiveDataLabeler]: its constructor, the
    frame callback and the per-modality labeling pass [labelData], with the
    2D laser-scan clustering written out in full.

    The interpreter.  The module asks for Python 3 in its first line.  It
    imports neither [sys] nor [struct] by name: both reach it through
    [from sensor_msgs.msg import *], as the generated message modules import
    them.  The module [sys] of Python 3 has no attribute [maxint], so the
    statement [min_dist = sys.maxint] raises AttributeError.

    The C library.  [x ** 2] on a float is [float.__pow__], which hands
    ordinary operands to [pow] of the C library; the language does not fix
    how that function rounds, so the definitions and theorems about the
    labeler are parameterised by it. *)

(** ** The C library *)

(** What [pow] of the C library leaves behind: the value it returns, and
    whether it has set [errno] to ERANGE. *)
Record pow_result : Type := mkPow {
  pow_value : float;
  pow_erange : bool
}.

(** A C library whose [pow(x, 2.0)] is the correctly rounded product of [x]
    with itself and which leaves [errno] alone. *)
Definition rounded_square (x y : float) : pow_result := mkPow (x * x)%float false.

Section Libm.

(** [pow] of the C library the interpreter is linked with. *)
Variable libm_pow : float -> float -> pow_result.

(** [x ** 2] on a float, that is [float.__pow__(x, 2)] (CPython,
    Objects/floatobject.c, float_pow).  The interpreter settles NaN, the
    infinities, the zeros and the magnitude 1 itself; any other operand goes
    to [pow] as its magnitude, the exponent being even.  After the call
    [errno] is set to ERANGE when the value is an infinity and cleared when
    the value is a zero, and a set [errno] raises OverflowError. *)
Definition pow2 (x : float) : result float :=
  if is_nan x then Ok x
  else if is_infinity x then Ok infinity
  else if (x =? 0)%float then Ok 0%float
  else if (abs x =? 1)%float then Ok 1%float
  else
    let r := libm_pow (abs x) 2 in
    let ix := pow_value r in
    let erange :=
      if pow_erange r then negb (ix =? 0)%float else is_infinity ix in
    if erange then Raise OverflowError else Ok ix.

(** [math.sqrt(x)]: the correctly rounded square root; ValueError when the
    root is NaN and the operand is not. *)
Definition math_sqrt (x : float) : result float :=
  let r := PrimFloat.sqrt x in
  if is_nan r && negb (is_nan x) then Raise (ValueError "math domain error")
  else Ok r.

(** ** Laser-scan clusters *)

(** [class LaserScanCluster]. *)
Record LaserScanCluster : Type := mkCluster {
  cluster_count : Z;
  idxs : list Z
}.

(** [LaserScanCluster.__init__(cluster_count, idx)]. *)
Definition newCluster (count idx : Z) : LaserScanCluster :=
  mkCluster count [idx].

(** [LaserScanCluster.pushIdx(idx)]. *)
Definition pushIdx (c : LaserScanCluster) (idx : Z) : LaserScanCluster :=
  mkCluster (cluster_count c) (idxs c ++ [idx]).

(** Parameters of the 2D lidar labeling, set in [__init__]. *)
Definition threshold : float := 0.2%float.
Definition minimum_range_value : float := 0.3%float.

(** [math.sqrt((x1 - x0) ** 2 + (y1 - y0) ** 2)]. *)
Definition distance (x1 y1 x0 y0 : float) : result float :=
  a <- pow2 (x1 - x0) ;;
  b <- pow2 (y1 - y0) ;;
  math_sqrt (a + b).

(** The variables the clustering loop updates. *)
Record scan_state : Type := mkScan {
  clusters : list LaserScanCluster;
  cluster_counter : Z;
  first_iteration : bool
}.

(** [clusters[-1].pushIdx(idx)]: the last cluster of the list is mutated in
    place. *)
Definition push_last (cs : list LaserScanCluster) (idx : Z)
  : result (list LaserScanCluster) :=
  c <- getitem cs (-1) ;;
  Ok (removelast cs ++ [pushIdx c idx]).

(** Body of the clustering loop, lines 291-307. *)
Definition cluster_step (ranges xs ys : list float) (st : scan_state)
  (ir : Z * float) : result scan_state :=
  let '(idx, r) := ir in
  if (r <? minimum_range_value)%float then Ok st
  else
    prev <- getitem ranges (idx - 1) ;;
    if (prev <? minimum_range_value)%float then Ok st
    else if first_iteration st then
      Ok (mkScan (clusters st ++ [newCluster (cluster_counter st) idx])
                 (cluster_counter st) false)
    else
      c <- getitem (clusters st) (-1) ;;
      i <- getitem (idxs c) (-1) ;;
      x <- getitem xs i ;;
      c' <- getitem (clusters st) (-1) ;;
      j <- getitem (idxs c') (-1) ;;
      y <- getitem ys j ;;
      xi <- getitem xs idx ;;
      a <- pow2 (xi - x) ;;
      yi <- getitem ys idx ;;
      b <- pow2 (yi - y) ;;
      distance <- math_sqrt (a + b) ;;
      if (threshold <? distance)%float then
        Ok (mkScan (clusters st ++ [newCluster (cluster_counter st + 1) idx])
                   (cluster_counter st + 1) false)
      else
        cs <- push_last (clusters st) idx ;;
        Ok (mkScan cs (cluster_counter st) false).

(** The clustering stage of [labelData] for a 2D lidar. *)
Definition clustering (ranges xs ys : list float) : result (list LaserScanCluster) :=
  st <- for_each (cluster_step ranges xs ys) (enumerate ranges) (mkScan [] 0 true) ;;
  Ok (clusters st).

(** ** The labeler *)

(** [geometry_msgs/Point]: the position of the interactive marker. *)
Record Position : Type := mkPosition {
  pos_x : float;
  pos_y : float;
  pos_z : float
}.

(** [self.seed], a dict with keys 'x' and 'y' (depth modality). *)
Record Seed : Type := mkSeed {
  seed_x : float;
  seed_y : float
}.

(** An element of [labels['idxs']]: an index into the sensor data, or for a
    camera a keypoint dict. *)
Inductive label_item : Type :=
| Idx (i : Z)
| Keypoint (x y : float) (id : option Z).

(** [self.labels], a dict with keys 'detected', 'idxs' and, when a 3D
    labeling function produced it, 'idxs_limit_points'. *)
Record Labels : Type := mkLabels {
  detected : bool;
  labels_idxs : list label_item;
  idxs_limit_points : option (list Z)
}.

(** What [self.pattern.detect(image)] returns. *)
Record Detection : Type := mkDetection {
  det_detected : bool;
  det_keypoints : list (float * float);
  det_ids : option (list Z)
}.

(** A sensor message as the labeler reads it.  The functions that interpret
    a message are defined in other modules of the repository
    (atom_core.utilities, patterns, label_messages); a message carries what
    each of them returns on it.  [numpyFromPointCloudMsg] is the array of
    the points of a cloud, one row of coordinates per point.  [cv2_line]
    tells whether OpenCV's [cv2.line], called on the image of the message to
    mark the pixel [(x, y)], returns; otherwise it raises. *)
Record Msg : Type := mkMsg {
  ranges : list float;
  laser_scan_msg_to_xy : list float * list float;
  pattern_detect : Detection;
  cv2_line : Z -> Z -> bool;
  labelPointCloud2Msg : Position -> float -> Labels * Position;
  numpyFromPointCloudMsg : list (list float);
  labelDepthMsg : Seed -> Labels * Seed
}.

(** The attributes of an [InteractiveDataLabeler] the labeling reads or
    writes.  An attribute that [__init__] creates for some modalities only
    is an [option]. *)
Record Labeler : Type := mkLabeler {
  name : string;
  parent : string;
  topic : string;
  modality : string;
  label_data : bool;
  labels : Labels;
  locked : bool;
  msg : option Msg;
  marker : option Position;
  tracker_threshold : option float;
  fullResolution : option (Z * Z);
  seed : option Seed
}.

Definition set_labels (self : Labeler) (l : Labels) : Labeler :=
  mkLabeler (name self) (parent self) (topic self) (modality self)
    (label_data self) l (locked self) (msg self) (marker self)
    (tracker_threshold self) (fullResolution self) (seed self).

Definition set_locked (self : Labeler) (b : bool) : Labeler :=
  mkLabeler (name self) (parent self) (topic self) (modality self)
    (label_data self) (labels self) b (msg self) (marker self)
    (tracker_threshold self) (fullResolution self) (seed self).

Definition set_msg (self : Labeler) (m : Msg) : Labeler :=
  mkLabeler (name self) (parent self) (topic self) (modality self)
    (label_data self) (labels self) (locked self) (Some m) (marker self)
    (tracker_threshold self) (fullResolution self) (seed self).

Definition set_marker (self : Labeler) (p : Position) : Labeler :=
  mkLabeler (name self) (parent self) (topic self) (modality self)
    (label_data self) (labels self) (locked self) (msg self) (Some p)
    (tracker_threshold self) (fullResolution self) (seed self).

Definition set_seed (self : Labeler) (s : Seed) : Labeler :=
  mkLabeler (name self) (parent self) (topic self) (modality self)
    (label_data self) (labels self) (locked self) (msg self) (marker self)
    (tracker_threshold self) (fullResolution self) (Some s).

(** ** Methods: state and exceptions *)

(** A method body: it runs on the labeler, returns a value or raises, and
    leaves the labeler as mutated up to that point. *)
Definition M (A : Type) : Type := Labeler -> result A * Labeler.

Definition ret {A : Type} (a : A) : M A := fun self => (Ok a, self).

Definition mbind {A B : Type} (c : M A) (k : A -> M B) : M B :=
  fun self =>
    match c self with
    | (Ok a, self') => k a self'
    | (Raise e, self') => (Raise e, self')
    end.

Notation "x <~ c ;; k" := (mbind c (fun x => k))
  (at level 61, c at next level, right associativity).
Notation "c ;;; k" := (mbind c (fun _ => k))
  (at level 61, right associativity).

(** A pure computation inside a method. *)
Definition lift {A : Type} (r : result A) : M A := fun self => (r, self).

(** Reading an attribute; a missing one raises AttributeError. *)
Definition attr {A : Type} (field : Labeler -> option A) : M A :=
  fun self =>
    match field self with
    | Some a => (Ok a, self)
    | None => (Raise AttributeError, self)
    end.

Definition gets {A : Type} (field : Labeler -> A) : M A :=
  fun self => (Ok (field self), self).

Definition modify (f : Labeler -> Labeler) : M unit :=
  fun self => (Ok tt, f self).

(** [self.marker.pose.position.x = v] and its siblings. *)
Definition set_marker_x (v : float) : M unit :=
  p <~ attr marker ;; modify (fun self => set_marker self (mkPosition v (pos_y p) (pos_z p))).

Definition set_marker_y (v : float) : M unit :=
  p <~ attr marker ;; modify (fun self => set_marker self (mkPosition (pos_x p) v (pos_z p))).

Definition set_marker_z (v : float) : M unit :=
  p <~ attr marker ;; modify (fun self => set_marker self (mkPosition (pos_x p) (pos_y p) v)).

Definition set_detected (b : bool) : M unit :=
  modify (fun self =>
    set_labels self (mkLabels b (labels_idxs (labels self)) (idxs_limit_points (labels self)))).

Definition set_idxs (l : list label_item) : M unit :=
  modify (fun self =>
    set_labels self (mkLabels (detected (labels self)) l (idxs_limit_points (labels self)))).

(** The lidar2d branch of [labelData], lines 282-312: the clustering, the
    reading of the marker position, and the statement
    [min_dist = sys.maxint], which raises AttributeError.  The lines after
    it (the association, the centroid, the labels and the two point clouds,
    lines 313-381) are never reached. *)
Definition labelData_lidar2d : M unit :=
  m <~ attr msg ;;
  let '(xs, ys) := laser_scan_msg_to_xy m in
  (* Clustering *)
  _ <~ lift (clustering (ranges m) xs ys) ;;
  (* Association stage *)
  _ <~ attr marker ;;
  lift (Raise AttributeError).

(** Body of the loop over the keypoints of a charuco detection, line 399. *)
Definition keypoint_with_id (ids : list Z) (c : list label_item)
  (ic : Z * (float * float)) : result (list label_item) :=
  id <- getitem ids (fst ic) ;;
  Ok (c ++ [Keypoint (fst (snd ic)) (snd (snd ic)) (Some id)]).

Definition keypoint_x (k : label_item) : float :=
  match k with Keypoint x _ _ => x | Idx _ => 0%float end.

Definition keypoint_y (k : label_item) : float :=
  match k with Keypoint _ y _ => y | Idx _ => 0%float end.

(** The rgb branch of [labelData], lines 389-410, up to the drawing of the
    keypoints and the publication of the image. *)
Definition labelData_rgb : M unit :=
  m <~ attr msg ;;
  let result := pattern_detect m in
  if det_detected result then
    c <~ lift (match det_ids result with
               | Some ids => for_each (keypoint_with_id ids) (enumerate (det_keypoints result)) []
               | None => Ok (map (fun corner => Keypoint (fst corner) (snd corner) None)
                                 (det_keypoints result))
               end) ;;
    c0 <~ lift (getitem c 0) ;;
    x <~ lift (round_half_even (keypoint_x c0)) ;;
    c0' <~ lift (getitem c 0) ;;
    y <~ lift (round_half_even (keypoint_y c0')) ;;
    (if cv2_line m x y then ret tt else lift (Raise (LibraryError "cv2"))) ;;;
    (* Update the dictionary with the labels *)
    set_detected true ;;;
    set_idxs c
  else ret tt.

(** [[point_cloud[idx, 0], point_cloud[idx, 1], point_cloud[idx, 2]]] on
    the array of a cloud: IndexError when [idx] is not an integer or not a
    row of the array, or when the row has no such column. *)
Definition cloud_point (point_cloud : list (list float)) (idx : label_item)
  : result (float * float * float) :=
  match idx with
  | Idx i =>
      r0 <- getitem point_cloud i ;;
      x <- getitem r0 0 ;;
      r1 <- getitem point_cloud i ;;
      y <- getitem r1 1 ;;
      r2 <- getitem point_cloud i ;;
      z <- getitem r2 2 ;;
      Ok (x, y, z)
  | Keypoint _ _ _ => Raise IndexError
  end.

(** Body of the loops of lines 443-445 and 451-453: [points.append(pt)].
    The colour that goes with each point is a constant. *)
Definition append_point (point_cloud : list (list float))
  (points : list (float * float * float)) (idx : label_item)
  : result (list (float * float * float)) :=
  pt <- cloud_point point_cloud idx ;;
  Ok (points ++ [pt]).

(** The lidar3d branch of [labelData], lines 427-467, up to the creation
    and publication of the labelled cloud (lines 455-462) and the refresh of
    the marker server. *)
Definition labelData_lidar3d : M unit :=
  p <~ attr marker ;;
  m <~ attr msg ;;
  t <~ attr tracker_threshold ;;
  let '(l, seed_point) := labelPointCloud2Msg m p t in
  modify (fun self => set_labels self l) ;;;
  let point_cloud := numpyFromPointCloudMsg m in
  (* Add idxs points *)
  l1 <~ gets labels ;;
  points <~ lift (for_each (append_point point_cloud) (labels_idxs l1) []) ;;
  (* Add idx_limit_points *)
  l2 <~ gets labels ;;
  limit <~ lift (key "idxs_limit_points" (idxs_limit_points l2)) ;;
  _ <~ lift (for_each (append_point point_cloud) (map Idx limit) points) ;;
  (* Update the interactive marker pose *)
  set_marker_x (pos_x seed_point) ;;;
  set_marker_y (pos_y seed_point) ;;;
  set_marker_z (pos_z seed_point).

(** [filter_border_edges], line 477. *)
Definition filter_border_edges : float := 0.025%float.

(** [round(width / 2)] on an int (Python 3: true division, then rounding to
    the nearest int, ties to even), kept as the float that compares equal. *)
Definition half_rounded (width : Z) : result float :=
  w <- float_of_int width ;;
  r <- round_half_even (w / 2)%float ;;
  float_of_int r.

(** The test of line 486,
    [0 < x < width - filter_border_edges*width and
     0 < y < height - filter_border_edges*height]. *)
Definition seed_in_bounds (width height : Z) (new_seed_point : Seed) : result bool :=
  if negb (0 <? seed_x new_seed_point)%float then Ok false
  else
    w <- float_of_int width ;;
    if negb (seed_x new_seed_point <? w - filter_border_edges * w)%float then Ok false
    else if negb (0 <? seed_y new_seed_point)%float then Ok false
    else
      h <- float_of_int height ;;
      Ok (seed_y new_seed_point <? h - filter_border_edges * h)%float.

(** The depth branch of [labelData], lines 475-491, up to the publication of
    the labelled image. *)
Definition labelData_depth : M unit :=
  res <~ attr fullResolution ;;
  let width := fst res in
  let height := snd res in
  m <~ attr msg ;;
  s <~ attr seed ;;
  let '(l, new_seed_point) := labelDepthMsg m s in
  modify (fun self => set_labels self l) ;;;
  ok <~ lift (seed_in_bounds width height new_seed_point) ;;
  if ok then
    s' <~ attr seed ;;
    modify (fun self => set_seed self (mkSeed (seed_x new_seed_point) (seed_y s'))) ;;;
    s'' <~ attr seed ;;
    modify (fun self => set_seed self (mkSeed (seed_x s'') (seed_y new_seed_point)))
  else
    cx <~ lift (half_rounded width) ;;
    cy <~ lift (half_rounded height) ;;
    modify (fun self => set_seed self (mkSeed cx cy)).

(** Lines 272-273 of [labelData]: the labels of the previous pass are reset. *)
Definition labelData_reset : M unit :=
  set_detected false ;;;
  set_idxs [].

(** Lines 277-500 of [labelData]: the labeling process of the modality. *)
Definition labelData_dispatch : M unit :=
  md <~ gets modality ;;
  if String.eqb md "lidar2d" then labelData_lidar2d
  else if String.eqb md "rgb" then labelData_rgb
  else if String.eqb md "lidar3d" then labelData_lidar3d
  else if String.eqb md "depth" then labelData_depth
  else lift (Raise (ValueError "Unknown modality")).

(** [InteractiveDataLabeler.labelData], lines 269-500. *)
Definition labelData : M unit :=
  labelData_reset ;;;
  labelData_dispatch.

(** ** Construction *)

(** [sensor_dict]: the description of the sensor. *)
Record SensorDict : Type := mkSensorDict {
  sd_name : string;
  sd_parent : string;
  sd_topic : string;
  sd_modality : string;
  sd_camera_info : option (Z * Z)
}.

(** [calib_pattern]: the description of the calibration pattern. *)
Record CalibPattern : Type := mkCalibPattern {
  pattern_type : string;
  dimension_x : Z;
  dimension_y : Z;
  size : float;
  inner_size : option float;
  dictionary : option string
}.

(** The chessboard point tracker distance threshold, lines 190-192. *)
Definition tracker_threshold_of (calib_pattern : CalibPattern) : result float :=
  dx <- float_of_int (dimension_x calib_pattern - 1) ;;
  a <- pow2 (dx * size calib_pattern) ;;
  dy <- float_of_int (dimension_y calib_pattern - 1) ;;
  b <- pow2 (dy * size calib_pattern) ;;
  d <- math_sqrt (a + b) ;;
  Ok (d * 0.8)%float.

(** [InteractiveDataLabeler.__init__], lines 105-238.  The ROS objects it
    creates (marker server, publishers, subscribers) and the message type
    it looks up are not part of the labeler's state here. *)
Definition init (sensor_dict : SensorDict) (calib_pattern : CalibPattern)
  (label_data : bool) : result Labeler :=
  let self :=
    mkLabeler (sd_name sensor_dict) (sd_parent sensor_dict) (sd_topic sensor_dict)
      (sd_modality sensor_dict) label_data (mkLabels false [] None) false
      None None None None None in
  _ <- (if String.eqb (pattern_type calib_pattern) "chessboard" then Ok tt
        else if String.eqb (pattern_type calib_pattern) "charuco" then
          _ <- key "inner_size" (inner_size calib_pattern) ;;
          _ <- key "dictionary" (dictionary calib_pattern) ;;
          Ok tt
        else Raise (SystemExit 1)) ;;
  if String.eqb (modality self) "lidar2d" && label_data then
    Ok (set_marker self (mkPosition 0 0 0))
  else if String.eqb (modality self) "rgb" && label_data then
    Ok self
  else if String.eqb (modality self) "lidar3d" && label_data then
    let self := set_marker self (mkPosition 0.804 0.298 0.409) in
    t <- tracker_threshold_of calib_pattern ;;
    Ok (mkLabeler (name self) (parent self) (topic self) (modality self)
          (label_data) (labels self) (locked self) (msg self) (marker self)
          (Some t) (fullResolution self) (seed self))
  else if String.eqb (modality self) "depth" && label_data then
    res <- key "camera_info" (sd_camera_info sensor_dict) ;;
    let self := set_marker self (mkPosition 0.804 0.298 0.409) in
    sx <- half_rounded (fst res) ;;
    sy <- half_rounded (snd res) ;;
    Ok (mkLabeler (name self) (parent self) (topic self) (modality self)
          (label_data) (labels self) (locked self) (msg self) (marker self)
          (tracker_threshold self) (Some res) (Some (mkSeed sx sy)))
  else if label_data then
    Raise (ValueError ("Message type " ++ modality self ++ " for topic "
                       ++ topic self ++ "is of an unknown type."))
  else Ok self.

(** ** The frame callback *)

(** How a call of the callback ends: it returns, it raises, or it waits
    for a lock that is held. *)
Inductive outcome : Type :=
| Returned
| Raised (e : exn)
| Blocked.

(** [InteractiveDataLabeler.sensorDataReceivedCallback], lines 246-266, run
    on its own (no other thread holds or releases the lock meanwhile). *)
Definition sensorDataReceivedCallback (m : Msg) (self : Labeler) : outcome * Labeler :=
  if locked self then (Blocked, self)
  else
    let self := set_locked self true in
    let self := set_msg self m in
    if label_data self then
      match labelData self with
      | (Ok _, self) => (Returned, set_locked self false)
      | (Raise e, self) => (Raised e, self)
      end
    else (Returned, set_locked self false).

(** The frames of a list delivered one after the other; the outcome of each
    call, in order. *)
Fixpoint deliver (ms : list Msg) (self : Labeler) : list outcome * Labeler :=
  match ms with
  | [] => ([], self)
  | m :: ms' =>
      let '(o, self') := sensorDataReceivedCallback m self in
      let '(os, self'') := deliver ms' self' in
      (o :: os, self'')
  end.

(** ** Frames delivered by two threads *)

(** Where a thread stands in [sensorDataReceivedCallback]. *)
Inductive pc : Type :=
| AtAcquire
| AtStoreMsg
| AtReset
| AtDispatch
| AtRelease
| Finished (o : outcome).

(** One step of a thread that runs the callback on message [m], on the
    labeler it shares with the other threads.  [lock.acquire()] takes a
    step only when the lock is free; a pass that raises leaves the callback
    without reaching [lock.release()]. *)
Inductive thread_step (m : Msg) : Labeler * pc -> Labeler * pc -> Prop :=
| step_acquire self :
    locked self = false ->
    thread_step m (self, AtAcquire) (set_locked self true, AtStoreMsg)
| step_store_msg self :
    thread_step m (self, AtStoreMsg)
      (set_msg self m, if label_data self then AtReset else AtRelease)
| step_reset self self' :
    labelData_reset self = (Ok tt, self') ->
    thread_step m (self, AtReset) (self', AtDispatch)
| step_dispatch_returns self self' :
    labelData_dispatch self = (Ok tt, self') ->
    thread_step m (self, AtDispatch) (self', AtRelease)
| step_dispatch_raises self self' e :
    labelData_dispatch self = (Raise e, self') ->
    thread_step m (self, AtDispatch) (self', Finished (Raised e))
| step_release self :
    thread_step m (self, AtRelease) (set_locked self false, Finished Returned).

(** Two threads, each delivering one frame to the same labeler. *)
Record config : Type := mkConfig {
  shared : Labeler;
  pc1 : pc;
  pc2 : pc
}.

(** The threads interleave in any order, one step at a time. *)
Inductive step (m1 m2 : Msg) : config -> config -> Prop :=
| step_thread1 self p1 p2 self' p1' :
    thread_step m1 (self, p1) (self', p1') ->
    step m1 m2 (mkConfig self p1 p2) (mkConfig self' p1' p2)
| step_thread2 self p1 p2 self' p2' :
    thread_step m2 (self, p2) (self', p2') ->
    step m1 m2 (mkConfig self p1 p2) (mkConfig self' p1 p2').

Inductive steps (m1 m2 : Msg) : config -> config -> Prop :=
| steps_refl c : steps m1 m2 c c
| steps_snoc c c' c'' : steps m1 m2 c c' -> step m1 m2 c' c'' -> steps m1 m2 c c''.

(** A thread is inside the critical section: it holds the lock and is
    between [acquire] and [release]. *)
Definition in_pass (p : pc) : bool :=
  match p with
  | AtStoreMsg | AtReset | AtDispatch | AtRelease => true
  | AtAcquire | Finished _ => false
  end.

(** The outcome of a thread when nothing can move any more: a thread still
    at [acquire] is blocked. *)
Definition thread_outcome (p : pc) : outcome :=
  match p with
  | Finished o => o
  | _ => Blocked
  end.

(** No thread can take a step. *)
Definition stuck (m1 m2 : Msg) (c : config) : Prop :=
  forall c', ~ step m1 m2 c c'.

(** ** Definitions that follow the words of the specification *)

(** The indices of an array, in input order. *)
Definition indices {A : Type} (l : list A) : list Z := map fst (enumerate l).

(** A reading is below the minimum-valid-range threshold. *)
Definition below_minimum (r : float) : bool := (r <? minimum_range_value)%float.

(** The skip rule of the clusterer on the reading [r] at index [idx]: the
    point is kept when neither its range nor the range read at [idx - 1]
    is below the minimum. *)
Definition valid_point (ranges : list float) (ir : Z * float) : bool :=
  negb (below_minimum (snd ir)) &&
  match getitem ranges (fst ir - 1) with
  | Ok prev => negb (below_minimum prev)
  | Raise _ => false
  end.

(** The element at index [i] of a list of coordinates. *)
Definition coord (l : list float) (i : Z) : float := nth (Z.to_nat i) l 0%float.

(** Two consecutive Cartesian points lie within the point-to-point distance
    threshold: their distance, computed as the labeler does, exists and is
    not above it. *)
Definition within_threshold (xs ys : list float) (i : Z) : bool :=
  match distance (coord xs (i + 1)) (coord ys (i + 1)) (coord xs i) (coord ys i) with
  | Ok d => (d <=? threshold)%float
  | Raise _ => false
  end.

(** The diagonal of a grid of [dx] by [dy] corners with squares of size
    [s]: the square root of the sum of the squares of its two extents,
    [(dx - 1) * s] and [(dy - 1) * s]. *)
Definition grid_diagonal (dx dy : Z) (s : float) : result float :=
  fx <- float_of_int (dx - 1) ;;
  fy <- float_of_int (dy - 1) ;;
  let w := (fx * s)%float in
  let h := (fy * s)%float in
  w2 <- pow2 w ;;
  h2 <- pow2 h ;;
  math_sqrt (w2 + h2).

(** A pixel lies strictly inside the image minus a border margin of
    [border_fraction * dimension] on each of the four sides. *)
Definition inside_margins (border_fraction w h : float) (s : Seed) : bool :=
  ((border_fraction * w <? seed_x s) && (seed_x s <? w - border_fraction * w) &&
   (border_fraction * h <? seed_y s) && (seed_y s <? h - border_fraction * h))%float.

(** The test the labeler makes on a candidate seed, on the image dimensions
    as floats: the margin is taken off the right and the bottom side, the
    left and the top bound are [0]. *)
Definition accepted (w h : float) (s : Seed) : bool :=
  ((0 <? seed_x s) && (seed_x s <? w - filter_border_edges * w) &&
   (0 <? seed_y s) && (seed_y s <? h - filter_border_edges * h))%float.

(** The pattern description passes the check of [__init__]: a chessboard,
    or a charuco board with its inner size and dictionary. *)
Definition known_pattern (calib_pattern : CalibPattern) : bool :=
  String.eqb (pattern_type calib_pattern) "chessboard"
  || (String.eqb (pattern_type calib_pattern) "charuco"
      && match inner_size calib_pattern, dictionary calib_pattern with
         | Some _, Some _ => true
         | _, _ => false
         end).

(** The four known modalities. *)
Definition known_modality (md : string) : bool :=
  String.eqb md "rgb" || String.eqb md "lidar2d" || String.eqb md "lidar3d"
  || String.eqb md "depth".

(** ** Invariants *)

(** The indices of all clusters, in cluster-then-index order. *)
Definition flatten (cs : list LaserScanCluster) : list Z :=
  List.concat (map idxs cs).

(** What the clustering loop maintains before the reading at index [bound]:
    every cluster has an index, every index is one it has gone through, and
    [first_iteration] holds as long as there is no cluster. *)
Definition scan_wf (bound : Z) (st : scan_state) : Prop :=
  Forall (fun c => idxs c <> [] /\ Forall (fun i => 0 <= i < bound) (idxs c))
         (clusters st)
  /\ (first_iteration st = true <-> clusters st = []).

(** The error of line 500. *)
Definition unknown_modality : exn := ValueError "Unknown modality".

(** A computation does not raise the unknown-modality error. *)
Definition benign {A : Type} (r : result A) : Prop := r <> Raise unknown_modality.

(** A method body leaves the modality, the labeling switch and the lock of
    the labeler as they are. *)
Definition keeps {A : Type} (c : M A) : Prop :=
  forall self r self',
    c self = (r, self') ->
    modality self' = modality self /\ label_data self' = label_data self /\
    locked self' = locked self.

(** A method body that moreover does not raise the unknown-modality error. *)
Definition safe {A : Type} (c : M A) : Prop :=
  forall self r self',
    c self = (r, self') ->
    (modality self' = modality self /\ label_data self' = label_data self /\
     locked self' = locked self) /\ benign r.

(** What is left of the callback for a thread that stands at [p], run to
    its end without interruption. *)
Definition finish (m : Msg) (self : Labeler) (p : pc) : outcome * Labeler :=
  let release self := (Returned, set_locked self false) in
  let dispatch self :=
    match labelData_dispatch self with
    | (Ok _, self) => release self
    | (Raise e, self) => (Raised e, self)
    end in
  let reset self :=
    match labelData_reset self with
    | (Ok _, self) => dispatch self
    | (Raise e, self) => (Raised e, self)
    end in
  let store_msg self :=
    let self := set_msg self m in
    if label_data self then reset self else release self in
  match p with
  | AtAcquire => if locked self then (Blocked, self) else store_msg (set_locked self true)
  | AtStoreMsg => store_msg self
  | AtReset => reset self
  | AtDispatch => dispatch self
  | AtRelease => release self
  | Finished o => (o, self)
  end.

(** What holds of two threads on a labeler that started as [self] when the
    thread that delivers [ma] is the first to take the lock: both are still
    to start; or the first one is inside its pass, which will end as its
    callback run alone on [self] does; or the first one has ended so; or the
    second one is inside its pass, which will end as its callback run alone
    after the first one does; or both have ended so. *)
Definition in_order (ma mb : Msg) (self shared : Labeler) (pa pb : pc) : Prop :=
  (pa = AtAcquire /\ pb = AtAcquire /\ shared = self)
  \/ (in_pass pa = true /\ pb = AtAcquire /\ locked shared = true /\
      finish ma shared pa = sensorDataReceivedCallback ma self)
  \/ (exists oa, pa = Finished oa /\ pb = AtAcquire /\
                 (oa, shared) = sensorDataReceivedCallback ma self)
  \/ (exists oa sa, pa = Finished oa /\ in_pass pb = true /\ locked shared = true /\
                    (oa, sa) = sensorDataReceivedCallback ma self /\
                    finish mb shared pb = sensorDataReceivedCallback mb sa)
  \/ (exists oa sa ob, pa = Finished oa /\ pb = Finished ob /\
                       (oa, sa) = sensorDataReceivedCallback ma self /\
                       (ob, shared) = sensorDataReceivedCallback mb sa).

(** ** Example inputs *)

(** A lidar2d labeler as [__init__] leaves it. *)
Definition lidar2d_labeler : Labeler :=
  mkLabeler "sensor" "base_link" "/sensor/data" "lidar2d" true (mkLabels false [] None) false
    None (Some (mkPosition 0 0 0)) None None None.

(** A laser scan: its ranges and the coordinates of its points. *)
Definition scan (rs xs ys : list float) : Msg :=
  mkMsg rs (xs, ys) (mkDetection false [] None) (fun _ _ => true)
    (fun p _ => (mkLabels false [] None, p)) [] (fun s => (mkLabels false [] None, s)).

(** A depth labeler for a 100x100 image as [__init__] leaves it. *)
Definition depth_labeler : Labeler :=
  mkLabeler "sensor" "base_link" "/sensor/data" "depth" true (mkLabels false [] None)
    false None (Some (mkPosition 0.804 0.298 0.409)) None (Some (100, 100))
    (Some (mkSeed 50 50)).

(** A depth image on which the region tracker returns the candidate seed
    [(x, y)]. *)
Definition depth_frame (x y : float) : Msg :=
  mkMsg [] ([], []) (mkDetection false [] None) (fun _ _ => true)
    (fun p _ => (mkLabels false [] None, p)) []
    (fun _ => (mkLabels true [Idx 0] (Some []), mkSeed x y)).

(** A 9x6 chessboard with squares of 0.1 m. *)
Definition chessboard_9x6 : CalibPattern :=
  mkCalibPattern "chessboard" 9 6 0.1 None None.

(** The description of a sensor of the given modality. *)
Definition sensor (md : string) : SensorDict :=
  mkSensorDict "sensor" "base_link" "/sensor/data" md (Some (100, 100)).

(** ** The mouse click on the labelled depth image *)

(** [self.pyrdown].  [__init__] creates it where it creates [self.seed]
    (lines 219-220), with the value 1, and nothing assigns it again. *)
Definition pyrdown (self : Labeler) : option Z :=
  match seed self with
  | Some _ => Some 1
  | None => None
  end.

(** [v * pow(2, self.pyrdown)] for a float [v]: the int is converted to a
    float, then multiplied. *)
Definition scaled (v : float) : M float :=
  p <~ attr pyrdown ;;
  f <~ lift (float_of_int (2 ^ p)) ;;
  ret (v * f)%float.

(** [InteractiveDataLabeler.mouseClickReceivedCallback], lines 241-243, on
    the point [(x, y)] of the message.  It does not take the lock. *)
Definition mouseClickReceivedCallback (x y : float) : M unit :=
  vx <~ scaled x ;;
  s <~ attr seed ;;
  modify (fun self => set_seed self (mkSeed vx (seed_y s))) ;;;
  vy <~ scaled y ;;
  s' <~ attr seed ;;
  modify (fun self => set_seed self (mkSeed (seed_x s') vy)).

(** ** The shape of the clusters *)

(** The distance between any two points of a scan can be computed: no
    square of a coordinate difference overflows. *)
Definition distances_defined (xs ys : list float) : bool :=
  forallb (fun j =>
    forallb (fun i =>
      returns (distance (coord xs j) (coord ys j) (coord xs i) (coord ys i)))
      (indices xs))
    (indices xs).

(** The point at index [j] is farther than the point-to-point threshold
    from the point at index [i] (the test of line 303 holds). *)
Definition far (xs ys : list float) (i j : Z) : bool :=
  match distance (coord xs j) (coord ys j) (coord xs i) (coord ys i) with
  | Ok d => (threshold <? d)%float
  | Raise _ => false
  end.

(** The point at index [j] is not farther than the threshold from the point
    at index [i] (the test of line 303 fails). *)
Definition near (xs ys : list float) (i j : Z) : bool :=
  match distance (coord xs j) (coord ys j) (coord xs i) (coord ys i) with
  | Ok d => negb (threshold <? d)%float
  | Raise _ => false
  end.

(** Every index of a cluster is near the index before it in the cluster. *)
Definition chained (xs ys : list float) (c : LaserScanCluster) : Prop :=
  forall l1 i j l2, idxs c = l1 ++ i :: j :: l2 -> near xs ys i j = true.

(** The first index of every cluster but the first is far from the last
    index of the cluster before it. *)
Definition separated (xs ys : list float) (cs : list LaserScanCluster) : Prop :=
  forall a c c' b l i j l',
    cs = a ++ c :: c' :: b -> idxs c = l ++ [i] -> idxs c' = j :: l' ->
    far xs ys i j = true.

(** A frame has a point that the clusterer keeps. *)
Definition has_valid_point (m : Msg) : bool :=
  existsb (valid_point (ranges m)) (enumerate (ranges m)).

(** What the clustering loop maintains on the shape of its clusters: the
    clusters are numbered by their position, [cluster_counter] is the
    number of the last one, and clusters break exactly where a kept point
    is far from the kept point before it. *)
Definition scan_shape (xs ys : list float) (st : scan_state) : Prop :=
  map cluster_count (clusters st) = indices (clusters st) /\
  cluster_counter st = Z.max 0 (len (clusters st) - 1) /\
  Forall (chained xs ys) (clusters st) /\
  separated xs ys (clusters st).

(** ** Statements about the cameras and the 3D lidar *)

(** A float is finite: neither NaN nor an infinity. *)
Definition is_finite (x : float) : bool :=
  match Prim2SF x with
  | S754_zero _ | S754_finite _ _ _ => true
  | S754_infinity _ | S754_nan => false
  end.

(** The keypoint dict of line 399 for the corner at position [fst ic]. *)
Definition charuco_keypoint (ids : list Z) (ic : Z * (float * float)) : label_item :=
  Keypoint (fst (snd ic)) (snd (snd ic)) (Some (nth (Z.to_nat (fst ic)) ids 0)).

(** The keypoint dict of line 402. *)
Definition chessboard_keypoint (corner : float * float) : label_item :=
  Keypoint (fst corner) (snd corner) None.

(** An index names a point of the cloud: a row, counted from either end,
    with its three coordinates. *)
Definition cloud_row (point_cloud : list (list float)) (i : Z) : bool :=
  match getitem point_cloud i with
  | Ok row => 3 <=? len row
  | Raise _ => false
  end.

(** The labels are ones the labeler can draw on the cloud: the labelled
    entries and the limit points are there, and all of them are indices of
    points of the cloud. *)
Definition drawable (point_cloud : list (list float)) (l : Labels) : bool :=
  forallb (fun e => match e with
                    | Idx i => cloud_row point_cloud i
                    | Keypoint _ _ _ => false
                    end) (labels_idxs l) &&
  match idxs_limit_points l with
  | Some limit => forallb (cloud_row point_cloud) limit
  | None => false
  end.

(** The labeler can draw the labels of a cloud frame, whatever the marker
    the labeling starts from: with the tracker threshold [t], the labels
    that the point-cloud labeling returns are drawable on the cloud. *)
Definition drawable_frame (t : float) (m : Msg) : Prop :=
  forall p, drawable (numpyFromPointCloudMsg m) (fst (labelPointCloud2Msg m p t)) = true.

(** ** More example inputs *)

(** A 3D lidar labeler as [__init__] leaves it for the 9x6 chessboard. *)
Definition lidar3d_labeler : Labeler :=
  mkLabeler "sensor" "base_link" "/sensor/data" "lidar3d" true (mkLabels false [] None)
    false None (Some (mkPosition 0.804 0.298 0.409))
    (Some 0.7547184905645284%float) None None.

(** A cloud of three points on which the tracker labels the last point,
    with the second as limit point, and finds the pattern one metre further
    along x than the marker. *)
Definition cloud_frame : Msg :=
  mkMsg [] ([], []) (mkDetection false [] None) (fun _ _ => true)
    (fun p _ => (mkLabels true [Idx 2] (Some [1]),
                 mkPosition (pos_x p + 1) (pos_y p) (pos_z p)))
    [[0; 0; 0]; [1; 0; 0]; [1; 1; 0]]%float
    (fun s => (mkLabels false [] None, s)).

(** A camera labeler as [__init__] leaves it. *)
Definition rgb_labeler : Labeler :=
  mkLabeler "sensor" "base_link" "/sensor/data" "rgb" true (mkLabels false [] None)
    false None None None None None.

(** An image on which the pattern detector returns [d], and on which
    [cv2.line] marks any pixel whose coordinates fit a C int. *)
Definition image (d : Detection) : Msg :=
  mkMsg [] ([], []) d
    (fun x y => (Z.abs x <? 2 ^ 31) && (Z.abs y <? 2 ^ 31))
    (fun p _ => (mkLabels false [] None, p)) []
    (fun s => (mkLabels false [] None, s)).

(** A cloud on which the tracker labels the last point and returns no limit
    points. *)
Definition cloud_frame_without_limit_points : Msg :=
  mkMsg [] ([], []) (mkDetection false [] None) (fun _ _ => true)
    (fun p _ => (mkLabels true [Idx 2] None,
                 mkPosition (pos_x p + 1) (pos_y p) (pos_z p)))
    [[0; 0; 0]; [1; 0; 0]; [1; 1; 0]]%float
    (fun s => (mkLabels false [] None, s)).
(** * Facts about binary64 numbers *)

(** ** Comparisons *)

(** The comparisons of two specification floats, by cases on their kinds
    and, for finite ones, on their exponents and mantissas. *)
Ltac sf_compare :=
  repeat match goal with
  | |- context [Z.compare ?a ?b] => destruct (Z.compare_spec a b); subst
  | H : context [Z.compare ?a ?b] |- _ => destruct (Z.compare_spec a b); subst
  | |- context [Pos.compare_cont Eq ?a ?b] =>
      change (Pos.compare_cont Eq a b) with (Pos.compare a b);
      destruct (Pos.compare_spec a b); subst
  | H : context [Pos.compare_cont Eq ?a ?b] |- _ =>
      change (Pos.compare_cont Eq a b) with (Pos.compare a b) in H;
      destruct (Pos.compare_spec a b); subst
  end.

Ltac sf_cases :=
  repeat match goal with
  | x : spec_float |- _ => destruct x as [[]|[]| |[] ? ?]
  end;
  cbn in *; try congruence; sf_compare; cbn in *; try congruence; try lia.

Lemma SFleb_not_ltb x y : SFleb x y = true -> SFltb y x = false.
Proof. unfold SFleb, SFltb, SFcompare. sf_cases. Qed.

(** What is not above a float is not strictly above it. *)
Lemma leb_not_ltb (x y : float) : (x <=? y)%float = true -> (y <? x)%float = false.
Proof. rewrite leb_spec, ltb_spec. apply SFleb_not_ltb. Qed.

(** ** Multiplication *)

Lemma SFmul_comm x y : SF64mul x y = SF64mul y x.
Proof.
  unfold SF64mul, SFmul.
  destruct x as [sx|sx| |sx mx ex], y as [sy|sy| |sy my ey];
    try reflexivity; try (rewrite xorb_comm; reflexivity).
  rewrite xorb_comm, Pos.mul_comm, Z.add_comm. reflexivity.
Qed.

Lemma mul_comm (x y : float) : (x * y)%float = (y * x)%float.
Proof. apply Prim2SF_inj. rewrite !mul_spec. apply SFmul_comm. Qed.

(** * Facts about Python lists *)

Lemma len_nonneg {A : Type} (l : list A) : 0 <= len l.
Proof. unfold len. lia. Qed.

Lemma len_app {A : Type} (l l' : list A) : len (l ++ l') = len l + len l'.
Proof. unfold len. rewrite length_app. lia. Qed.

Lemma len_cons {A : Type} (a : A) (l : list A) : len (a :: l) = 1 + len l.
Proof. unfold len. simpl List.length. lia. Qed.

(** An index inside the list reads the element at that position. *)
Lemma getitem_nth {A : Type} (d : A) (l : list A) (i : Z) :
  0 <= i < len l -> getitem l i = Ok (nth (Z.to_nat i) l d).
Proof.
  intros H. unfold getitem.
  destruct (i <? 0) eqn:E; [apply Z.ltb_lt in E; lia|]. rewrite E.
  destruct (nth_error l (Z.to_nat i)) eqn:N.
  - rewrite (nth_error_nth _ _ d N). reflexivity.
  - apply nth_error_None in N. unfold len in H. lia.
Qed.

(** Index [-1] reads the last element. *)
Lemma getitem_last {A : Type} (l : list A) (a : A) : getitem (l ++ [a]) (-1) = Ok a.
Proof.
  unfold getitem. change (-1 <? 0) with true. cbv iota.
  rewrite len_app. change (len [a]) with 1. pose proof (len_nonneg l) as H.
  destruct (len l + 1 + -1 <? 0) eqn:E; [apply Z.ltb_lt in E; lia|].
  replace (Z.to_nat (len l + 1 + -1)) with (List.length l) by (unfold len; lia).
  rewrite nth_error_app2, Nat.sub_diag by lia. reflexivity.
Qed.

(** Reading a list raises nothing but IndexError. *)
Lemma getitem_raises {A : Type} (l : list A) (i : Z) (e : exn) :
  getitem l i = Raise e -> e = IndexError.
Proof.
  unfold getitem. destruct (_ <? 0); [congruence|].
  destruct (nth_error _ _); congruence.
Qed.

(** A non-empty list ends with some element. *)
Lemma snoc_cases {A : Type} (l : list A) : l = [] \/ exists l' a, l = l' ++ [a].
Proof.
  destruct l as [|a l]; [left; reflexivity|right].
  destruct (exists_last (l := a :: l)) as (l' & b & E); [discriminate|eauto].
Qed.

(** [enumerate] pairs each element with its position. *)
Lemma in_enumerate_from {A : Type} (l : list A) : forall i j a,
  In (j, a) (enumerate_from i l) <->
  i <= j < i + len l /\ nth_error l (Z.to_nat (j - i)) = Some a.
Proof.
  induction l as [|b l IH]; intros i j a; simpl.
  - unfold len. simpl. split; [tauto|lia].
  - rewrite IH, len_cons. pose proof (len_nonneg l). split.
    + intros [E|[H1 H2]].
      * inversion E; subst. split; [lia|]. rewrite Z.sub_diag. reflexivity.
      * split; [lia|]. replace (Z.to_nat (j - i)) with (S (Z.to_nat (j - (i + 1)))) by lia.
        exact H2.
    + intros [H1 H2]. destruct (Z.eq_dec i j) as [->|N].
      * left. rewrite Z.sub_diag in H2. simpl in H2. congruence.
      * right. split; [lia|].
        replace (Z.to_nat (j - i)) with (S (Z.to_nat (j - (i + 1)))) in H2 by lia.
        exact H2.
Qed.


(** * The clustering stage *)

Lemma flatten_app cs cs' : flatten (cs ++ cs') = flatten cs ++ flatten cs'.
Proof. unfold flatten. rewrite map_app, concat_app. reflexivity. Qed.

Lemma flatten_single c : flatten [c] = idxs c.
Proof. unfold flatten. simpl. apply app_nil_r. Qed.

Lemma scan_wf_weaken b b' st : b <= b' -> scan_wf b st -> scan_wf b' st.
Proof.
  intros Hb [H1 H2]. split; [|exact H2].
  eapply Forall_impl; [|exact H1]. intros c [Hn Hi]. split; [exact Hn|].
  eapply Forall_impl; [|exact Hi]. simpl. intros. lia.
Qed.

(** The reading before index [k] can be read, also for [k = 0]. *)
Lemma getitem_prev (ranges : list float) (k : Z) :
  0 <= k < len ranges -> exists prev, getitem ranges (k - 1) = Ok prev.
Proof.
  intros H. destruct (Z.eq_dec k 0) as [->|N].
  - destruct (snoc_cases ranges) as [->|(l & a & ->)].
    + unfold len in H. simpl in H. lia.
    + exists a. apply getitem_last.
  - exists (nth (Z.to_nat (k - 1)) ranges 0%float). apply getitem_nth. lia.
Qed.

Lemma in_indices {A : Type} (l : list A) (i : Z) : In i (indices l) <-> 0 <= i < len l.
Proof.
  unfold indices, enumerate. rewrite in_map_iff. split.
  - intros ([j a] & <- & H). apply in_enumerate_from in H. simpl. lia.
  - intros H. destruct (nth_error l (Z.to_nat i)) as [a|] eqn:E.
    + exists (i, a). split; [reflexivity|]. apply in_enumerate_from.
      split; [lia|]. rewrite Z.sub_0_r. exact E.
    + apply nth_error_None in E. unfold len in H. lia.
Qed.

(** When the distances of a scan are defined, so is the one between the
    points at any two indices. *)
Lemma distances_defined_spec xs ys i j :
  distances_defined xs ys = true -> 0 <= i < len xs -> 0 <= j < len xs ->
  exists d, distance (coord xs j) (coord ys j) (coord xs i) (coord ys i) = Ok d.
Proof.
  intros H Hi Hj. unfold distances_defined in H.
  rewrite forallb_forall in H. specialize (H j (proj2 (in_indices xs j) Hj)).
  rewrite forallb_forall in H. specialize (H i (proj2 (in_indices xs i) Hi)).
  destruct (distance _ _ _ _) as [d|e]; [exists d; reflexivity|discriminate].
Qed.

(** What a new cluster at index [k] does to the invariant and to the
    indices of the clusters. *)
Lemma scan_wf_new k st n b :
  0 <= k -> scan_wf k st ->
  scan_wf (k + 1) (mkScan (clusters st ++ [newCluster n k]) b false) /\
  flatten (clusters st ++ [newCluster n k]) = flatten (clusters st) ++ [k].
Proof.
  intros Hk [Hall Hfirst]. split; [split|].
  - simpl. apply Forall_app. split.
    + eapply Forall_impl; [|exact Hall]. intros c [Hn Hi]. split; [exact Hn|].
      eapply Forall_impl; [|exact Hi]. simpl. intros. lia.
    + repeat constructor; simpl; try discriminate; lia.
  - simpl. split; [discriminate|]. intros E. destruct (clusters st); discriminate.
  - rewrite flatten_app, flatten_single. reflexivity.
Qed.

(** The three ways through the body of the clustering loop at index [k]:
    the point is skipped; or it is kept and opens the first cluster; or it
    is kept and its distance to the last index of the last cluster decides
    between a new cluster and that cluster. *)
Lemma cluster_step_cases ranges xs ys st k r :
  0 <= k < len ranges -> len ranges <= len xs -> len ranges <= len ys ->
  scan_wf k st ->
  (valid_point ranges (k, r) = false /\
   cluster_step ranges xs ys st (k, r) = Ok st)
  \/ (valid_point ranges (k, r) = true /\ clusters st = [] /\
      cluster_step ranges xs ys st (k, r) =
      Ok (mkScan (clusters st ++ [newCluster (cluster_counter st) k]) (cluster_counter st) false))
  \/ (valid_point ranges (k, r) = true /\
      exists cs c l i,
        clusters st = cs ++ [c] /\ idxs c = l ++ [i] /\ 0 <= i < k /\
        cluster_step ranges xs ys st (k, r) =
        (d <- distance (coord xs k) (coord ys k) (coord xs i) (coord ys i) ;;
         Ok (if (threshold <? d)%float
             then mkScan (clusters st ++ [newCluster (cluster_counter st + 1) k])
                         (cluster_counter st + 1) false
             else mkScan (cs ++ [pushIdx c k]) (cluster_counter st) false))).
Proof.
  intros Hk Hxs Hys [Hall Hfirst].
  unfold cluster_step, valid_point, below_minimum. simpl fst. simpl snd.
  destruct (r <? minimum_range_value)%float; [left; split; reflexivity|].
  destruct (getitem_prev ranges k Hk) as [prev ->]. simpl bind.
  destruct (prev <? minimum_range_value)%float; [left; split; reflexivity|].
  right. simpl negb. simpl andb.
  destruct (first_iteration st) eqn:Efirst.
  - left. split; [reflexivity|]. split; [apply Hfirst; reflexivity|reflexivity].
  - right. split; [reflexivity|].
    destruct (snoc_cases (clusters st)) as [E|(cs & c & E)].
    + apply Hfirst in E. congruence.
    + rewrite E in Hall. apply Forall_app in Hall. destruct Hall as [Hcs Hc].
      inversion Hc as [|? ? [Hne Hin] _]; subst.
      destruct (snoc_cases (idxs c)) as [E'|(l' & i & E')]; [contradiction|].
      assert (Hi : 0 <= i < k).
      { rewrite E' in Hin. apply Forall_app in Hin. destruct Hin as [_ Hin].
        inversion Hin; subst. assumption. }
      exists cs, c, l', i. split; [exact E|]. split; [exact E'|]. split; [exact Hi|].
      rewrite E, !getitem_last. simpl bind. rewrite E', !getitem_last. simpl bind.
      rewrite (getitem_nth 0%float xs i) by lia. simpl bind.
      rewrite (getitem_nth 0%float ys i) by lia. simpl bind.
      rewrite (getitem_nth 0%float xs k) by lia. simpl bind.
      rewrite (getitem_nth 0%float ys k) by lia.
      unfold distance, coord.
      destruct (pow2 (nth (Z.to_nat k) xs 0 - nth (Z.to_nat i) xs 0)%float);
        simpl bind; [|reflexivity].
      destruct (pow2 (nth (Z.to_nat k) ys 0 - nth (Z.to_nat i) ys 0)%float);
        simpl bind; [|reflexivity].
      destruct (math_sqrt _) as [d|e]; simpl bind; [|reflexivity].
      destruct (threshold <? d)%float; [reflexivity|].
      unfold push_last. rewrite getitem_last, removelast_last. reflexivity.
Qed.

(** One pass through the body of the clustering loop that does not raise
    adds the index to the clusters exactly when the point is valid. *)
Lemma cluster_step_wf ranges xs ys st k r st' :
  0 <= k < len ranges -> len ranges <= len xs -> len ranges <= len ys ->
  scan_wf k st ->
  cluster_step ranges xs ys st (k, r) = Ok st' ->
  scan_wf (k + 1) st' /\
  flatten (clusters st') =
  flatten (clusters st) ++ (if valid_point ranges (k, r) then [k] else []).
Proof.
  intros Hk Hxs Hys Hwf.
  destruct (cluster_step_cases ranges xs ys st k r Hk Hxs Hys Hwf)
    as [(-> & ->) | [(-> & _ & ->) | (-> & cs & c & l & i & E & E' & Hi & ->)]].
  - intros H. injection H as <-. split.
    + apply (scan_wf_weaken k); [lia|exact Hwf].
    + symmetry. apply app_nil_r.
  - intros H. injection H as <-. apply scan_wf_new; [lia|exact Hwf].
  - destruct (distance _ _ _ _) as [d|e]; simpl bind; [|discriminate].
    intros H. injection H as <-.
    destruct (threshold <? d)%float; [apply scan_wf_new; [lia|exact Hwf]|].
    destruct Hwf as [Hall Hfirst].
    rewrite E in Hall. apply Forall_app in Hall. destruct Hall as [Hcs Hc].
    inversion Hc as [|? ? [Hne Hin] _]; subst.
    split; [split|].
    + simpl. apply Forall_app. split.
      * eapply Forall_impl; [|exact Hcs]. intros c' [Hn' Hi']. split; [exact Hn'|].
        eapply Forall_impl; [|exact Hi']. simpl. intros. lia.
      * constructor; [|constructor]. simpl. split.
        -- destruct (idxs c); discriminate.
        -- apply Forall_app. split.
           ++ eapply Forall_impl; [|exact Hin]. simpl. intros. lia.
           ++ repeat constructor; lia.
    + simpl. split; [discriminate|]. intros E2. destruct cs; discriminate.
    + simpl. rewrite E, !flatten_app, !flatten_single. simpl.
      rewrite app_assoc. reflexivity.
Qed.

(** When the distances of the scan are defined, one pass through the body
    of the clustering loop does not raise. *)
Lemma cluster_step_returns ranges xs ys st k r :
  0 <= k < len ranges -> len ranges <= len xs -> len ranges <= len ys ->
  distances_defined xs ys = true ->
  scan_wf k st ->
  exists st', cluster_step ranges xs ys st (k, r) = Ok st'.
Proof.
  intros Hk Hxs Hys Hd Hwf.
  destruct (cluster_step_cases ranges xs ys st k r Hk Hxs Hys Hwf)
    as [(_ & ->) | [(_ & _ & ->) | (_ & cs & c & l & i & E & E' & Hi & ->)]];
    [eexists; reflexivity | eexists; reflexivity |].
  destruct (distances_defined_spec xs ys i k Hd) as [d ->]; [lia|lia|].
  eexists. reflexivity.
Qed.

(** The clustering loop from index [k] on, when it does not raise. *)
Lemma cluster_loop_wf ranges xs ys :
  len ranges <= len xs -> len ranges <= len ys ->
  forall l k st st',
    0 <= k -> k + len l <= len ranges -> scan_wf k st ->
    for_each (cluster_step ranges xs ys) (enumerate_from k l) st = Ok st' ->
    scan_wf (k + len l) st' /\
    flatten (clusters st') =
    flatten (clusters st) ++ map fst (filter (valid_point ranges) (enumerate_from k l)).
Proof.
  intros Hxs Hys. induction l as [|r l IH]; intros k st st' Hk Hl Hwf.
  - simpl. intros H. injection H as <-. rewrite app_nil_r. split; [|reflexivity].
    apply (scan_wf_weaken k); [unfold len; simpl; lia|exact Hwf].
  - rewrite len_cons in Hl. pose proof (len_nonneg l) as Hl0.
    cbn [for_each enumerate_from filter].
    destruct (cluster_step ranges xs ys st (k, r)) as [st1|e] eqn:E1;
      simpl bind; [|discriminate].
    destruct (cluster_step_wf ranges xs ys st k r st1) as (W1 & F1); try lia; auto.
    intros E2.
    destruct (IH (k + 1) st1 st') as (W2 & F2); try lia; auto.
    split.
    + rewrite len_cons. replace (k + (1 + len l)) with (k + 1 + len l) by lia. exact W2.
    + rewrite F2, F1, <- app_assoc. f_equal.
      destruct (valid_point ranges (k, r)); reflexivity.
Qed.

(** The clustering loop from index [k] on does not raise when the distances
    of the scan are defined. *)
Lemma cluster_loop_returns ranges xs ys :
  len ranges <= len xs -> len ranges <= len ys ->
  distances_defined xs ys = true ->
  forall l k st,
    0 <= k -> k + len l <= len ranges -> scan_wf k st ->
    exists st', for_each (cluster_step ranges xs ys) (enumerate_from k l) st = Ok st'.
Proof.
  intros Hxs Hys Hd. induction l as [|r l IH]; intros k st Hk Hl Hwf.
  - exists st. reflexivity.
  - rewrite len_cons in Hl. pose proof (len_nonneg l) as Hl0.
    destruct (cluster_step_returns ranges xs ys st k r) as (st1 & E1); try lia; auto.
    destruct (cluster_step_wf ranges xs ys st k r st1) as (W1 & _); try lia; auto.
    destruct (IH (k + 1) st1) as (st2 & E2); try lia; auto.
    exists st2. cbn [for_each enumerate_from]. rewrite E1. exact E2.
Qed.

Lemma scan_wf_init : scan_wf 0 (mkScan [] 0 true).
Proof. split; [constructor|]. simpl. tauto. Qed.

(** The indices of the clusters are the indices of the valid points, in
    input order. *)
Lemma clustering_wf ranges xs ys cs :
  len ranges <= len xs -> len ranges <= len ys ->
  clustering ranges xs ys = Ok cs ->
  Forall (fun c => idxs c <> [] /\ Forall (fun i => 0 <= i < len ranges) (idxs c)) cs /\
  flatten cs = map fst (filter (valid_point ranges) (enumerate ranges)).
Proof.
  intros Hxs Hys. unfold clustering, enumerate.
  destruct (for_each _ _ _) as [st|e] eqn:E; simpl bind; [|discriminate].
  intros H. injection H as <-.
  destruct (cluster_loop_wf ranges xs ys Hxs Hys ranges 0 (mkScan [] 0 true) st)
    as ([W _] & F); try lia; auto using scan_wf_init.
Qed.

(** The clustering stage does not raise when the distances of the scan are
    defined. *)
Lemma clustering_returns ranges xs ys :
  len ranges <= len xs -> len ranges <= len ys ->
  distances_defined xs ys = true ->
  exists cs, clustering ranges xs ys = Ok cs.
Proof.
  intros Hxs Hys Hd.
  destruct (cluster_loop_returns ranges xs ys Hxs Hys Hd ranges 0 (mkScan [] 0 true))
    as (st & E); try lia; auto using scan_wf_init.
  exists (clusters st). unfold clustering, enumerate. rewrite E. reflexivity.
Qed.

(** An index is in a cluster exactly when its point is valid. *)
Lemma in_flatten_clustering ranges xs ys cs i :
  len ranges <= len xs -> len ranges <= len ys ->
  clustering ranges xs ys = Ok cs ->
  In i (flatten cs) <->
  0 <= i < len ranges /\ valid_point ranges (i, coord ranges i) = true.
Proof.
  intros Hxs Hys E.
  destruct (clustering_wf ranges xs ys cs Hxs Hys E) as (_ & F).
  rewrite F, in_map_iff. split.
  - intros ([j r] & <- & H). apply filter_In in H. destruct H as [H V].
    unfold enumerate in H. apply in_enumerate_from in H.
    destruct H as [Hj N]. rewrite Z.sub_0_r in N. simpl fst.
    unfold coord. rewrite (nth_error_nth _ _ _ N). split; [lia|exact V].
  - intros [Hi V]. exists (i, coord ranges i). split; [reflexivity|].
    apply filter_In. split; [|exact V].
    unfold enumerate. apply in_enumerate_from. split; [lia|].
    rewrite Z.sub_0_r. unfold coord. apply nth_error_nth'. unfold len in Hi. lia.
Qed.

(** The skip rule at index [0] reads the last reading of the array. *)
Lemma valid_point_first ranges :
  ranges <> [] ->
  valid_point ranges (0, coord ranges 0) =
  negb (below_minimum (coord ranges 0)) && negb (below_minimum (last ranges 0%float)).
Proof.
  intros H. destruct (snoc_cases ranges) as [E|(l & a & E)]; [contradiction|].
  subst ranges. unfold valid_point. simpl fst. simpl snd. change (0 - 1) with (-1).
  rewrite getitem_last, last_last. reflexivity.
Qed.

(** The skip rule at a later index reads the reading just before it. *)
Lemma valid_point_later ranges i :
  0 < i < len ranges ->
  valid_point ranges (i, coord ranges i) =
  negb (below_minimum (coord ranges i)) && negb (below_minimum (coord ranges (i - 1))).
Proof.
  intros H. unfold valid_point. simpl fst. simpl snd.
  rewrite (getitem_nth 0%float) by lia. reflexivity.
Qed.

(** C10. The validity check at index 0 reads the range at index -1, the
    last element of the range array.  On a scan whose point distances can
    be computed (no square of a coordinate difference overflows) the
    clustering returns, and the first scan point is in a cluster exactly
    when neither its own range nor the final range reading is below the
    minimum-valid-range threshold, while every other index is in a cluster
    exactly when neither its range nor the range just before it is below
    the threshold. *)
Theorem first_point_skip_rule_wraps_around ranges xs ys :
  ranges <> [] -> len ranges <= len xs -> len ranges <= len ys ->
  distances_defined xs ys = true ->
  exists cs,
    clustering ranges xs ys = Ok cs /\
    (In 0 (flatten cs) <->
     below_minimum (coord ranges 0) = false /\
     below_minimum (last ranges 0%float) = false) /\
    (forall i, 0 < i < len ranges ->
       (In i (flatten cs) <->
        below_minimum (coord ranges i) = false /\
        below_minimum (coord ranges (i - 1)) = false)).
Proof.
  intros Hne Hxs Hys Hd.
  destruct (clustering_returns ranges xs ys Hxs Hys Hd) as (cs & E).
  exists cs. split; [exact E|].
  assert (Hlen : 0 < len ranges).
  { destruct ranges as [|r0 rs]; [contradiction|].
    rewrite len_cons. pose proof (len_nonneg rs). lia. }
  split.
  - rewrite (in_flatten_clustering ranges xs ys cs 0 Hxs Hys E).
    rewrite (valid_point_first ranges Hne), andb_true_iff, !negb_true_iff.
    split; [tauto|]. intros H. split; [lia|exact H].
  - intros i Hi.
    rewrite (in_flatten_clustering ranges xs ys cs i Hxs Hys E).
    rewrite (valid_point_later ranges i Hi), andb_true_iff, !negb_true_iff.
    split; [tauto|]. intros H. split; [lia|exact H].
Qed.

(** As long as no point is valid the clustering loop changes nothing. *)
Lemma cluster_loop_no_valid_point ranges xs ys : forall l k st,
  0 <= k -> k + len l <= len ranges ->
  (forall ir, In ir (enumerate_from k l) -> valid_point ranges ir = false) ->
  for_each (cluster_step ranges xs ys) (enumerate_from k l) st = Ok st.
Proof.
  induction l as [|r l IH]; intros k st Hk Hl Hv; [reflexivity|].
  rewrite len_cons in Hl. pose proof (len_nonneg l) as Hl0.
  cbn [for_each enumerate_from].
  assert (E : cluster_step ranges xs ys st (k, r) = Ok st).
  { pose proof (Hv (k, r) (or_introl eq_refl)) as V.
    unfold valid_point, below_minimum in V. simpl fst in V. simpl snd in V.
    unfold cluster_step.
    destruct (r <? minimum_range_value)%float; [reflexivity|].
    destruct (getitem_prev ranges k) as [prev P]; [lia|]. rewrite P in *. simpl bind.
    destruct (prev <? minimum_range_value)%float; [reflexivity|discriminate]. }
  rewrite E. simpl bind. apply IH; try lia.
  intros ir H. apply Hv. right. exact H.
Qed.

Lemma clustering_no_valid_point ranges xs ys :
  (forall ir, In ir (enumerate ranges) -> valid_point ranges ir = false) ->
  clustering ranges xs ys = Ok [].
Proof.
  intros Hv. unfold clustering, enumerate.
  rewrite cluster_loop_no_valid_point; [reflexivity|lia|lia|exact Hv].
Qed.

(** The clustering loop from index [k >= 1] on, when every reading is valid
    and every point is within the threshold of the point before it: the one
    cluster grows by every index. *)
Lemma cluster_loop_single ranges xs ys :
  len ranges <= len xs -> len ranges <= len ys ->
  (forall r, In r ranges -> below_minimum r = false) ->
  (forall i, 0 <= i -> i + 1 < len ranges -> within_threshold xs ys i = true) ->
  forall l k done,
    1 <= k -> k + len l <= len ranges -> Forall (fun r => below_minimum r = false) l ->
    for_each (cluster_step ranges xs ys) (enumerate_from k l)
             (mkScan [mkCluster 0 (done ++ [k - 1])] 0 false)
    = Ok (mkScan [mkCluster 0 (done ++ [k - 1] ++ map fst (enumerate_from k l))] 0 false).
Proof.
  intros Hxs Hys Hvalid Hnear.
  induction l as [|r l IH]; intros k done Hk Hl Hrs.
  - simpl. reflexivity.
  - rewrite len_cons in Hl. pose proof (len_nonneg l) as Hl0.
    inversion Hrs as [|? ? Hr Hrs']; subst.
    cbn [for_each enumerate_from map fst].
    assert (E : cluster_step ranges xs ys (mkScan [mkCluster 0 (done ++ [k - 1])] 0 false) (k, r)
                = Ok (mkScan [mkCluster 0 ((done ++ [k - 1]) ++ [k])] 0 false)).
    { unfold cluster_step. unfold below_minimum in Hr. rewrite Hr.
      rewrite (getitem_nth 0%float ranges (k - 1)) by lia. simpl bind.
      assert (Hp : below_minimum (nth (Z.to_nat (k - 1)) ranges 0%float) = false).
      { apply Hvalid. apply nth_In. unfold len in Hl. lia. }
      unfold below_minimum in Hp. rewrite Hp.
      cbn [first_iteration clusters cluster_counter].
      rewrite !getitem_last. simpl bind.
      rewrite (getitem_nth 0%float xs (k - 1)) by lia. simpl bind.
      rewrite (getitem_nth 0%float ys (k - 1)) by lia. simpl bind.
      rewrite (getitem_nth 0%float xs k) by lia. simpl bind.
      rewrite (getitem_nth 0%float ys k) by lia.
      pose proof (Hnear (k - 1) ltac:(lia) ltac:(lia)) as Hd.
      unfold within_threshold, distance, coord in Hd.
      replace (k - 1 + 1) with k in Hd by lia.
      destruct (pow2 (nth (Z.to_nat k) xs 0 - nth (Z.to_nat (k - 1)) xs 0)%float);
        simpl bind in *; [|discriminate].
      destruct (pow2 (nth (Z.to_nat k) ys 0 - nth (Z.to_nat (k - 1)) ys 0)%float);
        simpl bind in *; [|discriminate].
      destruct (math_sqrt _) as [d|e]; simpl bind; [|discriminate].
      rewrite (leb_not_ltb _ _ Hd).
      reflexivity. }
    rewrite E. simpl bind.
    pose proof (IH (k + 1) (done ++ [k - 1])) as IH'.
    replace (k + 1 - 1) with k in IH' by lia.
    rewrite IH'; try lia; [|exact Hrs'].
    rewrite <- !app_assoc. reflexivity.
Qed.

(** C3, as amended: for every non-empty range array in which no reading is
    below the minimum-valid-range threshold and every pair of consecutive
    Cartesian points lies within the point-to-point distance threshold
    (their distance, computed as the clusterer computes it, exists and is
    not above the threshold), the clusterer produces exactly one cluster,
    whose index list is the list of all indices of the array in input
    order. *)
Theorem clustering_single_cluster ranges xs ys :
  ranges <> [] ->
  len xs = len ranges -> len ys = len ranges ->
  (forall r, In r ranges -> below_minimum r = false) ->
  (forall i, 0 <= i -> i + 1 < len ranges -> within_threshold xs ys i = true) ->
  clustering ranges xs ys = Ok [mkCluster 0 (indices ranges)].
Proof.
  intros Hne Hxs Hys Hvalid Hnear.
  destruct ranges as [|r0 rs] eqn:Er; [contradiction|]. rewrite <- Er in *.
  assert (Hlast : exists l a, ranges = l ++ [a]).
  { destruct (snoc_cases ranges) as [E|E]; [congruence|exact E]. }
  destruct Hlast as (l & a & El).
  unfold clustering, indices, enumerate. rewrite Er at 2 3.
  cbn [for_each enumerate_from map fst].
  assert (E : cluster_step ranges xs ys (mkScan [] 0 true) (0, r0)
              = Ok (mkScan [mkCluster 0 ([] ++ [1 - 1])] 0 false)).
  { unfold cluster_step.
    assert (H0 : below_minimum r0 = false) by (apply Hvalid; rewrite Er; left; reflexivity).
    unfold below_minimum in H0. rewrite H0. change (0 - 1) with (-1).
    rewrite El at 1. rewrite getitem_last. simpl bind.
    assert (Ha : below_minimum a = false).
    { apply Hvalid. rewrite El. apply in_or_app. right. left. reflexivity. }
    unfold below_minimum in Ha. rewrite Ha. reflexivity. }
  rewrite E. cbn [bind]. change (0 + 1) with 1.
  rewrite (cluster_loop_single ranges xs ys); try lia; try assumption.
  - reflexivity.
  - rewrite Er, len_cons. lia.
  - apply Forall_forall. intros r Hr. apply Hvalid. rewrite Er. right. exact Hr.
Qed.

(** * The lidar2d labeling pass *)

(** The dispatch of a lidar2d labeler takes the lidar2d branch. *)
Lemma labelData_lidar2d_branch self :
  modality self = "lidar2d"%string ->
  labelData self = labelData_lidar2d
                     (set_labels self (mkLabels false [] (idxs_limit_points (labels self)))).
Proof.
  intros Hmd. unfold labelData, labelData_reset, labelData_dispatch.
  unfold mbind, set_detected, set_idxs, modify, gets. cbn.
  rewrite Hmd. reflexivity.
Qed.

(** When the clustering returns, the pass stops at [min_dist = sys.maxint]
    and leaves the labeler as it is. *)
Lemma labelData_lidar2d_maxint self m p cs :
  msg self = Some m -> marker self = Some p ->
  clustering (ranges m) (fst (laser_scan_msg_to_xy m)) (snd (laser_scan_msg_to_xy m)) = Ok cs ->
  labelData_lidar2d self = (Raise AttributeError, self).
Proof.
  intros Hm Hp Hc. unfold labelData_lidar2d, mbind, attr, lift.
  rewrite Hm. destruct (laser_scan_msg_to_xy m) as [xs ys]. simpl fst in Hc. simpl snd in Hc.
  rewrite Hc, Hp. reflexivity.
Qed.

(** The callback of a 2D lidar labeler on a frame whose clustering
    returns. *)
Lemma callback_lidar2d self m p cs :
  locked self = false -> label_data self = true ->
  modality self = "lidar2d"%string -> marker self = Some p ->
  clustering (ranges m) (fst (laser_scan_msg_to_xy m)) (snd (laser_scan_msg_to_xy m)) = Ok cs ->
  sensorDataReceivedCallback m self =
  (Raised AttributeError,
   set_labels (set_msg (set_locked self true) m)
              (mkLabels false [] (idxs_limit_points (labels self)))).
Proof.
  intros Hlock Hld Hmd Hp Hc. unfold sensorDataReceivedCallback.
  rewrite Hlock. cbn [label_data set_msg set_locked]. rewrite Hld.
  rewrite labelData_lidar2d_branch by exact Hmd.
  rewrite (labelData_lidar2d_maxint _ m p cs); try reflexivity; try exact Hp. exact Hc.
Qed.

(** C1 on the code: when no point of a lidar2d frame is valid, the frame
    callback does not return: it ends with AttributeError, raised by
    [min_dist = sys.maxint] after the clustering has found no cluster.  The
    labels are then the reset ones (nothing detected, no index) and the
    marker is where it was; the lock is still held. *)
Theorem no_valid_point_raises_AttributeError self m p :
  locked self = false -> label_data self = true ->
  modality self = "lidar2d"%string -> marker self = Some p ->
  (forall ir, In ir (enumerate (ranges m)) -> valid_point (ranges m) ir = false) ->
  sensorDataReceivedCallback m self =
  (Raised AttributeError,
   set_labels (set_msg (set_locked self true) m)
              (mkLabels false [] (idxs_limit_points (labels self)))).
Proof.
  intros Hlock Hld Hmd Hp Hv.
  apply (callback_lidar2d self m p []); try assumption.
  apply clustering_no_valid_point. exact Hv.
Qed.

(** A frame with a kept point has a cluster. *)
Lemma kept_point_cluster ranges xs ys cs :
  len ranges <= len xs -> len ranges <= len ys ->
  clustering ranges xs ys = Ok cs ->
  existsb (valid_point ranges) (enumerate ranges) = true ->
  exists c cs', cs = c :: cs'.
Proof.
  intros Hxs Hys E Hv.
  destruct (clustering_wf ranges xs ys cs Hxs Hys E) as (_ & F).
  destruct cs as [|c cs']; [|eauto].
  apply existsb_exists in Hv. destruct Hv as (ir & Hin & V).
  assert (In (fst ir) (map fst (filter (valid_point ranges) (enumerate ranges)))) as H.
  { apply in_map. apply filter_In. auto. }
  rewrite <- F in H. destruct H.
Qed.

(** C4 on the code: for every lidar2d frame that yields at least one
    cluster, the association stage selects no cluster at all.  The search
    for the nearest point starts with [min_dist = sys.maxint], which raises
    AttributeError (Python 3 has no [sys.maxint]) before any point is
    compared with the marker, and the pass ends there, the labeler
    unchanged. *)
Theorem association_stops_before_selecting_a_cluster self m p c cs :
  msg self = Some m -> marker self = Some p ->
  clustering (ranges m) (fst (laser_scan_msg_to_xy m)) (snd (laser_scan_msg_to_xy m))
  = Ok (c :: cs) ->
  labelData_lidar2d self = (Raise AttributeError, self).
Proof. intros Hm Hp Hc. exact (labelData_lidar2d_maxint self m p (c :: cs) Hm Hp Hc). Qed.

(** C5 on the code: a lidar2d frame with a kept point, whose point
    distances can be computed, yields clusters, yet the labels never get the
    index list of any of them and the marker is not moved to a centroid:
    the frame callback ends with AttributeError at [min_dist = sys.maxint],
    with the labels reset (nothing detected, no index), the marker where it
    was, and the lock still held. *)
Theorem lidar2d_frame_with_kept_point_is_not_labelled self m p :
  locked self = false -> label_data self = true ->
  modality self = "lidar2d"%string -> marker self = Some p ->
  len (ranges m) <= len (fst (laser_scan_msg_to_xy m)) ->
  len (ranges m) <= len (snd (laser_scan_msg_to_xy m)) ->
  distances_defined (fst (laser_scan_msg_to_xy m)) (snd (laser_scan_msg_to_xy m)) = true ->
  has_valid_point m = true ->
  exists c cs,
    clustering (ranges m) (fst (laser_scan_msg_to_xy m)) (snd (laser_scan_msg_to_xy m))
    = Ok (c :: cs) /\
    sensorDataReceivedCallback m self =
    (Raised AttributeError,
     set_labels (set_msg (set_locked self true) m)
                (mkLabels false [] (idxs_limit_points (labels self)))).
Proof.
  intros Hlock Hld Hmd Hp Hxs Hys Hd Hv.
  destruct (clustering_returns _ _ _ Hxs Hys Hd) as (cs0 & E).
  destruct (kept_point_cluster _ _ _ cs0 Hxs Hys E Hv) as (c & cs & ->).
  exists c, cs. split; [exact E|].
  apply (callback_lidar2d self m p (c :: cs)); assumption.
Qed.

(** * Determinism of the lidar2d pass *)


(** * The seed of the depth pass *)

Lemma labelData_depth_branch self :
  modality self = "depth"%string ->
  labelData self = labelData_depth
                     (set_labels self (mkLabels false [] (idxs_limit_points (labels self)))).
Proof.
  intros Hmd. unfold labelData, labelData_reset, labelData_dispatch.
  unfold mbind, set_detected, set_idxs, modify, gets. cbn.
  rewrite Hmd. reflexivity.
Qed.

(** The test of line 486 is [accepted] on the converted dimensions. *)
Lemma seed_in_bounds_accepted w h fw fh s :
  float_of_int w = Ok fw -> float_of_int h = Ok fh ->
  seed_in_bounds w h s = Ok (accepted fw fh s).
Proof.
  intros Hw Hh. unfold seed_in_bounds, accepted. rewrite Hw, Hh. cbn [bind].
  destruct (0 <? seed_x s)%float; [|reflexivity].
  destruct (seed_x s <? fw - filter_border_edges * fw)%float; [|reflexivity].
  destruct (0 <? seed_y s)%float; reflexivity.
Qed.

(** C2, as amended: for every depth frame, the candidate seed returned by
    the region tracker is accepted exactly when [0 < x < width -
    border_fraction * width] and [0 < y < height - border_fraction * height]
    (the border margin is applied on the right and at the bottom only);
    otherwise the seed resets to the image center [(round(width / 2),
    round(height / 2))]. *)
Theorem depth_seed_gate self m w h s fw fh cx cy :
  modality self = "depth"%string ->
  msg self = Some m -> fullResolution self = Some (w, h) -> seed self = Some s ->
  float_of_int w = Ok fw -> float_of_int h = Ok fh ->
  half_rounded w = Ok cx -> half_rounded h = Ok cy ->
  exists self',
    labelData self = (Ok tt, self') /\
    labels self' = fst (labelDepthMsg m s) /\
    seed self' = Some (if accepted fw fh (snd (labelDepthMsg m s))
                       then snd (labelDepthMsg m s)
                       else mkSeed cx cy).
Proof.
  intros Hmd Hm Hres Hs Hw Hh Hcx Hcy.
  rewrite (labelData_depth_branch self Hmd).
  unfold labelData_depth, mbind, attr, lift, modify.
  cbn [fullResolution msg seed set_labels set_seed]. rewrite Hres.
  cbn [fullResolution msg seed set_labels set_seed]. rewrite Hm.
  cbn [fullResolution msg seed set_labels set_seed]. rewrite Hs. cbn [fst snd].
  destruct (labelDepthMsg m s) as [l new]. cbn [fst snd seed set_labels set_seed].
  rewrite (seed_in_bounds_accepted w h fw fh new Hw Hh).
  destruct (accepted fw fh new).
  - cbn [seed set_seed seed_x seed_y labels set_labels]. rewrite Hs. cbn [seed set_seed seed_x seed_y labels set_labels].
    eexists. split; [reflexivity|]. split; [reflexivity|].
    destruct new; reflexivity.
  - rewrite Hcx, Hcy. eexists. split; [reflexivity|]. split; reflexivity.
Qed.


(** * Construction *)

(** The pattern check of [__init__] passes on a known pattern. *)
Lemma pattern_check cp :
  known_pattern cp = true ->
  (if String.eqb (pattern_type cp) "chessboard" then Ok tt
   else if String.eqb (pattern_type cp) "charuco" then
     _ <- key "inner_size" (inner_size cp) ;;
     _ <- key "dictionary" (dictionary cp) ;;
     Ok tt
   else Raise (SystemExit 1)) = Ok tt.
Proof.
  unfold known_pattern.
  destruct (String.eqb (pattern_type cp) "chessboard"); [reflexivity|].
  destruct (String.eqb (pattern_type cp) "charuco"); [|discriminate].
  destruct (inner_size cp), (dictionary cp); simpl; congruence.
Qed.

(** Conversions, squares and the root raise nothing but OverflowError and
    ValueError; two of them that raise the same way can change places. *)
Lemma float_of_int_raises z e : float_of_int z = Raise e -> e = OverflowError.
Proof. unfold float_of_int. destruct (is_infinity _); congruence. Qed.

Lemma pow2_raises x e : pow2 x = Raise e -> e = OverflowError.
Proof.
  unfold pow2.
  repeat match goal with
         | |- (if ?b then _ else _) = _ -> _ => destruct b
         | |- (let _ := _ in _) = _ -> _ => cbv zeta
         end; congruence.
Qed.

(** The threshold of lines 190-192 is 0.8 times the diagonal of the grid,
    and is there when the diagonal is. *)
Lemma tracker_threshold_of_diagonal calib_pattern :
  tracker_threshold_of calib_pattern =
  (d <- grid_diagonal (dimension_x calib_pattern) (dimension_y calib_pattern)
                      (size calib_pattern) ;;
   Ok (0.8 * d)%float).
Proof.
  unfold tracker_threshold_of, grid_diagonal.
  destruct (float_of_int (dimension_x calib_pattern - 1)) as [fx|e] eqn:Ex; cbn [bind];
    [|reflexivity].
  destruct (float_of_int (dimension_y calib_pattern - 1)) as [fy|e] eqn:Ey; cbn [bind].
  - destruct (pow2 (fx * size calib_pattern)); cbn [bind]; [|reflexivity].
    destruct (pow2 (fy * size calib_pattern)); cbn [bind]; [|reflexivity].
    destruct (math_sqrt _); cbn [bind]; [|reflexivity].
    f_equal. apply mul_comm.
  - apply float_of_int_raises in Ey. subst e.
    destruct (pow2 (fx * size calib_pattern)) as [a|e] eqn:Ea; cbn [bind]; [reflexivity|].
    apply pow2_raises in Ea. subst e. reflexivity.
Qed.

(** C7. For every calibration pattern with grid dimension (dx, dy) and
    square size s, a lidar3d labeler is constructed with the tracker
    distance threshold 0.8 * sqrt(((dx-1)*s)^2 + ((dy-1)*s)^2), 0.8 times
    the diagonal of the pattern's grid, computed from the pattern
    description alone, in binary64 arithmetic with the squares of
    [float.__pow__]; when the diagonal cannot be computed (an extent
    overflows when it is converted or squared), the construction fails with
    the error of that computation. *)
Theorem tracker_threshold_is_0_8_diagonal sensor_dict calib_pattern :
  sd_modality sensor_dict = "lidar3d"%string ->
  known_pattern calib_pattern = true ->
  (forall d,
     grid_diagonal (dimension_x calib_pattern) (dimension_y calib_pattern)
                   (size calib_pattern) = Ok d ->
     exists self,
       init sensor_dict calib_pattern true = Ok self /\
       tracker_threshold self = Some (0.8 * d)%float) /\
  (forall e,
     grid_diagonal (dimension_x calib_pattern) (dimension_y calib_pattern)
                   (size calib_pattern) = Raise e ->
     init sensor_dict calib_pattern true = Raise e).
Proof.
  intros Hmd Hpat. unfold init.
  rewrite (pattern_check calib_pattern Hpat). cbn [bind modality]. rewrite Hmd.
  cbn [String.eqb Ascii.eqb Bool.eqb andb].
  rewrite tracker_threshold_of_diagonal. split.
  - intros d ->. cbn [bind]. eexists. split; reflexivity.
  - intros e ->. reflexivity.
Qed.

(** * The unknown-modality error *)

Create HintDb benign_db.

Lemma benign_ok {A : Type} (a : A) : benign (Ok a).
Proof. discriminate. Qed.

Lemma benign_bind {A B : Type} (c : result A) (k : A -> result B) :
  benign c -> (forall a, benign (k a)) -> benign (bind c k).
Proof.
  unfold benign. intros Hc Hk. destruct c as [a|e]; simpl; [apply Hk|].
  intros E. apply Hc. congruence.
Qed.

Lemma benign_for_each {S A : Type} (body : S -> A -> result S) (l : list A) :
  (forall st a, benign (body st a)) -> forall st, benign (for_each body l st).
Proof.
  intros Hb. induction l as [|a l IH]; intros st; simpl.
  - apply benign_ok.
  - apply benign_bind; [apply Hb|exact IH].
Qed.

Lemma benign_getitem {A : Type} (l : list A) (i : Z) : benign (getitem l i).
Proof.
  unfold benign. destruct (getitem l i) eqn:E; [discriminate|].
  apply getitem_raises in E. subst. discriminate.
Qed.

Lemma benign_pow2 x : benign (pow2 x).
Proof.
  unfold pow2.
  repeat match goal with
         | |- benign (if ?b then _ else _) => destruct b
         | |- benign (let _ := _ in _) => cbv zeta
         end; discriminate.
Qed.

Lemma benign_math_sqrt x : benign (math_sqrt x).
Proof. unfold math_sqrt. cbv zeta. destruct (_ && _); discriminate. Qed.

Lemma benign_key {A : Type} (k : string) (o : option A) : benign (key k o).
Proof. destruct o; discriminate. Qed.

Lemma benign_int_of_float x : benign (int_of_float x).
Proof. unfold int_of_float. destruct (Prim2SF x); discriminate. Qed.

Lemma benign_round_half_even x : benign (round_half_even x).
Proof. unfold round_half_even. destruct (Prim2SF x); discriminate. Qed.

Lemma benign_float_of_int z : benign (float_of_int z).
Proof. unfold float_of_int. destruct (is_infinity _); discriminate. Qed.

Lemma benign_if {A : Type} (b : bool) (r r' : result A) :
  benign r -> benign r' -> benign (if b then r else r').
Proof. destruct b; auto. Qed.

#[local] Hint Resolve benign_ok benign_getitem benign_pow2 benign_math_sqrt benign_key
  benign_int_of_float benign_round_half_even benign_float_of_int : benign_db.

Ltac benign_tac :=
  repeat first
    [ solve [auto with benign_db]
    | solve [discriminate]
    | apply benign_for_each; intros
    | apply benign_bind; [|intros]
    | apply benign_if
    | match goal with
      | |- benign (let '(_, _) := ?p in _) => destruct p
      | |- benign (match ?o with Some _ => _ | None => _ end) => destruct o
      | |- benign (match ?i with Idx _ => _ | Keypoint _ _ _ => _ end) => destruct i
      end ].

Lemma benign_clustering ranges xs ys : benign (clustering ranges xs ys).
Proof. unfold clustering, cluster_step, push_last. benign_tac. Qed.

Lemma benign_cloud_loop point_cloud l points :
  benign (for_each (append_point point_cloud) l points).
Proof. unfold append_point, cloud_point. benign_tac. Qed.

Lemma benign_half_rounded w : benign (half_rounded w).
Proof. unfold half_rounded. benign_tac. Qed.

Lemma benign_seed_in_bounds w h s : benign (seed_in_bounds w h s).
Proof. unfold seed_in_bounds. benign_tac. Qed.

Lemma safe_ret {A : Type} (a : A) : safe (ret a).
Proof.
  intros self r self' E. inversion E; subst. repeat split. apply benign_ok.
Qed.

Lemma safe_lift {A : Type} (r : result A) : benign r -> safe (lift r).
Proof. intros Hr self r' self' E. inversion E; subst. repeat split. exact Hr. Qed.

Lemma safe_attr {A : Type} (field : Labeler -> option A) : safe (attr field).
Proof.
  intros self r self' E. unfold attr in E.
  destruct (field self); inversion E; subst; repeat split; discriminate.
Qed.

Lemma safe_gets {A : Type} (field : Labeler -> A) : safe (gets field).
Proof. intros self r self' E. inversion E; subst. repeat split. apply benign_ok. Qed.

Lemma safe_modify (f : Labeler -> Labeler) :
  (forall self, modality (f self) = modality self /\
                label_data (f self) = label_data self /\
                locked (f self) = locked self) ->
  safe (modify f).
Proof.
  intros Hf self r self' E. inversion E; subst.
  split; [apply Hf|apply benign_ok].
Qed.

Lemma safe_bind {A B : Type} (c : M A) (k : A -> M B) :
  safe c -> (forall a, safe (k a)) -> safe (mbind c k).
Proof.
  intros Hc Hk self r self' E. unfold mbind in E.
  destruct (c self) as [[a|e] self1] eqn:Ec.
  - destruct (Hc _ _ _ Ec) as ((M1 & L1 & K1) & _).
    destruct (Hk a _ _ _ E) as ((M2 & L2 & K2) & B2).
    repeat split; congruence.
  - inversion E; subst. destruct (Hc _ _ _ Ec) as (H1 & B1).
    split; [exact H1|]. intros X. apply B1. inversion X. reflexivity.
Qed.

Lemma safe_if {A : Type} (b : bool) (c c' : M A) :
  safe c -> safe c' -> safe (if b then c else c').
Proof. destruct b; auto. Qed.

Lemma safe_keeps {A : Type} (c : M A) : safe c -> keeps c.
Proof. intros H self r self' E. apply (H self r self' E). Qed.

Ltac safe_tac :=
  repeat first
    [ apply safe_ret
    | apply safe_attr
    | apply safe_gets
    | apply safe_modify; intros; repeat split; reflexivity
    | apply safe_bind; [|intros]
    | apply safe_if
    | match goal with
      | |- safe (let '(_, _) := ?p in _) => destruct p
      | |- safe (let _ := _ in _) => cbv zeta
      end
    | apply safe_lift ].

Lemma safe_reset : safe labelData_reset.
Proof. unfold labelData_reset, set_detected, set_idxs. safe_tac. Qed.

Lemma safe_lidar2d : safe labelData_lidar2d.
Proof.
  unfold labelData_lidar2d. safe_tac; first [ apply benign_clustering | discriminate ].
Qed.

Lemma safe_rgb : safe labelData_rgb.
Proof.
  unfold labelData_rgb, set_detected, set_idxs, keypoint_with_id.
  safe_tac; benign_tac.
Qed.

Lemma safe_lidar3d : safe labelData_lidar3d.
Proof.
  unfold labelData_lidar3d, set_marker_x, set_marker_y, set_marker_z.
  safe_tac; first [ apply benign_cloud_loop | apply benign_key ].
Qed.

Lemma safe_depth : safe labelData_depth.
Proof.
  unfold labelData_depth. safe_tac;
    first [ apply benign_seed_in_bounds | apply benign_half_rounded ].
Qed.

(** The dispatch of a labeler of a known modality. *)
Lemma dispatch_known self : forall r self',
  known_modality (modality self) = true ->
  labelData_dispatch self = (r, self') ->
  (modality self' = modality self /\ label_data self' = label_data self /\
   locked self' = locked self) /\ benign r.
Proof.
  intros r self' Hk. unfold labelData_dispatch, mbind, gets.
  unfold known_modality in Hk.
  destruct (String.eqb (modality self) "lidar2d"); [apply safe_lidar2d|].
  destruct (String.eqb (modality self) "rgb"); [apply safe_rgb|].
  destruct (String.eqb (modality self) "lidar3d"); [apply safe_lidar3d|].
  destruct (String.eqb (modality self) "depth"); [apply safe_depth|].
  discriminate Hk.
Qed.

(** The dispatch of any labeler. *)
Lemma keeps_dispatch : keeps labelData_dispatch.
Proof.
  intros self r self'. unfold labelData_dispatch, mbind, gets.
  destruct (String.eqb (modality self) "lidar2d"); [apply (safe_keeps _ safe_lidar2d)|].
  destruct (String.eqb (modality self) "rgb"); [apply (safe_keeps _ safe_rgb)|].
  destruct (String.eqb (modality self) "lidar3d"); [apply (safe_keeps _ safe_lidar3d)|].
  destruct (String.eqb (modality self) "depth"); [apply (safe_keeps _ safe_depth)|].
  intros E. inversion E; subst. repeat split.
Qed.

Lemma labelData_known self r self' :
  known_modality (modality self) = true ->
  labelData self = (r, self') ->
  modality self' = modality self /\ label_data self' = label_data self /\ benign r.
Proof.
  intros Hk E. unfold labelData, mbind in E.
  destruct (labelData_reset self) as [[[]|e] self1] eqn:Er.
  - destruct (safe_reset _ _ _ Er) as ((M1 & L1 & _) & _).
    rewrite <- M1 in Hk.
    destruct (dispatch_known self1 r self' Hk E) as ((M2 & L2 & _) & B2).
    repeat split; congruence.
  - inversion E; subst. destruct (safe_reset _ _ _ Er) as ((M1 & L1 & _) & B1).
    repeat split; auto.
Qed.

(** A labeler that labels only if its modality is known keeps doing so
    through a call of the callback, which does not end with the
    unknown-modality error. *)
Lemma callback_known m self :
  (label_data self = true -> known_modality (modality self) = true) ->
  modality (snd (sensorDataReceivedCallback m self)) = modality self /\
  label_data (snd (sensorDataReceivedCallback m self)) = label_data self /\
  fst (sensorDataReceivedCallback m self) <> Raised unknown_modality.
Proof.
  intros Hk. unfold sensorDataReceivedCallback.
  destruct (locked self); [cbn [fst snd]; repeat split; intros X; discriminate X|].
  cbn [label_data set_msg set_locked].
  destruct (label_data self) eqn:Hld;
    [|cbn [fst snd]; repeat split; try assumption; intros X; discriminate X].
  destruct (labelData _) as [[[]|e] self1] eqn:El;
    destruct (labelData_known (set_msg (set_locked self true) m) _ _ (Hk eq_refl) El)
      as (M1 & L1 & B1);
    cbn [fst snd modality label_data set_locked set_msg] in *.
  - repeat split; congruence.
  - repeat split; try congruence; intros X; apply B1; inversion X; reflexivity.
Qed.

Lemma deliver_known ms : forall self,
  (label_data self = true -> known_modality (modality self) = true) ->
  ~ In (Raised unknown_modality) (fst (deliver ms self)).
Proof.
  induction ms as [|m ms IH]; intros self Hk; [intros []|].
  cbn [deliver].
  destruct (callback_known m self Hk) as (M1 & L1 & B1).
  destruct (sensorDataReceivedCallback m self) as [o self1]. cbn [fst snd] in *.
  specialize (IH self1). destruct (deliver ms self1) as [os self2]. cbn [fst] in *.
  intros [E|H]; [congruence|]. apply IH; [|exact H].
  rewrite M1, L1. exact Hk.
Qed.

(** A labeler that [__init__] has built labels only if its modality is
    known. *)
Lemma init_known sensor_dict calib_pattern ld self :
  init sensor_dict calib_pattern ld = Ok self ->
  label_data self = true -> known_modality (modality self) = true.
Proof.
  unfold init, known_modality.
  destruct (if String.eqb (pattern_type calib_pattern) "chessboard" then _ else _);
    [|discriminate].
  cbn [bind modality].
  destruct (String.eqb (sd_modality sensor_dict) "lidar2d") eqn:E1,
           (String.eqb (sd_modality sensor_dict) "rgb") eqn:E2,
           (String.eqb (sd_modality sensor_dict) "lidar3d") eqn:E3,
           (String.eqb (sd_modality sensor_dict) "depth") eqn:E4,
           ld;
    cbn [andb];
    repeat match goal with
           | |- context [bind ?r _] => destruct r; cbn [bind]
           end;
    try discriminate;
    intros E; inversion E; subst;
    cbn [modality label_data set_marker];
    rewrite ?E1, ?E2, ?E3, ?E4; try discriminate; reflexivity.
Qed.

(** [__init__] with labeling enabled, on a modality that is not known. *)
Lemma init_unknown_modality sensor_dict calib_pattern :
  known_modality (sd_modality sensor_dict) = false ->
  exists e,
    init sensor_dict calib_pattern true = Raise e /\
    (known_pattern calib_pattern = true ->
     e = ValueError ("Message type " ++ sd_modality sensor_dict ++ " for topic "
                     ++ sd_topic sensor_dict ++ "is of an unknown type.")).
Proof.
  intros Hk. unfold known_modality in Hk.
  apply orb_false_elim in Hk. destruct Hk as [Hk E4].
  apply orb_false_elim in Hk. destruct Hk as [Hk E3].
  apply orb_false_elim in Hk. destruct Hk as [E2 E1].
  unfold init.
  destruct (known_pattern calib_pattern) eqn:Hp.
  - rewrite (pattern_check calib_pattern Hp). cbn [bind modality topic].
    rewrite E1, E2, E3, E4. cbn [andb]. eexists. split; [reflexivity|]. reflexivity.
  - destruct (if String.eqb (pattern_type calib_pattern) "chessboard" then _ else _) as [[]|e].
    + cbn [bind modality topic]. rewrite E1, E2, E3, E4. cbn [andb].
      eexists. split; [reflexivity|discriminate].
    + eexists. split; [reflexivity|discriminate].
Qed.

(** C8, as amended: for every sensor configuration whose modality is
    outside the four known kinds and whose labeling is enabled,
    constructing the labeler fails with an error (the ValueError of the
    modality check when the pattern description is a known one); with
    labeling disabled the construction succeeds.  After any successful
    construction, no delivery of a frame ends with the unknown-modality
    error. *)
Theorem unknown_modality_is_a_construction_error sensor_dict calib_pattern ld :
  (known_modality (sd_modality sensor_dict) = false ->
   (ld = true ->
    exists e,
      init sensor_dict calib_pattern ld = Raise e /\
      (known_pattern calib_pattern = true ->
       e = ValueError ("Message type " ++ sd_modality sensor_dict ++ " for topic "
                       ++ sd_topic sensor_dict ++ "is of an unknown type."))) /\
   (ld = false -> known_pattern calib_pattern = true ->
    exists self, init sensor_dict calib_pattern ld = Ok self)) /\
  (forall self ms,
     init sensor_dict calib_pattern ld = Ok self ->
     ~ In (Raised unknown_modality) (fst (deliver ms self))).
Proof.
  split.
  - intros Hk. split.
    + intros ->. apply init_unknown_modality. exact Hk.
    + intros -> Hp. unfold init. rewrite (pattern_check calib_pattern Hp).
      cbn [bind]. rewrite !andb_false_r. eexists. reflexivity.
  - intros self ms E. apply deliver_known.
    apply (init_known sensor_dict calib_pattern ld self E).
Qed.


(** * Two threads on one labeler *)

Lemma labelData_reset_returns self :
  labelData_reset self
  = (Ok tt, set_labels self (mkLabels false [] (idxs_limit_points (labels self)))).
Proof. reflexivity. Qed.

(** The callback run alone is what is left of it for a thread that is
    about to take the lock. *)
Lemma callback_finish m self :
  sensorDataReceivedCallback m self = finish m self AtAcquire.
Proof.
  unfold sensorDataReceivedCallback, finish.
  destruct (locked self); [reflexivity|].
  cbn [label_data set_msg set_locked].
  destruct (label_data self); [|reflexivity].
  unfold labelData, mbind. rewrite !labelData_reset_returns.
  destruct (labelData_dispatch _) as [[[]|e] self1]; reflexivity.
Qed.

(** A step of a thread does not change how its callback ends. *)
Lemma finish_step m self p self' p' :
  thread_step m (self, p) (self', p') -> finish m self' p' = finish m self p.
Proof.
  intros H. inversion H; subst; unfold finish.
  - match goal with L : locked _ = false |- _ => rewrite L end. reflexivity.
  - cbn [label_data set_msg]. destruct (label_data self); reflexivity.
  - match goal with E : labelData_reset _ = _ |- _ => rewrite E end. reflexivity.
  - match goal with E : labelData_dispatch _ = _ |- _ => rewrite E end. reflexivity.
  - match goal with E : labelData_dispatch _ = _ |- _ => rewrite E end. reflexivity.
  - reflexivity.
Qed.

(** A thread inside its pass keeps the lock as it finds it, up to the step
    that ends the pass. *)
Lemma thread_step_in_pass m self p self' p' :
  thread_step m (self, p) (self', p') -> in_pass p = true ->
  (in_pass p' = true /\ locked self' = locked self) \/ exists o, p' = Finished o.
Proof.
  intros H Hp. inversion H; subst; try discriminate Hp.
  - left. split; [destruct (label_data self); reflexivity|reflexivity].
  - left. split; [reflexivity|].
    match goal with E : labelData_reset _ = _ |- _ => apply safe_reset in E; apply E end.
  - left. split; [reflexivity|].
    match goal with E : labelData_dispatch _ = _ |- _ => apply keeps_dispatch in E; apply E end.
  - right. eexists. reflexivity.
  - right. eexists. reflexivity.
Qed.

(** The thread that takes the lock starts its pass. *)
Lemma thread_step_acquire m self self' p' :
  thread_step m (self, AtAcquire) (self', p') ->
  locked self = false /\ in_pass p' = true /\ locked self' = true /\
  finish m self' p' = sensorDataReceivedCallback m self.
Proof.
  intros H. pose proof (finish_step _ _ _ _ _ H) as F.
  rewrite <- callback_finish in F.
  inversion H; subst. repeat split; assumption.
Qed.

(** A step of the thread that is first in the order. *)
Lemma in_order_step_first ma mb self shared pa pb shared' pa' :
  in_order ma mb self shared pa pb ->
  thread_step ma (shared, pa) (shared', pa') ->
  in_order ma mb self shared' pa' pb.
Proof.
  intros [(-> & -> & ->)|[(Hp & -> & Hl & F)|[(oa & -> & _)|[(oa & sa & -> & _)|
          (oa & sa & ob & -> & _)]]]] H;
    try (inversion H; fail).
  - destruct (thread_step_acquire _ _ _ _ H) as (_ & Hp & Hl & F).
    right. left. auto.
  - pose proof (finish_step _ _ _ _ _ H) as F'.
    destruct (thread_step_in_pass _ _ _ _ _ H Hp) as [[Hp' Hl']|[o ->]].
    + right. left. repeat split; congruence.
    + right. right. left. exists o. repeat split. rewrite <- F, <- F'. reflexivity.
Qed.

(** A step of the thread that is second in the order: it is the first to
    move, and the order is the other one, or it moves after the first one
    has ended. *)
Lemma in_order_step_second ma mb self shared pa pb shared' pb' :
  in_order ma mb self shared pa pb ->
  thread_step mb (shared, pb) (shared', pb') ->
  in_order ma mb self shared' pa pb' \/ in_order mb ma self shared' pb' pa.
Proof.
  intros [(-> & -> & ->)|[(Hp & -> & Hl & F)|[(oa & -> & -> & E)|[(oa & sa & -> & Hp & Hl & E & F)|
          (oa & sa & ob & -> & -> & _)]]]] H;
    try (inversion H; fail).
  - right. destruct (thread_step_acquire _ _ _ _ H) as (_ & Hp & Hl & F).
    right. left. auto.
  - destruct (thread_step_acquire _ _ _ _ H) as (Hl' & _). congruence.
  - left. destruct (thread_step_acquire _ _ _ _ H) as (_ & Hp & Hl & F).
    right. right. right. left. exists oa, shared. auto.
  - left. pose proof (finish_step _ _ _ _ _ H) as F'.
    destruct (thread_step_in_pass _ _ _ _ _ H Hp) as [[Hp' Hl']|[o ->]].
    + right. right. right. left. exists oa, sa. repeat split; congruence.
    + right. right. right. right. exists oa, sa, o. repeat split; try assumption.
      rewrite <- F, <- F'. reflexivity.
Qed.

(** Whatever the interleaving, the threads are in one of the two orders. *)
Lemma steps_in_order m1 m2 self c :
  steps m1 m2 (mkConfig self AtAcquire AtAcquire) c ->
  in_order m1 m2 self (shared c) (pc1 c) (pc2 c) \/
  in_order m2 m1 self (shared c) (pc2 c) (pc1 c).
Proof.
  intros H. remember (mkConfig self AtAcquire AtAcquire) as c0 eqn:E0.
  induction H as [c|c c' c'' _ IH Hstep]; subst.
  - left. left. auto.
  - specialize (IH eq_refl). inversion Hstep as [s p1 p2 s' p1' T|s p1 p2 s' p2' T]; subst;
      cbn [shared pc1 pc2] in *; destruct IH as [IH|IH].
    + left. apply (in_order_step_first _ _ _ _ _ _ _ _ IH T).
    + destruct (in_order_step_second _ _ _ _ _ _ _ _ IH T) as [O|O]; auto.
    + destruct (in_order_step_second _ _ _ _ _ _ _ _ IH T) as [O|O]; auto.
    + right. apply (in_order_step_first _ _ _ _ _ _ _ _ IH T).
Qed.

(** A thread inside its pass can take a step. *)
Lemma in_pass_progress m self p :
  in_pass p = true -> exists self' p', thread_step m (self, p) (self', p').
Proof.
  destruct p; try discriminate; intros _.
  - eexists _, _. apply step_store_msg.
  - eexists _, _. apply step_reset. apply labelData_reset_returns.
  - destruct (labelData_dispatch self) as [[[]|e] self'] eqn:E.
    + eexists _, _. apply (step_dispatch_returns _ _ _ E).
    + eexists _, _. apply (step_dispatch_raises _ _ _ _ E).
  - eexists _, _. apply step_release.
Qed.

(** In an order, no two threads are inside a pass. *)
Lemma in_order_exclusive ma mb self shared pa pb :
  in_order ma mb self shared pa pb -> in_pass pa && in_pass pb = false.
Proof.
  intros [(-> & -> & _)|[(_ & -> & _)|[(oa & -> & _)|[(oa & sa & -> & _)|
          (oa & sa & ob & -> & _)]]]]; try reflexivity.
  apply andb_false_r.
Qed.

(** In an order, when the first thread cannot move and the second one
    cannot either, the outcomes and the labeler are those of the two
    callbacks run one after the other. *)
Lemma in_order_stuck ma mb self shared pa pb :
  in_order ma mb self shared pa pb ->
  (forall s' p', ~ thread_step ma (shared, pa) (s', p')) ->
  (forall s' p', ~ thread_step mb (shared, pb) (s', p')) ->
  deliver [ma; mb] self = ([thread_outcome pa; thread_outcome pb], shared).
Proof.
  intros [(-> & -> & ->)|[(Hp & -> & Hl & F)|[(oa & -> & -> & E)|[(oa & sa & -> & Hp & Hl & E & F)|
          (oa & sa & ob & -> & -> & Ea & Eb)]]]] Ha Hb.
  - destruct (locked self) eqn:Hl.
    + cbn [deliver]. unfold sensorDataReceivedCallback. rewrite !Hl. reflexivity.
    + exfalso. apply (Ha (set_locked self true) AtStoreMsg). apply step_acquire. exact Hl.
  - exfalso. destruct (in_pass_progress ma shared pa Hp) as (s' & p' & T). apply (Ha _ _ T).
  - cbn [deliver]. rewrite <- E.
    destruct (locked shared) eqn:Hl.
    + unfold sensorDataReceivedCallback. rewrite Hl. reflexivity.
    + exfalso. apply (Hb (set_locked shared true) AtStoreMsg). apply step_acquire. exact Hl.
  - exfalso. destruct (in_pass_progress mb shared pb Hp) as (s' & p' & T). apply (Hb _ _ T).
  - cbn [deliver]. rewrite <- Ea, <- Eb. reflexivity.
Qed.

(** A thread that finds the lock free can run its callback to the end while
    the other thread waits. *)
Lemma thread1_runs_alone m1 m2 self p2 :
  locked self = false ->
  steps m1 m2 (mkConfig self AtAcquire p2)
    (mkConfig (snd (sensorDataReceivedCallback m1 self))
              (Finished (fst (sensorDataReceivedCallback m1 self))) p2).
Proof.
  intros Hfree.
  assert (S1 : steps m1 m2 (mkConfig self AtAcquire p2)
                 (mkConfig (set_locked self true) AtStoreMsg p2)).
  { eapply steps_snoc; [apply steps_refl|]. apply step_thread1, step_acquire, Hfree. }
  assert (S2 : steps m1 m2 (mkConfig self AtAcquire p2)
                 (mkConfig (set_msg (set_locked self true) m1)
                    (if label_data self then AtReset else AtRelease) p2)).
  { eapply steps_snoc; [exact S1|]. apply step_thread1.
    apply (step_store_msg m1 (set_locked self true)). }
  unfold sensorDataReceivedCallback. rewrite Hfree.
  cbn [label_data set_msg set_locked]. destruct (label_data self).
  - assert (S3 : steps m1 m2 (mkConfig self AtAcquire p2)
                   (mkConfig (set_labels (set_msg (set_locked self true) m1)
                                (mkLabels false [] (idxs_limit_points (labels self))))
                             AtDispatch p2)).
    { eapply steps_snoc; [exact S2|]. apply step_thread1, step_reset. reflexivity. }
    unfold labelData, mbind. rewrite labelData_reset_returns.
    cbn [labels set_msg set_locked].
    destruct (labelData_dispatch _) as [[[]|e] self1] eqn:E; cbn [fst snd].
    + eapply steps_snoc; [|apply step_thread1, step_release].
      eapply steps_snoc; [exact S3|]. apply step_thread1, step_dispatch_returns, E.
    + eapply steps_snoc; [exact S3|]. apply step_thread1, step_dispatch_raises, E.
  - cbn [fst snd]. eapply steps_snoc; [exact S2|]. apply step_thread1, step_release.
Qed.

Lemma thread2_runs_alone m1 m2 self p1 :
  locked self = false ->
  steps m1 m2 (mkConfig self p1 AtAcquire)
    (mkConfig (snd (sensorDataReceivedCallback m2 self)) p1
              (Finished (fst (sensorDataReceivedCallback m2 self)))).
Proof.
  intros Hfree.
  assert (S1 : steps m1 m2 (mkConfig self p1 AtAcquire)
                 (mkConfig (set_locked self true) p1 AtStoreMsg)).
  { eapply steps_snoc; [apply steps_refl|]. apply step_thread2, step_acquire, Hfree. }
  assert (S2 : steps m1 m2 (mkConfig self p1 AtAcquire)
                 (mkConfig (set_msg (set_locked self true) m2) p1
                    (if label_data self then AtReset else AtRelease))).
  { eapply steps_snoc; [exact S1|]. apply step_thread2.
    apply (step_store_msg m2 (set_locked self true)). }
  unfold sensorDataReceivedCallback. rewrite Hfree.
  cbn [label_data set_msg set_locked]. destruct (label_data self).
  - assert (S3 : steps m1 m2 (mkConfig self p1 AtAcquire)
                   (mkConfig (set_labels (set_msg (set_locked self true) m2)
                                (mkLabels false [] (idxs_limit_points (labels self))))
                             p1 AtDispatch)).
    { eapply steps_snoc; [exact S2|]. apply step_thread2, step_reset. reflexivity. }
    unfold labelData, mbind. rewrite labelData_reset_returns.
    cbn [labels set_msg set_locked].
    destruct (labelData_dispatch _) as [[[]|e] self1] eqn:E; cbn [fst snd].
    + eapply steps_snoc; [|apply step_thread2, step_release].
      eapply steps_snoc; [exact S3|]. apply step_thread2, step_dispatch_returns, E.
    + eapply steps_snoc; [exact S3|]. apply step_thread2, step_dispatch_raises, E.
  - cbn [fst snd]. eapply steps_snoc; [exact S2|]. apply step_thread2, step_release.
Qed.

Lemma steps_trans m1 m2 c c' c'' :
  steps m1 m2 c c' -> steps m1 m2 c' c'' -> steps m1 m2 c c''.
Proof.
  intros H H'. induction H' as [|c1 c2 c3 _ IH Hs]; [exact H|].
  eapply steps_snoc; [apply IH; exact H|exact Hs].
Qed.

(** No thread moves once both callbacks have ended. *)
Lemma stuck_finished m1 m2 self o1 o2 :
  stuck m1 m2 (mkConfig self (Finished o1) (Finished o2)).
Proof.
  intros c' H. inversion H as [? ? ? ? ? T|? ? ? ? ? T]; subst; inversion T.
Qed.

(** C9. Of two threads that deliver a frame each to one labeler, whatever
    the interleaving of their steps, at most one is inside the critical
    section of the callback at a time (between taking the lock and
    releasing it: storing the frame, labeling, publishing); and when no
    thread can move any more, the labeler (its labels with their idxs) and
    the outcomes of the two calls are those of the two callbacks run one
    after the other, in one order or the other, each labeling pass on its
    own frame. *)
Theorem frames_are_labelled_one_at_a_time self m1 m2 c :
  steps m1 m2 (mkConfig self AtAcquire AtAcquire) c ->
  in_pass (pc1 c) && in_pass (pc2 c) = false /\
  (stuck m1 m2 c ->
   deliver [m1; m2] self = ([thread_outcome (pc1 c); thread_outcome (pc2 c)], shared c) \/
   deliver [m2; m1] self = ([thread_outcome (pc2 c); thread_outcome (pc1 c)], shared c)).
Proof.
  intros Hsteps.
  destruct (steps_in_order m1 m2 self c Hsteps) as [O|O].
  - split; [apply (in_order_exclusive _ _ _ _ _ _ O)|].
    intros Hstuck. left. apply (in_order_stuck m1 m2 self (shared c) _ _ O).
    + intros s' p' T. apply (Hstuck (mkConfig s' p' (pc2 c))).
      destruct c. apply step_thread1. exact T.
    + intros s' p' T. apply (Hstuck (mkConfig s' (pc1 c) p')).
      destruct c. apply step_thread2. exact T.
  - split; [rewrite andb_comm; apply (in_order_exclusive _ _ _ _ _ _ O)|].
    intros Hstuck. right. apply (in_order_stuck m2 m1 self (shared c) _ _ O).
    + intros s' p' T. apply (Hstuck (mkConfig s' (pc1 c) p')).
      destruct c. apply step_thread2. exact T.
    + intros s' p' T. apply (Hstuck (mkConfig s' p' (pc2 c))).
      destruct c. apply step_thread1. exact T.
Qed.

(** * The shape of the clusters *)

Lemma enumerate_from_app {A : Type} (l l' : list A) : forall i,
  enumerate_from i (l ++ l') = enumerate_from i l ++ enumerate_from (i + len l) l'.
Proof.
  induction l as [|a l IH]; intros i; cbn [enumerate_from app].
  - unfold len. cbn. rewrite Z.add_0_r. reflexivity.
  - rewrite IH. rewrite len_cons. do 3 f_equal. lia.
Qed.

Lemma indices_snoc {A : Type} (l : list A) (a : A) :
  indices (l ++ [a]) = indices l ++ [len l].
Proof.
  unfold indices, enumerate. rewrite enumerate_from_app, map_app. reflexivity.
Qed.

Lemma snoc_inj {A : Type} (l l' : list A) (a a' : A) :
  l ++ [a] = l' ++ [a'] -> l = l' /\ a = a'.
Proof. apply app_inj_tail. Qed.

(** A pair of neighbours in a list that ends with [z]: the last two
    elements, or a pair of neighbours of the list without [z]. *)
Lemma neighbours_snoc {A : Type} (l l1 l2 : list A) (z x y : A) :
  l ++ [z] = l1 ++ x :: y :: l2 ->
  (l2 = [] /\ y = z /\ l = l1 ++ [x]) \/
  (exists l2', l2 = l2' ++ [z] /\ l = l1 ++ x :: y :: l2').
Proof.
  intros H. destruct (snoc_cases l2) as [-> | (l2' & w & ->)].
  - left. change (l1 ++ [x; y]) with (l1 ++ [x] ++ [y]) in H.
    rewrite app_assoc in H. apply snoc_inj in H. destruct H as [-> ->]. auto.
  - right. exists l2'.
    change (l1 ++ x :: y :: l2' ++ [w]) with (l1 ++ (x :: y :: l2') ++ [w]) in H.
    rewrite app_assoc in H. apply snoc_inj in H. destruct H as [-> ->]. auto.
Qed.

Lemma chained_single xs ys count idx : chained xs ys (newCluster count idx).
Proof.
  intros l1 i j l2 H. cbn in H. apply (f_equal (@List.length Z)) in H.
  rewrite length_app in H. cbn in H. lia.
Qed.

Lemma chained_push xs ys c l i k :
  idxs c = l ++ [i] -> chained xs ys c -> near xs ys i k = true ->
  chained xs ys (pushIdx c k).
Proof.
  intros Hc Hch Hfar l1 x y l2 H. cbn [pushIdx idxs] in H.
  apply neighbours_snoc in H. destruct H as [(-> & -> & H) | (l2' & -> & H)].
  - rewrite Hc in H. apply snoc_inj in H. destruct H as [_ ->]. exact Hfar.
  - exact (Hch _ _ _ _ H).
Qed.

Lemma separated_new xs ys cs c l i count k :
  idxs c = l ++ [i] -> separated xs ys (cs ++ [c]) -> far xs ys i k = true ->
  separated xs ys ((cs ++ [c]) ++ [newCluster count k]).
Proof.
  intros Hc Hsep Hfar a c1 c2 b l0 x y l' H H1 H2.
  apply neighbours_snoc in H.
  destruct H as [(-> & -> & H) | (b' & -> & H)].
  - apply snoc_inj in H. destruct H as [_ <-].
    rewrite Hc in H1. apply snoc_inj in H1. destruct H1 as [_ <-].
    cbn in H2. injection H2 as <- _. exact Hfar.
  - exact (Hsep _ _ _ _ _ _ _ _ H H1 H2).
Qed.

Lemma separated_push xs ys cs c k :
  idxs c <> [] -> separated xs ys (cs ++ [c]) ->
  separated xs ys (cs ++ [pushIdx c k]).
Proof.
  intros Hne Hsep a c1 c2 b l0 x y l' H H1 H2.
  apply neighbours_snoc in H.
  destruct H as [(-> & -> & H) | (b' & -> & H)].
  - subst cs. cbn [pushIdx idxs] in H2.
    destruct (idxs c) as [|j0 t] eqn:E; [contradiction|].
    cbn in H2. injection H2 as <- _.
    apply (Hsep a c1 c [] l0 x j0 t); auto.
    rewrite <- app_assoc. reflexivity.
  - subst cs.
    apply (Hsep a c1 c2 (b' ++ [c]) l0 x y l'); auto.
    rewrite <- app_assoc. reflexivity.
Qed.

(** One pass through the body of the clustering loop keeps the shape. *)
Lemma cluster_step_shape ranges xs ys st k r st' :
  0 <= k < len ranges -> len ranges <= len xs -> len ranges <= len ys ->
  scan_wf k st -> scan_shape xs ys st ->
  cluster_step ranges xs ys st (k, r) = Ok st' ->
  scan_shape xs ys st'.
Proof.
  intros Hk Hxs Hys Hwf (Hnum & Hcnt & Hch & Hsep).
  destruct (cluster_step_cases ranges xs ys st k r Hk Hxs Hys Hwf)
    as [(_ & ->) | [(_ & E0 & ->) | (_ & cs & c & l' & i & E & E' & Hi & ->)]].
  - intros E. injection E as <-. repeat split; assumption.
  - rewrite E0 in *. cbn in Hcnt. rewrite Hcnt.
    intros E. injection E as <-. unfold scan_shape. cbn [clusters cluster_counter app].
    repeat split.
    + constructor; [apply chained_single|constructor].
    + intros a c c' b l i j l' H. apply (f_equal (@List.length _)) in H.
      rewrite length_app in H. cbn in H. lia.
  - destruct (distance _ _ _ _) as [d|e] eqn:Ed; cbn [bind]; [|discriminate].
    destruct Hwf as [Hall _].
    rewrite E in Hall. apply Forall_app in Hall. destruct Hall as [_ Hc].
    inversion Hc as [|? ? [Hne _] _]; subst.
    rewrite E in Hnum, Hcnt, Hch, Hsep.
    rewrite len_app in Hcnt. change (len [c]) with 1 in Hcnt.
    pose proof (len_nonneg cs) as Hcs0.
    apply Forall_app in Hch. destruct Hch as [Hch Hchc].
    inversion Hchc as [|? ? Hchc' _]; subst.
    destruct (threshold <? d)%float eqn:Efar.
    + assert (Hfar : far xs ys i k = true) by (unfold far; rewrite Ed; exact Efar).
      intros H. injection H as <-. unfold scan_shape. cbn [clusters cluster_counter].
      rewrite E. repeat split.
      * rewrite map_app, indices_snoc, Hnum. cbn [map newCluster cluster_count].
        rewrite len_app. change (len [c]) with 1. do 2 f_equal. lia.
      * rewrite !len_app. change (len [c]) with 1.
        change (len [newCluster (cluster_counter st + 1) k]) with 1. lia.
      * apply Forall_app. split.
        -- apply Forall_app. split; [exact Hch|constructor; [exact Hchc'|constructor]].
        -- constructor; [apply chained_single|constructor].
      * apply (separated_new xs ys cs c l' i); assumption.
    + assert (Hnear : near xs ys i k = true) by (unfold near; rewrite Ed, Efar; reflexivity).
      intros H. injection H as <-. unfold scan_shape. cbn [clusters cluster_counter].
      repeat split.
      * rewrite map_app, indices_snoc. rewrite map_app, indices_snoc in Hnum.
        exact Hnum.
      * rewrite len_app. change (len [pushIdx c k]) with 1. exact Hcnt.
      * apply Forall_app. split; [exact Hch|].
        constructor; [|constructor].
        apply (chained_push xs ys c l' i k); assumption.
      * apply separated_push; assumption.
Qed.

(** The clustering loop from index [k] on keeps the shape. *)
Lemma cluster_loop_shape ranges xs ys :
  len ranges <= len xs -> len ranges <= len ys ->
  forall l k st st',
    0 <= k -> k + len l <= len ranges -> scan_wf k st -> scan_shape xs ys st ->
    for_each (cluster_step ranges xs ys) (enumerate_from k l) st = Ok st' ->
    scan_shape xs ys st'.
Proof.
  intros Hxs Hys. induction l as [|r l IH]; intros k st st' Hk Hl Hwf Hsh.
  - cbn. intros E. injection E as <-. exact Hsh.
  - rewrite len_cons in Hl. pose proof (len_nonneg l) as Hl0.
    cbn [for_each enumerate_from].
    destruct (cluster_step ranges xs ys st (k, r)) as [st1|e] eqn:E1;
      cbn [bind]; [|discriminate].
    destruct (cluster_step_wf ranges xs ys st k r st1) as (W1 & _); try lia; auto.
    apply (IH (k + 1) st1); try lia; auto.
    apply (cluster_step_shape ranges xs ys st k r st1); try lia; auto.
Qed.

Lemma clustering_shape ranges xs ys cs :
  len ranges <= len xs -> len ranges <= len ys ->
  clustering ranges xs ys = Ok cs ->
  map cluster_count cs = indices cs /\ Forall (chained xs ys) cs /\ separated xs ys cs.
Proof.
  intros Hxs Hys. unfold clustering, enumerate.
  destruct (for_each _ _ _) as [st|e] eqn:E; [|discriminate].
  cbn [bind]. intros H. injection H as <-.
  destruct (cluster_loop_shape ranges xs ys Hxs Hys ranges 0 (mkScan [] 0 true) st)
    as (H1 & _ & H3 & H4); try lia; auto using scan_wf_init.
  unfold scan_shape. cbn. repeat split; [constructor|].
  intros a c c' b l i j l' H. destruct a; discriminate H.
Qed.

Lemma filter_enumerate_from_lower {A : Type} (P : Z * A -> bool) (l : list A) :
  forall k j, In j (map fst (filter P (enumerate_from k l))) -> k <= j.
Proof.
  intros k j H. apply in_map_iff in H. destruct H as ([j' a] & <- & H).
  apply filter_In in H. destruct H as [H _].
  apply in_enumerate_from in H. cbn [fst]. lia.
Qed.

(** The indices that a filter keeps of an enumeration are in increasing
    order. *)
Lemma filter_enumerate_from_increasing {A : Type} (P : Z * A -> bool) (l : list A) :
  forall k l1 i l2 j l3,
    map fst (filter P (enumerate_from k l)) = l1 ++ i :: l2 ++ j :: l3 -> i < j.
Proof.
  induction l as [|a l IH]; intros k l1 i l2 j l3 H.
  - destruct l1; discriminate H.
  - cbn [enumerate_from filter] in H.
    destruct (P (k, a)); [|exact (IH _ _ _ _ _ _ H)].
    cbn [map fst] in H. destruct l1 as [|x l1].
    + cbn [app] in H. injection H as <- H.
      assert (Hj : In j (map fst (filter P (enumerate_from (k + 1) l)))).
      { rewrite H. apply in_or_app. right. left. reflexivity. }
      apply filter_enumerate_from_lower in Hj. lia.
    + cbn [app] in H. injection H as _ H. exact (IH _ _ _ _ _ _ H).
Qed.

Lemma nth_error_indices {A : Type} (l : list A) (n : nat) :
  (n < List.length l)%nat -> nth_error (indices l) n = Some (Z.of_nat n).
Proof.
  unfold indices, enumerate. intros H.
  assert (G : forall (l : list A) k n, (n < List.length l)%nat ->
              nth_error (map fst (enumerate_from k l)) n = Some (k + Z.of_nat n)).
  { clear. induction l as [|a l IH]; intros k n H; [cbn in H; lia|].
    destruct n as [|n]; cbn [enumerate_from map nth_error fst].
    - f_equal. lia.
    - rewrite IH by (cbn in H; lia). f_equal. lia. }
  rewrite G by exact H. reflexivity.
Qed.

(** X1. The clusters partition the kept points: on a scan whose coordinate
    lists are at least as long as its range array and whose point distances
    can be computed (no square of a coordinate difference overflows), the
    clustering stage does not raise, no cluster is empty, the indices of
    the clusters read in cluster-then-index order are those of the kept
    points, and they are strictly increasing, so that no index is in two
    clusters or twice in one. *)
Theorem clusters_partition_kept_points ranges xs ys :
  len ranges <= len xs -> len ranges <= len ys ->
  distances_defined xs ys = true ->
  exists cs,
    clustering ranges xs ys = Ok cs /\
    Forall (fun c => idxs c <> []) cs /\
    flatten cs = map fst (filter (valid_point ranges) (enumerate ranges)) /\
    (forall l1 i l2 j l3, flatten cs = l1 ++ i :: l2 ++ j :: l3 -> i < j).
Proof.
  intros Hxs Hys Hd.
  destruct (clustering_returns ranges xs ys Hxs Hys Hd) as (cs & E).
  destruct (clustering_wf ranges xs ys cs Hxs Hys E) as (W & F).
  exists cs. split; [exact E|]. split; [|split; [exact F|]].
  - eapply Forall_impl; [|exact W]. intros c [H _]. exact H.
  - intros l1 i l2 j l3 H. rewrite F in H. unfold enumerate in H.
    exact (filter_enumerate_from_increasing _ _ _ _ _ _ _ _ H).
Qed.

(** X2. The clusters are numbered by their position: the [cluster_count]
    of the clusters of a scan are 0, 1, 2, ... in list order, so the number
    of a cluster is an index into any array with one row per cluster (the
    colour map of line 347), and reading the cluster list at the number of
    a cluster gives that cluster. *)
Theorem clusters_numbered_by_position ranges xs ys cs :
  len ranges <= len xs -> len ranges <= len ys ->
  clustering ranges xs ys = Ok cs ->
  map cluster_count cs = indices cs /\
  (forall c, In c cs -> 0 <= cluster_count c < len cs /\ getitem cs (cluster_count c) = Ok c).
Proof.
  intros Hxs Hys E.
  destruct (clustering_shape ranges xs ys cs Hxs Hys E) as (Hnum & _ & _).
  split; [exact Hnum|]. intros c Hin.
  apply In_nth_error in Hin. destruct Hin as [n Hn].
  assert (Hlt : (n < List.length cs)%nat).
  { apply nth_error_Some. rewrite Hn. discriminate. }
  pose proof (map_nth_error cluster_count n cs Hn) as H1.
  rewrite Hnum, (nth_error_indices cs n Hlt) in H1. injection H1 as H1.
  rewrite <- H1. unfold len. split; [lia|].
  unfold getitem. replace (Z.of_nat n <? 0) with false by (symmetry; apply Z.ltb_ge; lia).
  replace (Z.of_nat n <? 0) with false by (symmetry; apply Z.ltb_ge; lia).
  rewrite Nat2Z.id, Hn. reflexivity.
Qed.

(** X3. Clusters break exactly where a kept point is farther than the
    point-to-point threshold from the kept point before it: inside a
    cluster the distance of every index to the index before it is not above
    the threshold, and the distance of the first index of every later
    cluster to the last index of the cluster before it is above it.
    Distances are the ones the clusterer computes, taken between
    consecutive kept points, whatever skipped readings lie between them. *)
Theorem clusters_break_at_far_points ranges xs ys cs :
  len ranges <= len xs -> len ranges <= len ys ->
  clustering ranges xs ys = Ok cs ->
  Forall (chained xs ys) cs /\ separated xs ys cs.
Proof.
  intros Hxs Hys E.
  destruct (clustering_shape ranges xs ys cs Hxs Hys E) as (_ & H2 & H3).
  split; assumption.
Qed.


(** * Frames delivered one after the other *)

Lemma keeps_labelData : keeps labelData.
Proof.
  intros self r self' E. unfold labelData, mbind in E.
  destruct (labelData_reset self) as [[[]|e] self1] eqn:Er.
  - destruct (safe_reset _ _ _ Er) as ((M1 & L1 & K1) & _).
    destruct (keeps_dispatch _ _ _ E) as (M2 & L2 & K2).
    repeat split; congruence.
  - inversion E; subst. destruct (safe_reset _ _ _ Er) as (H & _). exact H.
Qed.

(** How a call of the callback leaves the lock. *)
Lemma callback_lock m self o self' :
  sensorDataReceivedCallback m self = (o, self') ->
  match o with
  | Returned => locked self = false /\ locked self' = false
  | Raised _ => locked self = false /\ locked self' = true
  | Blocked => locked self = true /\ self' = self
  end.
Proof.
  unfold sensorDataReceivedCallback. destruct (locked self) eqn:Hl.
  { intros E. injection E as <- <-. auto. }
  cbn [label_data set_msg set_locked].
  destruct (label_data self).
  - destruct (labelData _) as [[[]|e] self1] eqn:El; intros E; injection E as <- <-.
    + split; reflexivity.
    + destruct (keeps_labelData _ _ _ El) as (_ & _ & K). split; [reflexivity|].
      rewrite K. reflexivity.
  - intros E. injection E as <- <-. split; reflexivity.
Qed.

(** Frames delivered to a labeler whose lock is held. *)
Lemma deliver_locked ms : forall self,
  locked self = true -> deliver ms self = (repeat Blocked (List.length ms), self).
Proof.
  induction ms as [|m ms IH]; intros self Hl; [reflexivity|].
  cbn [deliver]. unfold sensorDataReceivedCallback at 1. rewrite Hl.
  rewrite (IH self Hl). reflexivity.
Qed.

(** X4. A callback that raises never releases the lock: from then on every
    frame delivered to the labeler waits for the lock, and the labeler
    stays as the failed pass left it. *)
Theorem raised_callback_blocks_later_frames m self e self' ms :
  sensorDataReceivedCallback m self = (Raised e, self') ->
  locked self' = true /\
  deliver ms self' = (repeat Blocked (List.length ms), self').
Proof.
  intros E. destruct (callback_lock _ _ _ _ E) as [_ Hl].
  split; [exact Hl|]. apply deliver_locked. exact Hl.
Qed.

(** The callback of a labeler that does not label. *)
Lemma callback_disabled m self :
  label_data self = false -> locked self = false ->
  sensorDataReceivedCallback m self = (Returned, set_msg self m).
Proof.
  intros Hld Hl. unfold sensorDataReceivedCallback. rewrite Hl.
  cbn [label_data set_msg set_locked]. rewrite Hld.
  destruct self. cbn in *. subst. reflexivity.
Qed.

(** X5. A labeler constructed with labeling disabled only stores the
    frames it receives: every callback returns, and the labeler is as it
    was but for [msg], the last frame delivered; labels, marker, seed and
    lock are untouched. *)
Theorem disabled_labeler_only_stores_frames ms : forall self,
  label_data self = false -> locked self = false ->
  deliver ms self = (repeat Returned (List.length ms), fold_left set_msg ms self).
Proof.
  induction ms as [|m ms IH]; intros self Hld Hl; [reflexivity|].
  cbn [deliver fold_left]. rewrite (callback_disabled m self Hld Hl).
  rewrite (IH (set_msg self m)); [reflexivity|exact Hld|exact Hl].
Qed.


(** * The 2D lidar labeler, frame after frame *)

(** The callback of a 2D lidar labeler raises on every frame. *)
Lemma callback_lidar2d_raises self m :
  locked self = false -> label_data self = true -> modality self = "lidar2d"%string ->
  exists e,
    sensorDataReceivedCallback m self =
    (Raised e,
     set_labels (set_msg (set_locked self true) m)
                (mkLabels false [] (idxs_limit_points (labels self)))) /\
    (forall cs,
       clustering (ranges m) (fst (laser_scan_msg_to_xy m)) (snd (laser_scan_msg_to_xy m))
       = Ok cs -> e = AttributeError).
Proof.
  intros Hlock Hld Hmd. unfold sensorDataReceivedCallback.
  rewrite Hlock. cbn [label_data set_msg set_locked]. rewrite Hld.
  rewrite labelData_lidar2d_branch by exact Hmd.
  unfold labelData_lidar2d, mbind, attr, lift. cbn [msg set_labels set_msg].
  destruct (laser_scan_msg_to_xy m) as [xs ys]. cbn [fst snd].
  destruct (clustering (ranges m) xs ys) as [cs|e].
  - exists AttributeError. cbn [marker set_labels set_msg set_locked].
    destruct (marker self); split; reflexivity.
  - exists e. split; [reflexivity|]. intros cs H. discriminate H.
Qed.

(** X8. The first frame stops a 2D lidar labeler for good: the callback on
    it raises (AttributeError at [min_dist = sys.maxint], unless the
    clustering has raised before), every frame delivered after it waits
    for the lock, whatever it contains, and the labels stay the reset ones
    (nothing detected, no index). *)
Theorem lidar2d_labeler_stops_at_its_first_frame self m post :
  locked self = false -> label_data self = true -> modality self = "lidar2d"%string ->
  exists e,
    fst (deliver (m :: post) self) = Raised e :: repeat Blocked (List.length post) /\
    (forall cs,
       clustering (ranges m) (fst (laser_scan_msg_to_xy m)) (snd (laser_scan_msg_to_xy m))
       = Ok cs -> e = AttributeError) /\
    detected (labels (snd (deliver (m :: post) self))) = false /\
    labels_idxs (labels (snd (deliver (m :: post) self))) = [].
Proof.
  intros Hl Hld Hmd.
  destruct (callback_lidar2d_raises self m Hl Hld Hmd) as (e & E & He).
  exists e. cbn [deliver]. rewrite E.
  rewrite deliver_locked by reflexivity. cbn [fst snd labels set_labels detected labels_idxs].
  repeat split. exact He.
Qed.

(** * The depth and the 3D lidar labeler, frame after frame *)

Lemma half_rounded_float_of_int w c :
  half_rounded w = Ok c -> exists fw, float_of_int w = Ok fw.
Proof.
  unfold half_rounded. destruct (float_of_int w) as [fw|e]; [eauto|discriminate].
Qed.

(** The callback of a depth labeler whose image dimensions [__init__] has
    halved and rounded. *)
Lemma callback_depth self m w h s fw fh cx cy :
  locked self = false -> label_data self = true -> modality self = "depth"%string ->
  fullResolution self = Some (w, h) -> seed self = Some s ->
  float_of_int w = Ok fw -> float_of_int h = Ok fh ->
  half_rounded w = Ok cx -> half_rounded h = Ok cy ->
  exists self',
    sensorDataReceivedCallback m self = (Returned, self') /\
    locked self' = false /\ label_data self' = true /\ modality self' = "depth"%string /\
    fullResolution self' = Some (w, h) /\
    labels self' = fst (labelDepthMsg m s) /\
    seed self' = Some (if accepted fw fh (snd (labelDepthMsg m s))
                       then snd (labelDepthMsg m s)
                       else mkSeed cx cy).
Proof.
  intros Hl Hld Hmd Hres Hs Hw Hh Hcx Hcy.
  unfold sensorDataReceivedCallback. rewrite Hl.
  cbn [label_data set_msg set_locked]. rewrite Hld.
  rewrite labelData_depth_branch by exact Hmd.
  unfold labelData_depth, mbind, attr, lift, modify.
  cbn [fullResolution msg seed set_labels set_seed set_msg set_locked]. rewrite Hres.
  cbn [fullResolution msg seed set_labels set_seed set_msg set_locked]. rewrite Hs.
  cbn [fst snd].
  destruct (labelDepthMsg m s) as [l new]. cbn [fst snd seed set_labels set_seed].
  rewrite (seed_in_bounds_accepted w h fw fh new Hw Hh).
  destruct (accepted fw fh new).
  - cbn [seed set_seed seed_x seed_y labels set_labels set_msg set_locked]. rewrite Hs.
    cbn [seed set_seed seed_x seed_y labels set_labels].
    eexists. split; [reflexivity|].
    cbn [locked label_data modality fullResolution labels seed set_locked].
    repeat split; try assumption. destruct new; reflexivity.
  - rewrite Hcx, Hcy. eexists. split; [reflexivity|].
    cbn [locked label_data modality fullResolution labels seed set_locked].
    repeat split; assumption.
Qed.

(** Frames delivered to a depth labeler: every callback returns, and the
    seed is the image centre or a candidate that passed the test. *)
Lemma deliver_depth w h fw fh cx cy ms : forall self s,
  locked self = false -> label_data self = true -> modality self = "depth"%string ->
  fullResolution self = Some (w, h) -> seed self = Some s ->
  float_of_int w = Ok fw -> float_of_int h = Ok fh ->
  half_rounded w = Ok cx -> half_rounded h = Ok cy ->
  (s = mkSeed cx cy \/ accepted fw fh s = true) ->
  fst (deliver ms self) = repeat Returned (List.length ms) /\
  exists s', seed (snd (deliver ms self)) = Some s' /\
             (s' = mkSeed cx cy \/ accepted fw fh s' = true).
Proof.
  induction ms as [|m ms IH]; intros self s Hl Hld Hmd Hres Hs Hw Hh Hcx Hcy Hinv.
  - cbn. split; [reflexivity|]. exists s. split; assumption.
  - destruct (callback_depth self m w h s fw fh cx cy) as (self1 & E & Hl1 & Hld1 & Hmd1
                                                            & Hres1 & _ & Hs1); try assumption.
    cbn [deliver]. rewrite E.
    destruct (IH self1 _ Hl1 Hld1 Hmd1 Hres1 Hs1 Hw Hh Hcx Hcy) as [Hos Hseed].
    { destruct (accepted fw fh (snd (labelDepthMsg m s))) eqn:Ea; [right; exact Ea|left; reflexivity]. }
    destruct (deliver ms self1) as [os self2]. cbn [fst snd] in *.
    split; [cbn [List.length repeat]; f_equal; exact Hos|exact Hseed].
Qed.

(** X9. A depth labeler that [__init__] has constructed labels every
    frame: whatever frames are delivered, every callback returns (the
    conversions of the image dimensions that could overflow were made by
    [__init__] already), and the seed that the next frame starts from is
    always either the image centre or a candidate that passed the bounds
    test. *)
Theorem depth_labeler_labels_every_frame sensor_dict calib_pattern self ms :
  sd_modality sensor_dict = "depth"%string ->
  init sensor_dict calib_pattern true = Ok self ->
  exists w h fw fh cx cy s,
    sd_camera_info sensor_dict = Some (w, h) /\
    float_of_int w = Ok fw /\ float_of_int h = Ok fh /\
    half_rounded w = Ok cx /\ half_rounded h = Ok cy /\
    seed self = Some (mkSeed cx cy) /\
    fst (deliver ms self) = repeat Returned (List.length ms) /\
    seed (snd (deliver ms self)) = Some s /\
    (s = mkSeed cx cy \/ accepted fw fh s = true).
Proof.
  intros Hmd. unfold init.
  destruct (if String.eqb (pattern_type calib_pattern) "chessboard" then _ else _) as [[]|e];
    [|discriminate].
  cbn [bind modality]. rewrite Hmd. cbn [String.eqb Ascii.eqb Bool.eqb andb].
  destruct (sd_camera_info sensor_dict) as [[w h]|]; [|discriminate].
  cbn [key bind fst snd].
  destruct (half_rounded w) as [cx|] eqn:Hcx; [|discriminate].
  destruct (half_rounded h) as [cy|] eqn:Hcy; [|discriminate].
  cbn [bind]. intros E. injection E as <-.
  destruct (half_rounded_float_of_int w cx Hcx) as [fw Hw].
  destruct (half_rounded_float_of_int h cy Hcy) as [fh Hh].
  match goal with |- context [deliver ms ?s] =>
    destruct (deliver_depth w h fw fh cx cy ms s (mkSeed cx cy)) as [Hos (s' & Hs' & Hinv)]
  end; try reflexivity; try assumption; [left; reflexivity|].
  exists w, h, fw, fh, cx, cy, s'. repeat split; assumption.
Qed.


Lemma labelData_lidar3d_branch self :
  modality self = "lidar3d"%string ->
  labelData self = labelData_lidar3d
                     (set_labels self (mkLabels false [] (idxs_limit_points (labels self)))).
Proof.
  intros Hmd. unfold labelData, labelData_reset, labelData_dispatch.
  unfold mbind, set_detected, set_idxs, modify, gets. cbn.
  rewrite Hmd. reflexivity.
Qed.

(** Reading the three coordinates of a point of the cloud. *)
Lemma cloud_point_row point_cloud i :
  cloud_row point_cloud i = true -> exists pt, cloud_point point_cloud (Idx i) = Ok pt.
Proof.
  unfold cloud_row, cloud_point.
  destruct (getitem point_cloud i) as [row|e]; [|discriminate].
  intros H. apply Z.leb_le in H. cbn [bind].
  rewrite (getitem_nth 0%float row 0), (getitem_nth 0%float row 1),
    (getitem_nth 0%float row 2) by lia.
  eexists. reflexivity.
Qed.

(** The loops of lines 443-445 and 451-453 on indices of points of the
    cloud. *)
Lemma append_loop_returns point_cloud l : forall points,
  forallb (fun e => match e with
                    | Idx i => cloud_row point_cloud i
                    | Keypoint _ _ _ => false
                    end) l = true ->
  exists points', for_each (append_point point_cloud) l points = Ok points'.
Proof.
  induction l as [|e l IH]; intros points H; [exists points; reflexivity|].
  cbn [forallb] in H. apply andb_true_iff in H. destruct H as [He Hl].
  destruct e as [i|]; [|discriminate].
  destruct (cloud_point_row point_cloud i He) as [pt Ept].
  cbn [for_each]. unfold append_point at 1. rewrite Ept. cbn [bind].
  apply IH. exact Hl.
Qed.

Lemma forallb_map_Idx point_cloud limit :
  forallb (cloud_row point_cloud) limit = true ->
  forallb (fun e => match e with
                    | Idx i => cloud_row point_cloud i
                    | Keypoint _ _ _ => false
                    end) (map Idx limit) = true.
Proof. induction limit as [|i l IH]; cbn; [reflexivity|]. destruct (cloud_row _ i); auto. Qed.

(** The callback of a 3D lidar labeler that has its marker and its tracker
    threshold, on a frame whose labels it can draw on the cloud. *)
Lemma callback_lidar3d self m p t :
  locked self = false -> label_data self = true -> modality self = "lidar3d"%string ->
  marker self = Some p -> tracker_threshold self = Some t ->
  drawable (numpyFromPointCloudMsg m) (fst (labelPointCloud2Msg m p t)) = true ->
  exists self',
    sensorDataReceivedCallback m self = (Returned, self') /\
    locked self' = false /\ label_data self' = true /\ modality self' = "lidar3d"%string /\
    tracker_threshold self' = Some t /\
    labels self' = fst (labelPointCloud2Msg m p t) /\
    marker self' = Some (snd (labelPointCloud2Msg m p t)).
Proof.
  intros Hl Hld Hmd Hp Ht Hdraw.
  unfold sensorDataReceivedCallback. rewrite Hl.
  cbn [label_data set_msg set_locked]. rewrite Hld.
  rewrite labelData_lidar3d_branch by exact Hmd.
  unfold labelData_lidar3d, mbind, attr, lift, modify, gets.
  cbn [marker msg tracker_threshold set_labels set_msg set_locked]. rewrite Hp.
  cbn [marker msg tracker_threshold set_labels set_msg set_locked]. rewrite Ht.
  destruct (labelPointCloud2Msg m p t) as [l seed_point]. cbn [fst snd] in *.
  cbn [labels set_labels].
  unfold drawable in Hdraw. apply andb_true_iff in Hdraw. destruct Hdraw as [H1 H2].
  destruct (append_loop_returns _ _ [] H1) as [points ->].
  destruct (idxs_limit_points l) as [limit|]; [|discriminate]. cbn [key].
  destruct (append_loop_returns _ _ points (forallb_map_Idx _ _ H2)) as [points' ->].
  unfold set_marker_x, set_marker_y, set_marker_z, mbind, attr, modify.
  cbn [marker set_marker set_labels set_msg set_locked pos_x pos_y pos_z]. rewrite Hp.
  cbn [marker set_marker set_labels set_msg set_locked pos_x pos_y pos_z].
  eexists. split; [reflexivity|].
  cbn [locked label_data modality tracker_threshold labels marker set_locked fst snd].
  repeat split; try assumption. destruct seed_point; reflexivity.
Qed.

(** Frames delivered to a 3D lidar labeler: every callback returns. *)
Lemma deliver_lidar3d t ms : forall self p,
  locked self = false -> label_data self = true -> modality self = "lidar3d"%string ->
  marker self = Some p -> tracker_threshold self = Some t ->
  Forall (drawable_frame t) ms ->
  fst (deliver ms self) = repeat Returned (List.length ms) /\
  locked (snd (deliver ms self)) = false /\
  label_data (snd (deliver ms self)) = true /\
  modality (snd (deliver ms self)) = "lidar3d"%string /\
  tracker_threshold (snd (deliver ms self)) = Some t /\
  exists p', marker (snd (deliver ms self)) = Some p'.
Proof.
  induction ms as [|m ms IH]; intros self p Hl Hld Hmd Hp Ht Hms.
  - cbn. repeat split; try assumption. exists p. exact Hp.
  - inversion Hms as [|? ? Hm Hms']; subst.
    destruct (callback_lidar3d self m p t Hl Hld Hmd Hp Ht (Hm p))
      as (self1 & E & Hl1 & Hld1 & Hmd1 & Ht1 & _ & Hp1).
    cbn [deliver]. rewrite E.
    destruct (IH self1 _ Hl1 Hld1 Hmd1 Hp1 Ht1 Hms') as (Hos & H).
    destruct (deliver ms self1) as [os self2]. cbn [fst snd] in *.
    split; [cbn [List.length repeat]; f_equal; exact Hos|exact H].
Qed.

Lemma deliver_app ms ms' self :
  deliver (ms ++ ms') self
  = (fst (deliver ms self) ++ fst (deliver ms' (snd (deliver ms self))),
     snd (deliver ms' (snd (deliver ms self)))).
Proof.
  revert self. induction ms as [|m ms IH]; intros self.
  - cbn. destruct (deliver ms' self). reflexivity.
  - cbn [app deliver]. destruct (sensorDataReceivedCallback m self) as [o self1].
    rewrite IH. destruct (deliver ms self1) as [os self2]. reflexivity.
Qed.

(** X10. A 3D lidar labeler that [__init__] has constructed labels every
    frame and tracks the pattern from frame to frame, as long as the labels
    of each frame can be drawn on its cloud (whatever the marker, the point
    cloud labeling returns labelled indices and limit points, all of them
    indices of points of the cloud): every callback returns, and the labels
    and the marker after a frame are what the point-cloud labeling returns
    on that frame, started from the marker as the frames before left it,
    with the tracker threshold of the construction. *)
Theorem lidar3d_labeler_tracks_from_frame_to_frame sensor_dict calib_pattern self ms m :
  sd_modality sensor_dict = "lidar3d"%string ->
  init sensor_dict calib_pattern true = Ok self ->
  (forall t, tracker_threshold self = Some t -> Forall (drawable_frame t) (ms ++ [m])) ->
  exists t p,
    tracker_threshold self = Some t /\
    fst (deliver (ms ++ [m]) self) = repeat Returned (List.length (ms ++ [m])) /\
    marker (snd (deliver ms self)) = Some p /\
    labels (snd (deliver (ms ++ [m]) self)) = fst (labelPointCloud2Msg m p t) /\
    marker (snd (deliver (ms ++ [m]) self)) = Some (snd (labelPointCloud2Msg m p t)).
Proof.
  intros Hmd. unfold init.
  destruct (if String.eqb (pattern_type calib_pattern) "chessboard" then _ else _) as [[]|e];
    [|discriminate].
  cbn [bind modality]. rewrite Hmd. cbn [String.eqb Ascii.eqb Bool.eqb andb].
  destruct (tracker_threshold_of calib_pattern) as [t|]; [|discriminate].
  cbn [bind]. intros E. injection E as <-. cbn [tracker_threshold]. intros Hdraw.
  specialize (Hdraw t eq_refl).
  pose proof Hdraw as Hdraw'. apply Forall_app in Hdraw'. destruct Hdraw' as [Hms Hm].
  inversion Hm as [|? ? Hm' _]; subst.
  match goal with |- context [deliver ms ?s] =>
    destruct (deliver_lidar3d t (ms ++ [m]) s (mkPosition 0.804 0.298 0.409))
      as (Hos & _); try reflexivity; try assumption;
    destruct (deliver_lidar3d t ms s (mkPosition 0.804 0.298 0.409))
      as (_ & Hl & Hld & Hmd' & Ht & p & Hp); try reflexivity; try assumption
  end.
  exists t, p. split; [reflexivity|]. split; [exact Hos|]. split; [exact Hp|].
  rewrite deliver_app. cbn [snd deliver].
  match goal with |- context [sensorDataReceivedCallback m ?s] =>
    destruct (callback_lidar3d s m p t Hl Hld Hmd' Hp Ht (Hm' p))
      as (s' & E & _ & _ & _ & _ & Hlab & Hmk)
  end.
  rewrite E. cbn [snd]. split; assumption.
Qed.

(** X26. When the point-cloud labeling returns labels without limit points
    (the key 'idxs_limit_points' is missing), the pass of the 3D lidar
    raises KeyError after it has replaced the labels and before it updates
    the marker: the labeler holds the new labels, the marker is where it
    was, and the lock is still held. *)
Theorem lidar3d_labels_without_limit_points_raise self m p t :
  locked self = false -> label_data self = true -> modality self = "lidar3d"%string ->
  marker self = Some p -> tracker_threshold self = Some t ->
  forallb (fun e => match e with
                    | Idx i => cloud_row (numpyFromPointCloudMsg m) i
                    | Keypoint _ _ _ => false
                    end) (labels_idxs (fst (labelPointCloud2Msg m p t))) = true ->
  idxs_limit_points (fst (labelPointCloud2Msg m p t)) = None ->
  sensorDataReceivedCallback m self =
  (Raised (KeyError "idxs_limit_points"),
   set_labels (set_msg (set_locked self true) m) (fst (labelPointCloud2Msg m p t))).
Proof.
  intros Hl Hld Hmd Hp Ht H1 H2.
  unfold sensorDataReceivedCallback. rewrite Hl.
  cbn [label_data set_msg set_locked]. rewrite Hld.
  rewrite labelData_lidar3d_branch by exact Hmd.
  unfold labelData_lidar3d, mbind, attr, lift, modify, gets.
  cbn [marker msg tracker_threshold set_labels set_msg set_locked]. rewrite Hp.
  cbn [marker msg tracker_threshold set_labels set_msg set_locked]. rewrite Ht.
  destruct (labelPointCloud2Msg m p t) as [l seed_point]. cbn [fst snd] in *.
  cbn [labels set_labels].
  destruct (append_loop_returns _ _ [] H1) as [points ->].
  rewrite H2. reflexivity.
Qed.

(** * The mouse click *)

(** X11. A click on the labelled depth image seeds the next labeling pass:
    the callback of the click sets the seed to twice the clicked pixel
    (the image shown is the pyramid level 1 of the depth image), and the
    next frame is labelled from that seed, whatever seed the tracker had
    reached. *)
Theorem mouse_click_seeds_the_next_depth_frame self m x y w h s fw fh cx cy :
  locked self = false -> label_data self = true -> modality self = "depth"%string ->
  fullResolution self = Some (w, h) -> seed self = Some s ->
  float_of_int w = Ok fw -> float_of_int h = Ok fh ->
  half_rounded w = Ok cx -> half_rounded h = Ok cy ->
  exists self1 self2,
    mouseClickReceivedCallback x y self = (Ok tt, self1) /\
    seed self1 = Some (mkSeed (x * 2) (y * 2)) /\
    sensorDataReceivedCallback m self1 = (Returned, self2) /\
    labels self2 = fst (labelDepthMsg m (mkSeed (x * 2) (y * 2))) /\
    seed self2 = Some (if accepted fw fh (snd (labelDepthMsg m (mkSeed (x * 2) (y * 2))))
                       then snd (labelDepthMsg m (mkSeed (x * 2) (y * 2)))
                       else mkSeed cx cy).
Proof.
  intros Hl Hld Hmd Hres Hs Hw Hh Hcx Hcy.
  assert (H2 : float_of_int (2 ^ 1) = Ok 2%float) by (vm_compute; reflexivity).
  assert (E : mouseClickReceivedCallback x y self
              = (Ok tt, set_seed (set_seed self (mkSeed (x * 2) (seed_y s)))
                          (mkSeed (x * 2) (y * 2)))).
  { unfold mouseClickReceivedCallback, scaled, mbind, attr, lift, ret, modify, pyrdown.
    repeat first [rewrite Hs | rewrite H2 | progress cbn [seed set_seed seed_x seed_y]].
    reflexivity. }
  rewrite E.
  destruct (callback_depth
              (set_seed (set_seed self (mkSeed (x * 2) (seed_y s))) (mkSeed (x * 2) (y * 2)))
              m w h (mkSeed (x * 2) (y * 2)) fw fh cx cy)
    as (self2 & Ecb & _ & _ & _ & _ & Hlab & Hseed); try assumption; try reflexivity.
  eexists. exists self2. split; [reflexivity|]. split; [reflexivity|].
  split; [exact Ecb|]. split; assumption.
Qed.


(** * The camera labeler *)

Lemma labelData_rgb_branch self :
  modality self = "rgb"%string ->
  labelData self = labelData_rgb
                     (set_labels self (mkLabels false [] (idxs_limit_points (labels self)))).
Proof.
  intros Hmd. unfold labelData, labelData_reset, labelData_dispatch.
  unfold mbind, set_detected, set_idxs, modify, gets. cbn.
  rewrite Hmd. reflexivity.
Qed.

Lemma round_half_even_finite x :
  is_finite x = true -> exists z, round_half_even x = Ok z.
Proof.
  unfold is_finite, round_half_even.
  destruct (Prim2SF x); try discriminate; eauto.
Qed.

Lemma getitem_out_of_range {A : Type} (l : list A) (i : Z) :
  len l <= i -> getitem l i = Raise IndexError.
Proof.
  intros H. pose proof (len_nonneg l) as H0. unfold getitem.
  replace (i <? 0) with false by (symmetry; apply Z.ltb_ge; lia).
  replace (i <? 0) with false by (symmetry; apply Z.ltb_ge; lia).
  assert (E : nth_error l (Z.to_nat i) = None).
  { apply nth_error_None. unfold len in H. lia. }
  rewrite E. reflexivity.
Qed.

Lemma getitem_head {A : Type} (a : A) (l : list A) : getitem (a :: l) 0 = Ok a.
Proof. reflexivity. Qed.

(** The loop of line 398 when every keypoint has its id. *)
Lemma charuco_loop ids : forall l k acc,
  0 <= k -> k + len l <= len ids ->
  for_each (keypoint_with_id ids) (enumerate_from k l) acc
  = Ok (acc ++ map (charuco_keypoint ids) (enumerate_from k l)).
Proof.
  induction l as [|c l IH]; intros k acc Hk Hl.
  - cbn. rewrite app_nil_r. reflexivity.
  - rewrite len_cons in Hl. pose proof (len_nonneg l) as Hl0.
    cbn [for_each enumerate_from map]. unfold keypoint_with_id at 1. cbn [fst snd].
    rewrite (getitem_nth 0 ids k) by lia. cbn [bind].
    rewrite IH by lia. rewrite <- app_assoc. reflexivity.
Qed.

(** The loop of line 398 when the ids run out. *)
Lemma charuco_loop_short ids : forall l k acc,
  0 <= k <= len ids -> len ids < k + len l ->
  for_each (keypoint_with_id ids) (enumerate_from k l) acc = Raise IndexError.
Proof.
  induction l as [|c l IH]; intros k acc Hk Hl.
  - unfold len in Hl at 2. cbn in Hl. lia.
  - rewrite len_cons in Hl.
    cbn [for_each enumerate_from]. unfold keypoint_with_id at 1. cbn [fst snd].
    destruct (Z.eq_dec k (len ids)) as [->|N].
    + rewrite getitem_out_of_range by lia. reflexivity.
    + rewrite (getitem_nth 0 ids k) by lia. cbn [bind]. apply IH; lia.
Qed.

(** X13. A camera frame on which the pattern is detected is labelled with
    all its keypoints, in the order of the detection: a chessboard keypoint
    is its pixel, a charuco keypoint its pixel and the id at the same
    position of the id list.  This needs a first keypoint with finite
    coordinates (it is rounded for drawing) that [cv2.line] can mark on
    the image, and an id for every keypoint. *)
Theorem rgb_detection_is_labelled self m kp kps :
  modality self = "rgb"%string -> msg self = Some m ->
  det_detected (pattern_detect m) = true ->
  det_keypoints (pattern_detect m) = kp :: kps ->
  is_finite (fst kp) = true -> is_finite (snd kp) = true ->
  (forall x y, round_half_even (fst kp) = Ok x -> round_half_even (snd kp) = Ok y ->
               cv2_line m x y = true) ->
  (forall ids, det_ids (pattern_detect m) = Some ids -> len (kp :: kps) <= len ids) ->
  labelData self
  = (Ok tt,
     set_labels self
       (mkLabels true
          match det_ids (pattern_detect m) with
          | Some ids => map (charuco_keypoint ids) (enumerate (kp :: kps))
          | None => map chessboard_keypoint (kp :: kps)
          end
          (idxs_limit_points (labels self)))).
Proof.
  intros Hmd Hm Hdet Hkps Hx Hy Hline Hids.
  destruct (round_half_even_finite _ Hx) as [zx Ex].
  destruct (round_half_even_finite _ Hy) as [zy Ey].
  pose proof (Hline zx zy Ex Ey) as Hl.
  rewrite (labelData_rgb_branch self Hmd).
  unfold labelData_rgb, mbind, attr, lift.
  cbn [msg set_labels]. rewrite Hm, Hdet, Hkps.
  destruct (det_ids (pattern_detect m)) as [ids|].
  - unfold enumerate. rewrite charuco_loop; [|lia|apply Hids; reflexivity].
    cbn [app map enumerate_from]. rewrite getitem_head.
    cbn [charuco_keypoint keypoint_x keypoint_y fst snd]. rewrite Ex.
    cbn [charuco_keypoint keypoint_x keypoint_y fst snd]. rewrite Ey, Hl.
    reflexivity.
  - cbn [map]. rewrite getitem_head.
    cbn [chessboard_keypoint keypoint_x keypoint_y fst snd]. rewrite Ex.
    cbn [chessboard_keypoint keypoint_x keypoint_y fst snd]. rewrite Ey, Hl.
    reflexivity.
Qed.

(** X14. A detection that says detected but comes without a keypoint, or a
    charuco detection with fewer ids than keypoints, makes the labeling
    pass raise IndexError; the labels are then the reset ones (nothing
    detected, no index). *)
Theorem rgb_detection_short_of_data_raises self m :
  modality self = "rgb"%string -> msg self = Some m ->
  det_detected (pattern_detect m) = true ->
  (det_keypoints (pattern_detect m) = [] \/
   exists ids, det_ids (pattern_detect m) = Some ids /\
               len ids < len (det_keypoints (pattern_detect m))) ->
  labelData self
  = (Raise IndexError,
     set_labels self (mkLabels false [] (idxs_limit_points (labels self)))).
Proof.
  intros Hmd Hm Hdet Hshort.
  rewrite (labelData_rgb_branch self Hmd).
  unfold labelData_rgb, mbind, attr, lift.
  cbn [msg set_labels]. rewrite Hm, Hdet.
  destruct Hshort as [Hk|(ids & Hids & Hlt)].
  - rewrite Hk. destruct (det_ids (pattern_detect m)); reflexivity.
  - rewrite Hids. unfold enumerate.
    rewrite charuco_loop_short; [reflexivity| |lia].
    pose proof (len_nonneg ids). lia.
Qed.


(** X27. A complete detection whose first keypoint [cv2.line] cannot mark
    on the image (it raises, as it does on a pixel coordinate outside the
    range of a C int) is not labelled: the pass raises before it writes the
    labels, which stay the reset ones (nothing detected, no index). *)
Theorem rgb_keypoint_that_cannot_be_drawn_raises self m kp kps x y :
  modality self = "rgb"%string -> msg self = Some m ->
  det_detected (pattern_detect m) = true ->
  det_keypoints (pattern_detect m) = kp :: kps ->
  (forall ids, det_ids (pattern_detect m) = Some ids -> len (kp :: kps) <= len ids) ->
  round_half_even (fst kp) = Ok x -> round_half_even (snd kp) = Ok y ->
  cv2_line m x y = false ->
  exists e,
    labelData self
    = (Raise e, set_labels self (mkLabels false [] (idxs_limit_points (labels self)))).
Proof.
  intros Hmd Hm Hdet Hkps Hids Ex Ey Hline.
  rewrite (labelData_rgb_branch self Hmd).
  unfold labelData_rgb, mbind, attr, lift.
  cbn [msg set_labels]. rewrite Hm, Hdet, Hkps.
  destruct (det_ids (pattern_detect m)) as [ids|].
  - unfold enumerate. rewrite charuco_loop; [|lia|apply Hids; reflexivity].
    cbn [app map enumerate_from]. rewrite getitem_head.
    cbn [charuco_keypoint keypoint_x keypoint_y fst snd]. rewrite Ex.
    cbn [charuco_keypoint keypoint_x keypoint_y fst snd]. rewrite Ey, Hline.
    eexists. reflexivity.
  - cbn [map]. rewrite getitem_head.
    cbn [chessboard_keypoint keypoint_x keypoint_y fst snd]. rewrite Ex.
    cbn [chessboard_keypoint keypoint_x keypoint_y fst snd]. rewrite Ey, Hline.
    eexists. reflexivity.
Qed.

(** * Threads that wait *)

(** In an order, when no thread can move: both callbacks have ended, or the
    pass of the first thread has raised and the second thread waits for the
    lock. *)
Lemma in_order_stuck_shape ma mb self shared pa pb :
  in_order ma mb self shared pa pb ->
  locked self = false ->
  (forall s' p', ~ thread_step ma (shared, pa) (s', p')) ->
  (forall s' p', ~ thread_step mb (shared, pb) (s', p')) ->
  (exists oa ob, pa = Finished oa /\ pb = Finished ob) \/
  (exists e, pa = Finished (Raised e) /\ pb = AtAcquire /\ locked shared = true).
Proof.
  intros [(-> & -> & ->)|[(Hp & -> & Hl & F)|[(oa & -> & -> & E)|[(oa & sa & -> & Hp & Hl & E & F)|
          (oa & sa & ob & -> & -> & Ea & Eb)]]]] Hfree Ha Hb.
  - exfalso. apply (Ha (set_locked self true) AtStoreMsg). apply step_acquire. exact Hfree.
  - exfalso. destruct (in_pass_progress ma shared pa Hp) as (s' & p' & T). apply (Ha _ _ T).
  - right. symmetry in E. pose proof (callback_lock _ _ _ _ E) as L.
    destruct oa as [|e|].
    + exfalso. apply (Hb (set_locked shared true) AtStoreMsg). apply step_acquire. apply L.
    + exists e. repeat split. apply L.
    + destruct L as [L _]. congruence.
  - exfalso. destruct (in_pass_progress mb shared pb Hp) as (s' & p' & T). apply (Hb _ _ T).
  - left. exists oa, ob. split; reflexivity.
Qed.

(** X15. A thread waits for the lock forever only behind a pass that
    raised.  Of two threads that deliver a frame each to a labeler whose
    lock is free, whatever the interleaving: when no thread can move any
    more, either both callbacks have ended, or the pass of one thread has
    raised, the lock is still held, and the other thread stands at
    [lock.acquire()]. *)
Theorem a_thread_waits_forever_only_behind_a_raised_pass self m1 m2 c :
  locked self = false ->
  steps m1 m2 (mkConfig self AtAcquire AtAcquire) c ->
  stuck m1 m2 c ->
  (exists o1 o2, pc1 c = Finished o1 /\ pc2 c = Finished o2) \/
  (exists e, pc1 c = Finished (Raised e) /\ pc2 c = AtAcquire /\ locked (shared c) = true) \/
  (exists e, pc2 c = Finished (Raised e) /\ pc1 c = AtAcquire /\ locked (shared c) = true).
Proof.
  intros Hfree Hsteps Hstuck.
  assert (H1 : forall s' p', ~ thread_step m1 (shared c, pc1 c) (s', p')).
  { intros s' p' T. apply (Hstuck (mkConfig s' p' (pc2 c))).
    destruct c. apply step_thread1. exact T. }
  assert (H2 : forall s' p', ~ thread_step m2 (shared c, pc2 c) (s', p')).
  { intros s' p' T. apply (Hstuck (mkConfig s' (pc1 c) p')).
    destruct c. apply step_thread2. exact T. }
  destruct (steps_in_order m1 m2 self c Hsteps) as [O|O].
  - destruct (in_order_stuck_shape _ _ _ _ _ _ O Hfree H1 H2) as [(o1 & o2 & E1 & E2)|E].
    + left. eauto.
    + right. left. exact E.
  - destruct (in_order_stuck_shape _ _ _ _ _ _ O Hfree H2 H1) as [(o2 & o1 & E2 & E1)|E].
    + left. eauto.
    + right. right. exact E.
Qed.


(** * Coordinates that are not finite *)

(** A float strictly between 0 and a float is finite. *)
Lemma between_is_finite x b :
  (0 <? x)%float = true -> (x <? b)%float = true -> is_finite x = true.
Proof.
  rewrite !ltb_spec. change (Prim2SF 0) with (S754_zero false). unfold is_finite.
  destruct (Prim2SF x) as [s|[|]| |s m e]; try reflexivity; cbn; try discriminate.
  intros _. destruct (Prim2SF b) as [s'|[|]| |s' m' e']; cbn; discriminate.
Qed.

Lemma not_finite_not_accepted w h s :
  is_finite (seed_x s) = false \/ is_finite (seed_y s) = false -> accepted w h s = false.
Proof.
  intros H. unfold accepted.
  destruct (0 <? seed_x s)%float eqn:E1; [|reflexivity].
  destruct (seed_x s <? w - filter_border_edges * w)%float eqn:E2; [|reflexivity].
  destruct (0 <? seed_y s)%float eqn:E3; [|reflexivity].
  destruct (seed_y s <? h - filter_border_edges * h)%float eqn:E4; [|reflexivity].
  pose proof (between_is_finite _ _ E1 E2). pose proof (between_is_finite _ _ E3 E4).
  destruct H; congruence.
Qed.

(** X16. A candidate seed with a coordinate that is NaN or infinite never
    becomes the seed: the depth pass returns, keeps the labels of the
    frame, and resets the seed to the image centre. *)
Theorem depth_candidate_not_finite_resets_the_seed self m w h s fw fh cx cy :
  locked self = false -> label_data self = true -> modality self = "depth"%string ->
  fullResolution self = Some (w, h) -> seed self = Some s ->
  float_of_int w = Ok fw -> float_of_int h = Ok fh ->
  half_rounded w = Ok cx -> half_rounded h = Ok cy ->
  is_finite (seed_x (snd (labelDepthMsg m s))) = false \/
  is_finite (seed_y (snd (labelDepthMsg m s))) = false ->
  exists self',
    sensorDataReceivedCallback m self = (Returned, self') /\
    labels self' = fst (labelDepthMsg m s) /\
    seed self' = Some (mkSeed cx cy).
Proof.
  intros Hl Hld Hmd Hres Hs Hw Hh Hcx Hcy Hnf.
  destruct (callback_depth self m w h s fw fh cx cy) as (self' & E & _ & _ & _ & _ & Hlab & Hseed);
    try assumption.
  exists self'. split; [exact E|]. split; [exact Hlab|].
  rewrite Hseed, (not_finite_not_accepted fw fh _ Hnf). reflexivity.
Qed.




End Libm.

(** * Examples

    The statements above hold for every C library.  The examples below are
    run with [rounded_square], a C library whose [pow(x, 2.0)] is the
    correctly rounded square. *)

(** A witness of C10: a scan whose last reading is below the minimum loses
    its first point. *)
Lemma first_point_skip_rule_wraps_around_witness :
  exists cs,
    clustering rounded_square [1; 1; 0.1]%float [1; 1; 0.1]%float [0; 0; 0]%float = Ok cs /\
    (In 0 (flatten cs) <->
     below_minimum (coord [1; 1; 0.1]%float 0) = false /\
     below_minimum (last [1; 1; 0.1]%float 0%float) = false) /\
    (forall i, 0 < i < len [1; 1; 0.1]%float ->
       (In i (flatten cs) <->
        below_minimum (coord [1; 1; 0.1]%float i) = false /\
        below_minimum (coord [1; 1; 0.1]%float (i - 1)) = false)).
Proof.
  apply (first_point_skip_rule_wraps_around rounded_square
           [1; 1; 0.1]%float [1; 1; 0.1]%float [0; 0; 0]%float).
  - discriminate.
  - vm_compute. discriminate.
  - vm_compute. discriminate.
  - vm_compute. reflexivity.
Defined.

(** A witness of C3: three points, 0.1 apart. *)
Lemma clustering_single_cluster_witness :
  clustering rounded_square [1; 1; 1]%float [1; 1.1; 1.2]%float [0; 0; 0]%float
  = Ok [mkCluster 0 [0; 1; 2]].
Proof.
  apply (clustering_single_cluster rounded_square
           [1; 1; 1]%float [1; 1.1; 1.2]%float [0; 0; 0]%float).
  - discriminate.
  - reflexivity.
  - reflexivity.
  - intros r [<-|[<-|[<-|[]]]]; vm_compute; reflexivity.
  - intros i H0 H1. change (len [1; 1; 1]%float) with 3 in H1.
    assert (C : i = 0 \/ i = 1) by lia.
    destruct C as [-> | ->]; vm_compute; reflexivity.
Defined.

(** C3 as it is stated fails on the empty range array: no reading is below
    the minimum and no pair of points is too far apart, and there is no
    cluster at all. *)
Lemma clustering_single_cluster_counterexample :
  ~ (forall ranges xs ys,
       len xs = len ranges -> len ys = len ranges ->
       (forall r, In r ranges -> below_minimum r = false) ->
       (forall i, 0 <= i -> i + 1 < len ranges ->
                  within_threshold rounded_square xs ys i = true) ->
       exists c, clustering rounded_square ranges xs ys = Ok [c] /\ idxs c = indices ranges).
Proof.
  intros H. destruct (H [] [] []) as (c & E & _).
  - reflexivity.
  - reflexivity.
  - intros r [].
  - intros i H0 H1. change (len (@nil float)) with 0 in H1. lia.
  - discriminate E.
Qed.

(** A witness of C1: two readings of 0.1 m, both below the minimum range. *)
Lemma no_valid_point_raises_AttributeError_witness :
  sensorDataReceivedCallback rounded_square
    (scan [0.1; 0.1]%float [0.1; 0.1]%float [0; 0]%float) lidar2d_labeler =
  (Raised AttributeError,
   mkLabeler "sensor" "base_link" "/sensor/data" "lidar2d" true (mkLabels false [] None) true
     (Some (scan [0.1; 0.1]%float [0.1; 0.1]%float [0; 0]%float))
     (Some (mkPosition 0 0 0)) None None None).
Proof.
  apply (no_valid_point_raises_AttributeError rounded_square lidar2d_labeler _
           (mkPosition 0 0 0)).
  - reflexivity.
  - reflexivity.
  - reflexivity.
  - reflexivity.
  - intros ir [<-|[<-|[]]]; vm_compute; reflexivity.
Defined.

(** A witness of C4: a scan of two points 0.1 apart yields one cluster, and
    the pass raises before it is selected. *)
Lemma association_stops_before_selecting_a_cluster_witness :
  clustering rounded_square [1; 1]%float [1; 1.1]%float [0; 0]%float
  = Ok [mkCluster 0 [0; 1]] /\
  labelData_lidar2d rounded_square
    (set_msg lidar2d_labeler (scan [1; 1]%float [1; 1.1]%float [0; 0]%float))
  = (Raise AttributeError,
     set_msg lidar2d_labeler (scan [1; 1]%float [1; 1.1]%float [0; 0]%float)).
Proof.
  split; [vm_compute; reflexivity|].
  apply (association_stops_before_selecting_a_cluster rounded_square
           (set_msg lidar2d_labeler (scan [1; 1]%float [1; 1.1]%float [0; 0]%float))
           (scan [1; 1]%float [1; 1.1]%float [0; 0]%float)
           (mkPosition 0 0 0) (mkCluster 0 [0; 1]) []).
  - reflexivity.
  - reflexivity.
  - vm_compute. reflexivity.
Defined.

(** A witness of C5: a scan with two clusters, the marker at the origin. *)
Lemma lidar2d_frame_with_kept_point_is_not_labelled_witness :
  exists c cs,
    clustering rounded_square [1; 1; 5]%float [1; 1.1; 5]%float [0; 0; 0]%float
    = Ok (c :: cs) /\
    sensorDataReceivedCallback rounded_square
      (scan [1; 1; 5]%float [1; 1.1; 5]%float [0; 0; 0]%float) lidar2d_labeler =
    (Raised AttributeError,
     mkLabeler "sensor" "base_link" "/sensor/data" "lidar2d" true (mkLabels false [] None)
       true (Some (scan [1; 1; 5]%float [1; 1.1; 5]%float [0; 0; 0]%float))
       (Some (mkPosition 0 0 0)) None None None).
Proof.
  apply (lidar2d_frame_with_kept_point_is_not_labelled rounded_square lidar2d_labeler
           (scan [1; 1; 5]%float [1; 1.1; 5]%float [0; 0; 0]%float) (mkPosition 0 0 0)).
  - reflexivity.
  - reflexivity.
  - reflexivity.
  - reflexivity.
  - vm_compute. discriminate.
  - vm_compute. discriminate.
  - vm_compute. reflexivity.
  - vm_compute. reflexivity.
Defined.


(** A witness of C2: on a 100x100 image a candidate seed at pixel (0,0) resets
    the seed to (50,50), and a candidate at (50,50) is accepted unchanged. *)
Lemma depth_seed_gate_witness :
  (exists self',
     labelData rounded_square (set_msg depth_labeler (depth_frame 0 0)) = (Ok tt, self') /\
     labels self' = mkLabels true [Idx 0] (Some []) /\
     seed self' = Some (mkSeed 50 50)) /\
  (exists self',
     labelData rounded_square
       (set_msg (set_seed depth_labeler (mkSeed 20 30)) (depth_frame 50 50))
     = (Ok tt, self') /\
     labels self' = mkLabels true [Idx 0] (Some []) /\
     seed self' = Some (mkSeed 50 50)).
Proof.
  split.
  - apply (depth_seed_gate rounded_square
             (set_msg depth_labeler (depth_frame 0 0)) (depth_frame 0 0)
             100 100 (mkSeed 50 50) 100%float 100%float 50%float 50%float);
      vm_compute; reflexivity.
  - apply (depth_seed_gate rounded_square
             (set_msg (set_seed depth_labeler (mkSeed 20 30)) (depth_frame 50 50))
             (depth_frame 50 50) 100 100 (mkSeed 20 30) 100%float 100%float 50%float 50%float);
      vm_compute; reflexivity.
Defined.

(** C2 as it is stated fails at the left and the top border: on a 100x100
    image the candidate (1,1) is within the margin of 2.5 pixels, and it is
    accepted. *)
Lemma depth_seed_gate_counterexample :
  ~ (forall self m w h s fw fh cx cy self',
       modality self = "depth"%string ->
       msg self = Some m -> fullResolution self = Some (w, h) -> seed self = Some s ->
       float_of_int w = Ok fw -> float_of_int h = Ok fh ->
       half_rounded w = Ok cx -> half_rounded h = Ok cy ->
       labelData rounded_square self = (Ok tt, self') ->
       seed self' = Some (if inside_margins filter_border_edges fw fh (snd (labelDepthMsg m s))
                          then snd (labelDepthMsg m s)
                          else mkSeed cx cy)).
Proof.
  intros H.
  specialize (H (set_msg depth_labeler (depth_frame 1 1)) (depth_frame 1 1)
                100 100 (mkSeed 50 50) 100%float 100%float 50%float 50%float
                (set_labels (set_seed (set_msg depth_labeler (depth_frame 1 1)) (mkSeed 1 1))
                            (mkLabels true [Idx 0] (Some [])))).
  assert (E : Some (mkSeed 1 1) = Some (mkSeed 50 50)).
  { apply H; vm_compute; reflexivity. }
  apply (f_equal (fun o => match o with
                           | Some s => (seed_x s <? 2)%float
                           | None => false
                           end)) in E.
  vm_compute in E. discriminate E.
Qed.

(** A witness of C7: a 9x6 chessboard with squares of 0.1 m.  The grid is
    0.8 m by 0.5 m, its diagonal 0.943 m, and the threshold 0.8 times
    that. *)
Lemma tracker_threshold_is_0_8_diagonal_witness :
  grid_diagonal rounded_square 9 6 0.1 = Ok 0.9433981132056605%float /\
  exists self,
    init rounded_square (sensor "lidar3d") chessboard_9x6 true = Ok self /\
    tracker_threshold self = Some 0.7547184905645284%float.
Proof.
  split; [vm_compute; reflexivity|].
  apply (proj1 (tracker_threshold_is_0_8_diagonal rounded_square (sensor "lidar3d")
                  chessboard_9x6 eq_refl eq_refl) 0.9433981132056605%float).
  vm_compute. reflexivity.
Defined.

(** A witness of C8: a sonar is not a known modality. *)
Lemma unknown_modality_is_a_construction_error_witness :
  (exists e,
     init rounded_square (sensor "sonar") chessboard_9x6 true = Raise e /\
     (known_pattern chessboard_9x6 = true ->
      e = ValueError "Message type sonar for topic /sensor/datais of an unknown type.")) /\
  (exists self, init rounded_square (sensor "sonar") chessboard_9x6 false = Ok self) /\
  ~ In (Raised unknown_modality)
       (fst (deliver rounded_square
               [scan [1; 1]%float [1; 1]%float [0; 0]%float;
                scan [0.1]%float [0.1]%float [0]%float]
               lidar2d_labeler)).
Proof.
  split; [|split].
  - apply (unknown_modality_is_a_construction_error rounded_square
             (sensor "sonar") chessboard_9x6 true); reflexivity.
  - apply (unknown_modality_is_a_construction_error rounded_square
             (sensor "sonar") chessboard_9x6 false); reflexivity.
  - apply (unknown_modality_is_a_construction_error rounded_square
             (sensor "lidar2d") chessboard_9x6 true).
    vm_compute. reflexivity.
Defined.

(** C8 as it is stated fails when labeling is disabled: the labeler of a
    sonar is constructed. *)
Lemma unknown_modality_is_a_construction_error_counterexample :
  ~ (forall sensor_dict calib_pattern ld,
       known_modality (sd_modality sensor_dict) = false ->
       exists e, init rounded_square sensor_dict calib_pattern ld = Raise e).
Proof.
  intros H. destruct (H (sensor "sonar") chessboard_9x6 false) as [e E].
  - reflexivity.
  - discriminate E.
Qed.

(** A witness of C9: the first thread labels a depth frame, then the second
    thread another. *)
Lemma frames_are_labelled_one_at_a_time_witness :
  let m1 := depth_frame 20 30 in
  let m2 := depth_frame 40 10 in
  let c :=
    mkConfig
      (snd (sensorDataReceivedCallback rounded_square m2
              (snd (sensorDataReceivedCallback rounded_square m1 depth_labeler))))
      (Finished Returned) (Finished Returned) in
  in_pass (pc1 c) && in_pass (pc2 c) = false /\
  (deliver rounded_square [m1; m2] depth_labeler
   = ([thread_outcome (pc1 c); thread_outcome (pc2 c)], shared c) \/
   deliver rounded_square [m2; m1] depth_labeler
   = ([thread_outcome (pc2 c); thread_outcome (pc1 c)], shared c)).
Proof.
  intros m1 m2 c.
  destruct (frames_are_labelled_one_at_a_time rounded_square depth_labeler m1 m2 c)
    as [H1 H2].
  - apply (steps_trans rounded_square m1 m2 _
             (mkConfig (snd (sensorDataReceivedCallback rounded_square m1 depth_labeler))
                       (Finished Returned) AtAcquire)).
    + apply (thread1_runs_alone rounded_square m1 m2 depth_labeler AtAcquire). reflexivity.
    + apply (thread2_runs_alone rounded_square m1 m2
               (snd (sensorDataReceivedCallback rounded_square m1 depth_labeler))
               (Finished Returned)).
      reflexivity.
  - split; [exact H1|]. apply H2. apply stuck_finished.
Defined.

(** An example of X1: the second reading is below the minimum, so the
    points at indices 1 and 2 are skipped. *)
Lemma clusters_partition_kept_points_witness :
  exists cs,
    clustering rounded_square [1; 0.1; 1; 1]%float [0; 0; 0.1; 5]%float [0; 0; 0; 0]%float
    = Ok cs /\
    Forall (fun c => idxs c <> []) cs /\
    flatten cs = map fst (filter (valid_point [1; 0.1; 1; 1]%float)
                                 (enumerate [1; 0.1; 1; 1]%float)) /\
    (forall l1 i l2 j l3, flatten cs = l1 ++ i :: l2 ++ j :: l3 -> i < j).
Proof.
  apply (clusters_partition_kept_points rounded_square
           [1; 0.1; 1; 1]%float [0; 0; 0.1; 5]%float [0; 0; 0; 0]%float).
  - vm_compute. discriminate.
  - vm_compute. discriminate.
  - vm_compute. reflexivity.
Defined.

(** An example of X2: two clusters of two points each. *)
Lemma clusters_numbered_by_position_witness :
  map cluster_count [mkCluster 0 [0; 1]; mkCluster 1 [2; 3]] = [0; 1] /\
  (forall c, In c [mkCluster 0 [0; 1]; mkCluster 1 [2; 3]] ->
     0 <= cluster_count c < len [mkCluster 0 [0; 1]; mkCluster 1 [2; 3]] /\
     getitem [mkCluster 0 [0; 1]; mkCluster 1 [2; 3]] (cluster_count c) = Ok c).
Proof.
  apply (clusters_numbered_by_position rounded_square
           [1; 1; 1; 1]%float [0; 0.1; 5; 5.1]%float [0; 0; 0; 0]%float);
    [vm_compute; discriminate ..|vm_compute; reflexivity].
Defined.

(** An example of X3: the points at 0 and 0.1 are chained, the point at 5
    opens a new cluster. *)
Lemma clusters_break_at_far_points_witness :
  Forall (chained rounded_square [0; 0.1; 5; 5.1]%float [0; 0; 0; 0]%float)
         [mkCluster 0 [0; 1]; mkCluster 1 [2; 3]] /\
  separated rounded_square [0; 0.1; 5; 5.1]%float [0; 0; 0; 0]%float
            [mkCluster 0 [0; 1]; mkCluster 1 [2; 3]].
Proof.
  apply (clusters_break_at_far_points rounded_square
           [1; 1; 1; 1]%float [0; 0.1; 5; 5.1]%float [0; 0; 0; 0]%float);
    [vm_compute; discriminate ..|vm_compute; reflexivity].
Defined.

(** An example of X4: the pass of a 2D lidar labeler has raised, and the
    next scan waits. *)
Lemma raised_callback_blocks_later_frames_witness :
  locked (mkLabeler "sensor" "base_link" "/sensor/data" "lidar2d" true
            (mkLabels false [] None) true
            (Some (scan [0.1; 0.1]%float [0.1; 0.1]%float [0; 0]%float))
            (Some (mkPosition 0 0 0)) None None None) = true /\
  deliver rounded_square [scan [1; 1]%float [1; 1]%float [0; 0]%float]
    (mkLabeler "sensor" "base_link" "/sensor/data" "lidar2d" true
       (mkLabels false [] None) true
       (Some (scan [0.1; 0.1]%float [0.1; 0.1]%float [0; 0]%float))
       (Some (mkPosition 0 0 0)) None None None)
  = ([Blocked],
     mkLabeler "sensor" "base_link" "/sensor/data" "lidar2d" true
       (mkLabels false [] None) true
       (Some (scan [0.1; 0.1]%float [0.1; 0.1]%float [0; 0]%float))
       (Some (mkPosition 0 0 0)) None None None).
Proof.
  apply (raised_callback_blocks_later_frames rounded_square
           (scan [0.1; 0.1]%float [0.1; 0.1]%float [0; 0]%float) lidar2d_labeler
           AttributeError _ [scan [1; 1]%float [1; 1]%float [0; 0]%float]).
  reflexivity.
Defined.

(** An example of X5: a labeler of an unknown modality that does not
    label. *)
Lemma disabled_labeler_only_stores_frames_witness :
  deliver rounded_square [scan [0.1]%float [0.1]%float [0]%float; depth_frame 1 1]
    (mkLabeler "sensor" "base_link" "/sensor/data" "sonar" false (mkLabels false [] None)
       false None None None None None)
  = ([Returned; Returned],
     mkLabeler "sensor" "base_link" "/sensor/data" "sonar" false (mkLabels false [] None)
       false (Some (depth_frame 1 1)) None None None None).
Proof.
  apply (disabled_labeler_only_stores_frames rounded_square
           [scan [0.1]%float [0.1]%float [0]%float; depth_frame 1 1]); reflexivity.
Defined.

(** An example of X8: three scans delivered to a 2D lidar labeler. *)
Lemma lidar2d_labeler_stops_at_its_first_frame_witness :
  exists e,
    fst (deliver rounded_square
           (scan [1; 1; 5]%float [1; 1.1; 5]%float [0; 0; 0]%float
            :: [scan [0.1; 0.1]%float [0.1; 0.1]%float [0; 0]%float;
                scan [1; 1; 5]%float [1; 1.1; 5]%float [0; 0; 0]%float])
           lidar2d_labeler)
    = Raised e :: repeat Blocked 2 /\
    (forall cs,
       clustering rounded_square [1; 1; 5]%float [1; 1.1; 5]%float [0; 0; 0]%float = Ok cs ->
       e = AttributeError) /\
    detected (labels (snd (deliver rounded_square
           (scan [1; 1; 5]%float [1; 1.1; 5]%float [0; 0; 0]%float
            :: [scan [0.1; 0.1]%float [0.1; 0.1]%float [0; 0]%float;
                scan [1; 1; 5]%float [1; 1.1; 5]%float [0; 0; 0]%float])
           lidar2d_labeler))) = false /\
    labels_idxs (labels (snd (deliver rounded_square
           (scan [1; 1; 5]%float [1; 1.1; 5]%float [0; 0; 0]%float
            :: [scan [0.1; 0.1]%float [0.1; 0.1]%float [0; 0]%float;
                scan [1; 1; 5]%float [1; 1.1; 5]%float [0; 0; 0]%float])
           lidar2d_labeler))) = [].
Proof.
  apply (lidar2d_labeler_stops_at_its_first_frame rounded_square lidar2d_labeler
           (scan [1; 1; 5]%float [1; 1.1; 5]%float [0; 0; 0]%float)
           [scan [0.1; 0.1]%float [0.1; 0.1]%float [0; 0]%float;
            scan [1; 1; 5]%float [1; 1.1; 5]%float [0; 0; 0]%float]); reflexivity.
Defined.

(** An example of X9: a candidate at the border, then one inside. *)
Lemma depth_labeler_labels_every_frame_witness :
  exists w h fw fh cx cy s,
    sd_camera_info (sensor "depth") = Some (w, h) /\
    float_of_int w = Ok fw /\ float_of_int h = Ok fh /\
    half_rounded w = Ok cx /\ half_rounded h = Ok cy /\
    seed depth_labeler = Some (mkSeed cx cy) /\
    fst (deliver rounded_square [depth_frame 0 0; depth_frame 20 30] depth_labeler)
    = repeat Returned (List.length [depth_frame 0 0; depth_frame 20 30]) /\
    seed (snd (deliver rounded_square [depth_frame 0 0; depth_frame 20 30] depth_labeler))
    = Some s /\
    (s = mkSeed cx cy \/ accepted fw fh s = true).
Proof.
  apply (depth_labeler_labels_every_frame rounded_square (sensor "depth") chessboard_9x6
           depth_labeler [depth_frame 0 0; depth_frame 20 30]).
  - reflexivity.
  - vm_compute. reflexivity.
Defined.

(** An example of X10: two clouds delivered to the labeler of a 3D lidar;
    the marker moves one metre along x with each. *)
Lemma lidar3d_labeler_tracks_from_frame_to_frame_witness :
  exists t p,
    tracker_threshold lidar3d_labeler = Some t /\
    fst (deliver rounded_square ([cloud_frame] ++ [cloud_frame]) lidar3d_labeler)
    = repeat Returned (List.length ([cloud_frame] ++ [cloud_frame])) /\
    marker (snd (deliver rounded_square [cloud_frame] lidar3d_labeler)) = Some p /\
    labels (snd (deliver rounded_square ([cloud_frame] ++ [cloud_frame]) lidar3d_labeler))
    = fst (labelPointCloud2Msg cloud_frame p t) /\
    marker (snd (deliver rounded_square ([cloud_frame] ++ [cloud_frame]) lidar3d_labeler))
    = Some (snd (labelPointCloud2Msg cloud_frame p t)).
Proof.
  apply (lidar3d_labeler_tracks_from_frame_to_frame rounded_square (sensor "lidar3d")
           chessboard_9x6 lidar3d_labeler [cloud_frame] cloud_frame).
  - reflexivity.
  - vm_compute. reflexivity.
  - intros t _. repeat constructor; intros p; vm_compute; reflexivity.
Defined.

(** An example of X11: a click at pixel (10, 20) of the image shown. *)
Lemma mouse_click_seeds_the_next_depth_frame_witness :
  exists self1 self2,
    mouseClickReceivedCallback 10 20 depth_labeler = (Ok tt, self1) /\
    seed self1 = Some (mkSeed (10 * 2) (20 * 2)) /\
    sensorDataReceivedCallback rounded_square (depth_frame 30 30) self1 = (Returned, self2) /\
    labels self2 = fst (labelDepthMsg (depth_frame 30 30) (mkSeed (10 * 2) (20 * 2))) /\
    seed self2
    = Some (if accepted 100 100 (snd (labelDepthMsg (depth_frame 30 30)
                                        (mkSeed (10 * 2) (20 * 2))))
            then snd (labelDepthMsg (depth_frame 30 30) (mkSeed (10 * 2) (20 * 2)))
            else mkSeed 50 50).
Proof.
  apply (mouse_click_seeds_the_next_depth_frame rounded_square depth_labeler
           (depth_frame 30 30) 10 20 100 100 (mkSeed 50 50) 100 100 50 50);
    vm_compute; reflexivity.
Defined.

(** An example of X13: a charuco detection of two keypoints. *)
Lemma rgb_detection_is_labelled_witness :
  labelData rounded_square
    (set_msg rgb_labeler (image (mkDetection true [(1.5, 2); (3, 4)]%float (Some [7; 9]))))
  = (Ok tt,
     set_labels
       (set_msg rgb_labeler (image (mkDetection true [(1.5, 2); (3, 4)]%float (Some [7; 9]))))
       (mkLabels true [Keypoint 1.5 2 (Some 7); Keypoint 3 4 (Some 9)] None)).
Proof.
  apply (rgb_detection_is_labelled rounded_square
           (set_msg rgb_labeler
              (image (mkDetection true [(1.5, 2); (3, 4)]%float (Some [7; 9]))))
           (image (mkDetection true [(1.5, 2); (3, 4)]%float (Some [7; 9])))
           (1.5, 2)%float [(3, 4)%float]).
  - reflexivity.
  - reflexivity.
  - reflexivity.
  - reflexivity.
  - vm_compute. reflexivity.
  - vm_compute. reflexivity.
  - intros x y Hx Hy. vm_compute in Hx, Hy. injection Hx as <-. injection Hy as <-.
    vm_compute. reflexivity.
  - intros ids H. injection H as <-. vm_compute. discriminate.
Defined.

(** An example of X14: two keypoints and one id. *)
Lemma rgb_detection_short_of_data_raises_witness :
  labelData rounded_square
    (set_msg rgb_labeler (image (mkDetection true [(1.5, 2); (3, 4)]%float (Some [7]))))
  = (Raise IndexError,
     set_labels
       (set_msg rgb_labeler (image (mkDetection true [(1.5, 2); (3, 4)]%float (Some [7]))))
       (mkLabels false [] None)).
Proof.
  apply (rgb_detection_short_of_data_raises rounded_square
           (set_msg rgb_labeler (image (mkDetection true [(1.5, 2); (3, 4)]%float (Some [7]))))
           (image (mkDetection true [(1.5, 2); (3, 4)]%float (Some [7])))).
  - reflexivity.
  - reflexivity.
  - reflexivity.
  - right. exists [7]. split; [reflexivity|]. vm_compute. reflexivity.
Defined.

(** An example of X15: the pass of the first thread raises on a scan; the
    second thread waits. *)
Lemma a_thread_waits_forever_only_behind_a_raised_pass_witness :
  let m1 := scan [0.1; 0.1]%float [0.1; 0.1]%float [0; 0]%float in
  let m2 := scan [1; 1]%float [1; 1.1]%float [0; 0]%float in
  let c :=
    mkConfig (snd (sensorDataReceivedCallback rounded_square m1 lidar2d_labeler))
      (Finished (Raised AttributeError)) AtAcquire in
  (exists o1 o2, pc1 c = Finished o1 /\ pc2 c = Finished o2) \/
  (exists e, pc1 c = Finished (Raised e) /\ pc2 c = AtAcquire /\ locked (shared c) = true) \/
  (exists e, pc2 c = Finished (Raised e) /\ pc1 c = AtAcquire /\ locked (shared c) = true).
Proof.
  intros m1 m2 c.
  apply (a_thread_waits_forever_only_behind_a_raised_pass rounded_square
           lidar2d_labeler m1 m2 c).
  - reflexivity.
  - apply (thread1_runs_alone rounded_square m1 m2 lidar2d_labeler AtAcquire). reflexivity.
  - intros c' H. inversion H as [s p1 p2 s' p1' T|s p1 p2 s' p2' T]; subst.
    + inversion T.
    + inversion T as [s0 Hl| | | | |]; subst. vm_compute in Hl. discriminate Hl.
Defined.

(** An example of X16: the tracker returns NaN for x. *)
Lemma depth_candidate_not_finite_resets_the_seed_witness :
  exists self',
    sensorDataReceivedCallback rounded_square (depth_frame nan 30) depth_labeler
    = (Returned, self') /\
    labels self' = mkLabels true [Idx 0] (Some []) /\
    seed self' = Some (mkSeed 50 50).
Proof.
  apply (depth_candidate_not_finite_resets_the_seed rounded_square depth_labeler
           (depth_frame nan 30) 100 100 (mkSeed 50 50) 100 100 50 50);
    try (vm_compute; reflexivity).
  left. vm_compute. reflexivity.
Defined.


(** An example of X26: the labels come without limit points. *)
Lemma lidar3d_labels_without_limit_points_raise_witness :
  sensorDataReceivedCallback rounded_square cloud_frame_without_limit_points lidar3d_labeler =
  (Raised (KeyError "idxs_limit_points"),
   mkLabeler "sensor" "base_link" "/sensor/data" "lidar3d" true (mkLabels true [Idx 2] None)
     true (Some cloud_frame_without_limit_points) (Some (mkPosition 0.804 0.298 0.409))
     (Some 0.7547184905645284%float) None None).
Proof.
  apply (lidar3d_labels_without_limit_points_raise rounded_square lidar3d_labeler
           cloud_frame_without_limit_points (mkPosition 0.804 0.298 0.409)
           0.7547184905645284%float); reflexivity.
Defined.

(** An example of X27: a keypoint at x = 3e9, beyond the range of a C int. *)
Lemma rgb_keypoint_that_cannot_be_drawn_raises_witness :
  exists e,
    labelData rounded_square
      (set_msg rgb_labeler (image (mkDetection true [(3e9, 2)]%float None)))
    = (Raise e,
       set_labels (set_msg rgb_labeler (image (mkDetection true [(3e9, 2)]%float None)))
                  (mkLabels false [] None)).
Proof.
  apply (rgb_keypoint_that_cannot_be_drawn_raises rounded_square
           (set_msg rgb_labeler (image (mkDetection true [(3e9, 2)]%float None)))
           (image (mkDetection true [(3e9, 2)]%float None))
           (3e9, 2)%float [] 3000000000 2).
  - reflexivity.
  - reflexivity.
  - reflexivity.
  - reflexivity.
  - intros ids H. discriminate H.
  - vm_compute. reflexivity.
  - vm_compute. reflexivity.
  - vm_compute. reflexivity.
Defined.

(** * Dicts *)

Lemma dict_get_setitem_same {V : Type} (d : dict V) (k : string) (v : V) :
  dict_get (dict_setitem d k v) k = Some v.
Proof.
  induction d as [|[k' v'] d IH]; cbn [dict_setitem dict_get].
  - rewrite String.eqb_refl. reflexivity.
  - destruct (String.eqb k k') eqn:E; cbn [dict_get]; rewrite E; [reflexivity|exact IH].
Qed.

Lemma dict_get_setitem_other {V : Type} (d : dict V) (k k0 : string) (v : V) :
  k0 <> k -> dict_get (dict_setitem d k v) k0 = dict_get d k0.
Proof.
  intros N. induction d as [|[k' v'] d IH]; cbn [dict_setitem dict_get].
  - apply String.eqb_neq in N. rewrite N. reflexivity.
  - destruct (String.eqb k k') eqn:E; cbn [dict_get].
    + apply String.eqb_eq in E. subst k'.
      apply String.eqb_neq in N. rewrite N. reflexivity.
    + rewrite IH. reflexivity.
Qed.

Lemma dict_contains_setitem {V : Type} (d : dict V) (k k0 : string) (v : V) :
  dict_contains (dict_setitem d k v) k0 = String.eqb k0 k || dict_contains d k0.
Proof.
  unfold dict_contains. destruct (String.eqb k0 k) eqn:E.
  - apply String.eqb_eq in E. subst k0. rewrite dict_get_setitem_same. reflexivity.
  - apply String.eqb_neq in E. rewrite dict_get_setitem_other by exact E. reflexivity.
Qed.

(** Assigning to a key of the dict leaves the keys as they are. *)
Lemma dict_keys_setitem {V : Type} (d : dict V) (k : string) (v : V) :
  dict_contains d k = true -> dict_keys (dict_setitem d k v) = dict_keys d.
Proof.
  unfold dict_contains, dict_keys.
  induction d as [|[k' v'] d IH]; cbn [dict_setitem dict_get map fst]; [discriminate|].
  destruct (String.eqb k k') eqn:E; cbn [map fst]; [reflexivity|].
  intros H. rewrite IH by exact H. reflexivity.
Qed.

Lemma dict_contains_keys {V : Type} (d : dict V) (k : string) :
  dict_contains d k = true <-> In k (dict_keys d).
Proof.
  unfold dict_contains, dict_keys.
  induction d as [|[k' v'] d IH]; cbn [dict_get map fst In].
  - split; [discriminate|tauto].
  - destruct (String.eqb k k') eqn:E.
    + apply String.eqb_eq in E. subst k'. split; auto.
    + apply String.eqb_neq in E. rewrite IH. split; [auto|].
      intros [H|H]; [congruence|exact H].
Qed.

Lemma for_each_app {S A : Type} (body : S -> A -> result S) (l l' : list A) : forall st,
  for_each body (l ++ l') st = (st' <- for_each body l st ;; for_each body l' st').
Proof.
  induction l as [|a l IH]; intros st; cbn [app for_each bind]; [reflexivity|].
  destruct (body st a) as [st1|e]; cbn [bind]; [apply IH|reflexivity].
Qed.

(** * [create_display] *)

(** The loop of [create_display] over options that the display has. *)
Lemma create_display_loop display_type options : forall ks d,
  (forall k, In k ks -> dict_contains options k = true) ->
  (forall k, In k ks -> dict_contains d k = true) ->
  exists d',
    for_each (create_display_option display_type options) ks d = Ok d' /\
    dict_keys d' = dict_keys d /\
    forall k, dict_get d' k
              = if existsb (String.eqb k) ks then dict_get options k else dict_get d k.
Proof.
  induction ks as [|k0 ks IH]; intros d Ho Hd.
  - exists d. repeat split.
  - cbn [for_each]. unfold create_display_option at 1.
    rewrite (Hd k0 (or_introl eq_refl)). cbn [negb].
    pose proof (Ho k0 (or_introl eq_refl)) as Hk0. unfold dict_contains in Hk0.
    unfold dict_getitem. destruct (dict_get options k0) as [v|] eqn:Ev; [|discriminate].
    cbn [key bind].
    destruct (IH (dict_setitem d k0 v)) as (d' & E & K & G).
    + intros k Hk. apply Ho. right. exact Hk.
    + intros k Hk. rewrite dict_contains_setitem. rewrite (Hd k (or_intror Hk)).
      apply orb_true_r.
    + exists d'. split; [exact E|]. split.
      * rewrite K. apply dict_keys_setitem. apply Hd. left. reflexivity.
      * intros k. rewrite G. cbn [existsb].
        destruct (existsb (String.eqb k) ks); [rewrite orb_true_r; reflexivity|].
        rewrite orb_false_r. destruct (String.eqb k k0) eqn:E0.
        -- apply String.eqb_eq in E0. subst k0. rewrite dict_get_setitem_same.
           symmetry. exact Ev.
        -- apply String.eqb_neq in E0. apply dict_get_setitem_other. exact E0.
Qed.

Lemma existsb_eqb_keys {V : Type} (d : dict V) (k : string) :
  existsb (String.eqb k) (dict_keys d) = dict_contains d k.
Proof.
  destruct (dict_contains d k) eqn:E.
  - apply existsb_exists. exists k. split; [apply dict_contains_keys; exact E|].
    apply String.eqb_refl.
  - destruct (existsb (String.eqb k) (dict_keys d)) eqn:E'; [|reflexivity].
    apply existsb_exists in E'. destruct E' as (k' & Hin & Heq).
    apply String.eqb_eq in Heq. subst k'. apply dict_contains_keys in Hin. congruence.
Qed.

(** [create_display] on options that the display type has. *)
Lemma create_display_sets_the_options_aux display_type options d :
  dict_get display_dicts display_type = Some d ->
  (forall k, In k (dict_keys options) -> dict_contains d k = true) ->
  exists d',
    create_display display_type options = Ok d' /\
    dict_keys d' = dict_keys d /\
    forall k, dict_get d' k
              = match dict_get options k with
                | Some v => Some v
                | None => dict_get d k
                end.
Proof.
  intros Ht Hk. unfold create_display, dict_getitem. rewrite Ht. cbn [key bind].
  destruct (create_display_loop display_type options (dict_keys options) d)
    as (d' & E & K & G).
  - intros k H. apply dict_contains_keys. exact H.
  - exact Hk.
  - exists d'. split; [exact E|]. split; [exact K|].
    intros k. rewrite G, existsb_eqb_keys. unfold dict_contains.
    destruct (dict_get options k); reflexivity.
Qed.

(** X18. When the display type is one of the table and every option is an
    option of that type, [create_display] returns the default display of
    the type with the given options set: the dict has the keys of the
    default in their order, nothing added and nothing removed; a key of the
    options has the value given, every other key its default. *)
Theorem create_display_sets_the_options display_type options d :
  dict_get display_dicts display_type = Some d ->
  (forall k, In k (dict_keys options) -> dict_contains d k = true) ->
  exists d',
    create_display display_type options = Ok d' /\
    dict_keys d' = dict_keys d /\
    forall k, dict_get d' k
              = match dict_get options k with
                | Some v => Some v
                | None => dict_get d k
                end.
Proof. exact (create_display_sets_the_options_aux display_type options d). Qed.

Lemma create_display_sets_the_options_witness :
  exists d',
    create_display "rviz/InteractiveMarkers" marker_options = Ok d' /\
    dict_keys d'
    = dict_keys match dict_get display_dicts "rviz/InteractiveMarkers" with
                | Some d => d
                | None => []
                end /\
    forall k, dict_get d' k
              = match dict_get marker_options k with
                | Some v => Some v
                | None => dict_get match dict_get display_dicts "rviz/InteractiveMarkers" with
                                   | Some d => d
                                   | None => []
                                   end k
                end.
Proof.
  apply (create_display_sets_the_options "rviz/InteractiveMarkers" marker_options).
  - reflexivity.
  - intros k [<-|[<-|[]]]; reflexivity.
Defined.

(** The first element of a list that fails a test. *)
Lemma first_failure {A : Type} (f : A -> bool) (l : list A) :
  (forall a, In a l -> f a = true) \/
  (exists pre a post, l = pre ++ a :: post /\
                      (forall a', In a' pre -> f a' = true) /\ f a = false).
Proof.
  induction l as [|a l IH].
  - left. intros a [].
  - destruct (f a) eqn:E.
    + destruct IH as [H|(pre & b & post & -> & Hpre & Hb)].
      * left. intros a' [<-|H']; auto.
      * right. exists (a :: pre), b, post. split; [reflexivity|]. split; [|exact Hb].
        intros a' [<-|H']; auto.
    + right. exists [], a, l. split; [reflexivity|]. split; [intros a' []|exact E].
Qed.

(** X19. What [create_display] does on any input: a display type that the
    table lacks raises KeyError; otherwise, if every option is an option of
    the type, the call returns; otherwise it raises ValueError, and the
    message names the first option, in the order of the dict of options,
    that the type does not have. *)
Theorem create_display_rejects_unknown_names display_type options :
  (dict_get display_dicts display_type = None /\
   create_display display_type options = Raise (KeyError display_type))
  \/
  (exists d,
     dict_get display_dicts display_type = Some d /\
     ((forall k, In k (dict_keys options) -> dict_contains d k = true) /\
      returns (create_display display_type options) = true
      \/
      exists pre k post,
        dict_keys options = pre ++ k :: post /\
        (forall k', In k' pre -> dict_contains d k' = true) /\
        dict_contains d k = false /\
        create_display display_type options
        = Raise (ValueError ("Option " ++ k ++ " does not exist for " ++ display_type)))).
Proof.
  destruct (dict_get display_dicts display_type) as [d|] eqn:Ht.
  2:{ left. split; [reflexivity|]. unfold create_display, dict_getitem. rewrite Ht.
      reflexivity. }
  right. exists d. split; [reflexivity|].
  destruct (first_failure (dict_contains d) (dict_keys options))
    as [Hall|(pre & k & post & Hk & Hpre & Hbad)].
  - left. split; [exact Hall|].
    destruct (create_display_sets_the_options_aux display_type options d Ht Hall) as (d' & E & _).
    rewrite E. reflexivity.
  - right. exists pre, k, post. split; [exact Hk|]. split; [exact Hpre|]. split; [exact Hbad|].
    unfold create_display, dict_getitem. rewrite Ht. cbn [key bind]. rewrite Hk.
    rewrite for_each_app.
    destruct (create_display_loop display_type options pre d) as (d1 & E1 & K1 & _).
    + intros k' H. apply dict_contains_keys. rewrite Hk. apply in_or_app. left. exact H.
    + exact Hpre.
    + rewrite E1. cbn [bind for_each]. unfold create_display_option at 1.
      assert (Hbad1 : dict_contains d1 k = false).
      { destruct (dict_contains d1 k) eqn:E; [|reflexivity].
        apply dict_contains_keys in E. rewrite K1 in E. apply dict_contains_keys in E.
        congruence. }
      rewrite Hbad1. reflexivity.
Qed.

(** * The check of the sensor topics *)

(** A pass through the body of the loop that returns. *)
Lemma verify_sensor_returns i ct k ct' :
  verify_sensor i ct k = Ok ct' ->
  exists topic,
    sensor_topic i k topic /\
    topic_available (bag_topics i) topic = true /\
    ct' = if dict_contains (bag_topics i) topic then ct
          else dict_setitem ct topic
                 (mkCompressedTopic (topic ++ "/compressed") "sensor_msgs/CompressedImage" k).
Proof.
  unfold verify_sensor, dict_getitem, sensor_topic, topic_available.
  destruct (dict_get (sensors i) k) as [s|]; [|discriminate]. cbn [key bind].
  destruct (dict_get s "topic_name") as [topic|] eqn:Et; [|discriminate]. cbn [key bind].
  destruct (dict_contains (bag_topics i) topic) eqn:Eb; cbn [negb orb].
  - intros H. injection H as <-. exists topic. rewrite Eb. cbn [orb].
    split; [exists s; split; [reflexivity|exact Et]|]. split; reflexivity.
  - unfold dict_contains at 1.
    destruct (dict_get (bag_topics i) (topic ++ "/compressed")) as [t|] eqn:Ec;
      [|discriminate].
    cbn [key bind]. destruct (String.eqb t "sensor_msgs/CompressedImage") eqn:Etype;
      [|discriminate].
    intros H. injection H as <-. exists topic. rewrite Eb, Ec, Etype. cbn [orb].
    apply String.eqb_eq in Etype. subst t.
    split; [exists s; split; [reflexivity|exact Et]|]. split; reflexivity.
Qed.

(** The body of the loop returns on a sensor whose topic is available. *)
Lemma verify_sensor_available i ct k topic :
  sensor_topic i k topic -> topic_available (bag_topics i) topic = true ->
  exists ct', verify_sensor i ct k = Ok ct'.
Proof.
  intros (s & Hs & Ht) Ha. unfold verify_sensor, dict_getitem.
  rewrite Hs. cbn [key bind]. rewrite Ht. cbn [key bind].
  unfold topic_available in Ha.
  destruct (dict_contains (bag_topics i) topic); cbn [negb orb] in *; [eauto|].
  unfold dict_contains at 1.
  destruct (dict_get (bag_topics i) (topic ++ "/compressed")) as [t|]; [|discriminate].
  cbn [key bind]. rewrite Ha. eauto.
Qed.

Lemma sensor_topic_unique i k topic topic' :
  sensor_topic i k topic -> sensor_topic i k topic' -> topic = topic'.
Proof.
  intros (s & Hs & Ht) (s' & Hs' & Ht'). congruence.
Qed.

(** The loop of the check on keys whose topics are available. *)
Lemma verify_loop_available i : forall ks ct,
  (forall k, In k ks ->
     exists topic, sensor_topic i k topic /\ topic_available (bag_topics i) topic = true) ->
  exists ct', for_each (verify_sensor i) ks ct = Ok ct'.
Proof.
  induction ks as [|k ks IH]; intros ct H; [exists ct; reflexivity|].
  destruct (H k (or_introl eq_refl)) as (topic & Ht & Ha).
  destruct (verify_sensor_available i ct k topic Ht Ha) as [ct1 E1].
  cbn [for_each]. rewrite E1. cbn [bind]. apply IH.
  intros k' Hk'. apply H. right. exact Hk'.
Qed.

(** The loop of the check when it returns. *)
Lemma verify_loop_returns i : forall ks ct ct',
  for_each (verify_sensor i) ks ct = Ok ct' ->
  (forall k, In k ks ->
     exists topic, sensor_topic i k topic /\ topic_available (bag_topics i) topic = true) /\
  (forall topic,
     dict_contains ct' topic = true <->
     dict_contains ct topic = true \/
     (exists k, In k ks /\ sensor_topic i k topic) /\
     dict_contains (bag_topics i) topic = false) /\
  (forall topic c,
     dict_get ct' topic = Some c ->
     dict_get ct topic = Some c \/
     (topic_compressed c = (topic ++ "/compressed")%string /\
      msg_type c = "sensor_msgs/CompressedImage"%string /\
      In (sensor_key c) ks /\ sensor_topic i (sensor_key c) topic)).
Proof.
  induction ks as [|k ks IH]; intros ct ct' E.
  - cbn in E. injection E as <-. split; [intros k []|]. split.
    + intros topic. split; [auto|]. intros [H|[(k & [] & _) _]]. exact H.
    + intros topic c H. left. exact H.
  - cbn [for_each] in E.
    destruct (verify_sensor i ct k) as [ct1|e] eqn:E1; [|discriminate]. cbn [bind] in E.
    destruct (verify_sensor_returns i ct k ct1 E1) as (topic0 & Ht0 & Ha0 & Hct1).
    destruct (IH ct1 ct' E) as (Hall & Hin & Hget).
    split; [|split].
    + intros k' [<-|Hk']; [exists topic0; auto|apply Hall; exact Hk'].
    + intros topic. rewrite Hin. rewrite Hct1.
      destruct (dict_contains (bag_topics i) topic0) eqn:Eb.
      * split.
        -- intros [H|[(k' & Hk' & Ht') Hb]]; [left; exact H|].
           right. split; [exists k'; split; [right; exact Hk'|exact Ht']|exact Hb].
        -- intros [H|[(k' & [<-|Hk'] & Ht') Hb]]; [left; exact H| |].
           ++ rewrite (sensor_topic_unique i k topic topic0 Ht' Ht0) in Hb. congruence.
           ++ right. split; [exists k'; split; assumption|exact Hb].
      * rewrite dict_contains_setitem. split.
        -- intros [H|[(k' & Hk' & Ht') Hb]].
           ++ apply orb_true_iff in H. destruct H as [H|H]; [|left; exact H].
              apply String.eqb_eq in H. subst topic. right.
              split; [exists k; split; [left; reflexivity|exact Ht0]|exact Eb].
           ++ right. split; [exists k'; split; [right; exact Hk'|exact Ht']|exact Hb].
        -- intros [H|[(k' & [<-|Hk'] & Ht') Hb]].
           ++ left. rewrite H. apply orb_true_r.
           ++ left. rewrite (sensor_topic_unique i k topic topic0 Ht' Ht0).
              rewrite String.eqb_refl. reflexivity.
           ++ right. split; [exists k'; split; assumption|exact Hb].
    + intros topic c Hc. destruct (Hget topic c Hc) as [H|(H1 & H2 & H3 & H4)].
      * rewrite Hct1 in H. destruct (dict_contains (bag_topics i) topic0); [left; exact H|].
        destruct (String.eqb topic topic0) eqn:Et.
        -- apply String.eqb_eq in Et. subst topic0. rewrite dict_get_setitem_same in H.
           injection H as <-. right. cbn. repeat split; auto.
        -- apply String.eqb_neq in Et. rewrite dict_get_setitem_other in H by exact Et.
           left. exact H.
      * right. repeat split; auto. right. exact H3.
Qed.

(** X20. The check of the topics returns exactly when every sensor of the
    configuration names a topic that is in the bag, or whose compressed
    variant ([topic + '/compressed']) is in the bag with the message type
    sensor_msgs/CompressedImage. *)
Theorem verify_topics_returns_iff_topics_available i :
  returns (verify_topics i) = true <->
  (forall k, In k (dict_keys (sensors i)) ->
     exists topic, sensor_topic i k topic /\ topic_available (bag_topics i) topic = true).
Proof.
  unfold verify_topics. split.
  - destruct (for_each _ _ _) as [ct|e] eqn:E; [|discriminate]. intros _.
    apply (verify_loop_returns i _ _ _ E).
  - intros H. destruct (verify_loop_available i _ [] H) as [ct ->]. reflexivity.
Qed.

(** X21. When the check returns, the compressed topics it hands to the
    launch file are exactly the sensor topics that are not in the bag, and
    the entry of a topic names its compressed variant, the message type
    sensor_msgs/CompressedImage and a sensor of that topic. *)
Theorem compressed_topics_are_the_topics_missing_from_the_bag i ct :
  verify_topics i = Ok ct ->
  (forall topic,
     dict_contains ct topic = true <->
     (exists k, sensor_topic i k topic) /\ dict_contains (bag_topics i) topic = false) /\
  (forall topic c,
     dict_get ct topic = Some c ->
     topic_compressed c = (topic ++ "/compressed")%string /\
     msg_type c = "sensor_msgs/CompressedImage"%string /\
     sensor_topic i (sensor_key c) topic).
Proof.
  unfold verify_topics. intros E.
  destruct (verify_loop_returns i _ _ _ E) as (_ & Hin & Hget). split.
  - intros topic. rewrite Hin. split.
    + intros [H|[(k & _ & Ht) Hb]]; [discriminate H|]. split; [exists k; exact Ht|exact Hb].
    + intros [(k & Ht) Hb]. right. split; [|exact Hb]. exists k. split; [|exact Ht].
      destruct Ht as (s & Hs & _). apply dict_contains_keys. unfold dict_contains.
      rewrite Hs. reflexivity.
  - intros topic c Hc. destruct (Hget topic c Hc) as [H|(H1 & H2 & _ & H4)];
      [discriminate H|auto].
Qed.

(** X22. After a check that returned, both display loops find the message
    type of every sensor topic, and the same one: the lookup of line 289
    does not raise KeyError, and the ValueError of line 356 is never
    raised. *)
Theorem verified_topics_have_a_message_type i ct k topic :
  verify_topics i = Ok ct -> sensor_topic i k topic ->
  exists t,
    initial_estimate_msg_type i topic = Ok t /\
    collect_data_msg_type i topic = Ok t /\
    (dict_contains (bag_topics i) topic = false -> t = "sensor_msgs/CompressedImage"%string).
Proof.
  unfold verify_topics. intros E Ht.
  destruct (verify_loop_returns i _ _ _ E) as (Hall & _).
  destruct (Hall k) as (topic' & Ht' & Ha).
  { destruct Ht as (s & Hs & _). apply dict_contains_keys. unfold dict_contains.
    rewrite Hs. reflexivity. }
  rewrite <- (sensor_topic_unique i k topic topic' Ht Ht') in Ha.
  unfold topic_available in Ha.
  unfold initial_estimate_msg_type, collect_data_msg_type, dict_getitem.
  destruct (dict_contains (bag_topics i) topic) eqn:Eb.
  - unfold dict_contains in Eb. destruct (dict_get (bag_topics i) topic) as [t|];
      [|discriminate]. exists t. repeat split. discriminate.
  - cbn [orb] in Ha. unfold dict_contains.
    destruct (dict_get (bag_topics i) (topic ++ "/compressed")) as [t|]; [|discriminate].
    apply String.eqb_eq in Ha. exists t. repeat split. intros _. exact Ha.
Qed.

Lemma compressed_topics_are_the_topics_missing_from_the_bag_witness :
  (forall topic,
     dict_contains
       [("/camera/image"%string,
         mkCompressedTopic "/camera/image/compressed" "sensor_msgs/CompressedImage" "camera")]
       topic = true <->
     (exists k, sensor_topic camera_and_lidar k topic) /\
     dict_contains (bag_topics camera_and_lidar) topic = false) /\
  (forall topic c,
     dict_get
       [("/camera/image"%string,
         mkCompressedTopic "/camera/image/compressed" "sensor_msgs/CompressedImage" "camera")]
       topic = Some c ->
     topic_compressed c = (topic ++ "/compressed")%string /\
     msg_type c = "sensor_msgs/CompressedImage"%string /\
     sensor_topic camera_and_lidar (sensor_key c) topic).
Proof.
  apply (compressed_topics_are_the_topics_missing_from_the_bag camera_and_lidar).
  vm_compute. reflexivity.
Defined.

Lemma verified_topics_have_a_message_type_witness :
  exists t,
    initial_estimate_msg_type camera_and_lidar "/camera/image" = Ok t /\
    collect_data_msg_type camera_and_lidar "/camera/image" = Ok t /\
    (dict_contains (bag_topics camera_and_lidar) "/camera/image" = false ->
     t = "sensor_msgs/CompressedImage"%string).
Proof.
  apply (verified_topics_have_a_message_type camera_and_lidar
           [("/camera/image"%string,
             mkCompressedTopic "/camera/image/compressed" "sensor_msgs/CompressedImage"
               "camera")]
           "camera" "/camera/image").
  - vm_compute. reflexivity.
  - exists [("topic_name"%string, "/camera/image"%string)]. split; reflexivity.
Defined.

(** * The displays of collect_data.rviz *)

(** The calls of [create_display] in the script. *)
Lemma script_calls display_name topic color style alpha :
  (exists d, create_display "rviz/InteractiveMarkers" marker_options = Ok d /\
             dict_get d "Name" = Some (VStr "ManualDataLabeler-InteractiveMarkers") /\
             dict_get d "Class" = Some (VStr "rviz/InteractiveMarkers")) /\
  (exists d, create_display "rviz/Image" (image_options display_name topic) = Ok d /\
             dict_get d "Name" = Some (VStr display_name) /\
             dict_get d "Class" = Some (VStr "rviz/Image")) /\
  (exists d, create_display "rviz/Camera" (image_options display_name topic) = Ok d /\
             dict_get d "Name" = Some (VStr display_name) /\
             dict_get d "Class" = Some (VStr "rviz/Camera")) /\
  (exists d, create_display "rviz/LaserScan" (laser_scan_options display_name topic color)
             = Ok d /\
             dict_get d "Name" = Some (VStr display_name) /\
             dict_get d "Class" = Some (VStr "rviz/LaserScan")) /\
  (exists d, create_display "rviz/PointCloud2"
               (point_cloud2_options display_name topic color style alpha) = Ok d /\
             dict_get d "Name" = Some (VStr display_name) /\
             dict_get d "Class" = Some (VStr "rviz/PointCloud2")).
Proof.
  repeat split; eexists; (split; [reflexivity|split; reflexivity]).
Qed.

(** X23. No call of [create_display] in the script raises: every option
    that the script sets, for the marker, image, camera, laser scan and
    point cloud displays, is an option of the display type, whatever the
    names, topics and colours are; and the display returned has the name
    given and the class of its type. *)
Theorem script_display_options_exist display_name topic color style alpha :
  (exists d, create_display "rviz/InteractiveMarkers" marker_options = Ok d /\
             dict_get d "Name" = Some (VStr "ManualDataLabeler-InteractiveMarkers") /\
             dict_get d "Class" = Some (VStr "rviz/InteractiveMarkers")) /\
  (exists d, create_display "rviz/Image" (image_options display_name topic) = Ok d /\
             dict_get d "Name" = Some (VStr display_name) /\
             dict_get d "Class" = Some (VStr "rviz/Image")) /\
  (exists d, create_display "rviz/Camera" (image_options display_name topic) = Ok d /\
             dict_get d "Name" = Some (VStr display_name) /\
             dict_get d "Class" = Some (VStr "rviz/Camera")) /\
  (exists d, create_display "rviz/LaserScan" (laser_scan_options display_name topic color)
             = Ok d /\
             dict_get d "Name" = Some (VStr display_name) /\
             dict_get d "Class" = Some (VStr "rviz/LaserScan")) /\
  (exists d, create_display "rviz/PointCloud2"
               (point_cloud2_options display_name topic color style alpha) = Ok d /\
             dict_get d "Name" = Some (VStr display_name) /\
             dict_get d "Class" = Some (VStr "rviz/PointCloud2")).
Proof. exact (script_calls display_name topic color style alpha). Qed.

(** A pass through the body of the loop of collect_data.rviz on a sensor
    that passed the check of the topics and whose colour can be computed. *)
Lemma collect_data_sensor_verified i displays idx k topic :
  sensor_topic i k topic -> topic_available (bag_topics i) topic = true ->
  returns (rviz_color i idx) = true ->
  if laser_scan_sensor i k
  then collect_data_sensor i displays (idx, k) = Failed (NameError "wg")
  else exists rest, collect_data_sensor i displays (idx, k) = Done (displays ++ rest).
Proof.
  intros (s & Hs & Ht) Ha Hc.
  destruct (rviz_color i idx) as [color|] eqn:Ec; [clear Hc|discriminate].
  unfold laser_scan_sensor, collect_data_sensor, dict_getitem.
  rewrite Hs. cbn [key builtin run_bind]. rewrite Ht. cbn [key builtin run_bind].
  unfold collect_data_msg_type, dict_getitem. unfold topic_available in Ha.
  unfold dict_contains in *.
  destruct (dict_get (bag_topics i) topic) as [t|] eqn:Et; cbn [orb key builtin run_bind] in *.
  - destruct (String.eqb t "sensor_msgs/LaserScan") eqn:El.
    + apply String.eqb_eq in El. subst t.
      cbn [String.eqb Ascii.eqb Bool.eqb orb]. rewrite Ec. cbn [builtin run_bind].
      destruct (script_calls (k ++ "-LaserScan") topic color "" (VInt 0))
        as (_ & _ & _ & (d & -> & _) & _).
      reflexivity.
    + destruct (String.eqb t "sensor_msgs/CompressedImage"
                || String.eqb t "sensor_msgs/Image").
      * destruct (script_calls (k ++ "-Image") topic "" "" (VInt 0))
          as (_ & (d1 & -> & _) & _).
        destruct (script_calls (k ++ "-Labels" ++ "-Image") (topic ++ "/labeled") "" ""
                    (VInt 0)) as (_ & (d2 & -> & _) & _).
        destruct (script_calls (k ++ "-Camera") topic "" "" (VInt 0))
          as (_ & _ & (d3 & -> & _) & _).
        cbn [builtin run_bind]. eexists. rewrite <- !app_assoc. reflexivity.
      * destruct (String.eqb t "sensor_msgs/PointCloud2").
        -- rewrite Ec. cbn [builtin run_bind].
           destruct (script_calls (k ++ "-PointCloud2") topic color "Points" (VInt 1))
             as (_ & _ & _ & _ & (d1 & -> & _)).
           destruct (script_calls (k ++ "-Labels-PointCloud2") (topic ++ "/labeled") color
                       "Spheres" (VFloat 0.05)) as (_ & _ & _ & _ & (d2 & -> & _)).
           cbn [builtin run_bind]. eexists. rewrite <- !app_assoc. reflexivity.
        -- exists []. rewrite app_nil_r. reflexivity.
  - destruct (dict_get (bag_topics i) (topic ++ "/compressed")) as [t|]; [|discriminate].
    apply String.eqb_eq in Ha. subst t. cbn [key builtin run_bind].
    cbn [String.eqb Ascii.eqb Bool.eqb orb].
    destruct (script_calls (k ++ "-Image") topic "" "" (VInt 0))
      as (_ & (d1 & -> & _) & _).
    destruct (script_calls (k ++ "-Labels" ++ "-Image") (topic ++ "/labeled") "" ""
                (VInt 0)) as (_ & (d2 & -> & _) & _).
    destruct (script_calls (k ++ "-Camera") topic "" "" (VInt 0))
      as (_ & _ & (d3 & -> & _) & _).
    cbn [builtin run_bind]. eexists. rewrite <- !app_assoc. reflexivity.
Qed.

(** The loop of collect_data.rviz on sensors that passed the check. *)
Lemma collect_data_loop_verified i : forall ks j displays,
  (forall k, In k ks ->
     exists topic, sensor_topic i k topic /\ topic_available (bag_topics i) topic = true) ->
  (forall idx, j <= idx < j + len ks -> returns (rviz_color i idx) = true) ->
  if existsb (laser_scan_sensor i) ks
  then run_each (collect_data_sensor i) (enumerate_from j ks) displays
       = Failed (NameError "wg")
  else exists rest,
       run_each (collect_data_sensor i) (enumerate_from j ks) displays
       = Done (displays ++ rest).
Proof.
  induction ks as [|k ks IH]; intros j displays Hv Hc.
  - cbn. exists []. rewrite app_nil_r. reflexivity.
  - rewrite len_cons in Hc. pose proof (len_nonneg ks) as Hl.
    destruct (Hv k (or_introl eq_refl)) as (topic & Ht & Ha).
    pose proof (collect_data_sensor_verified i displays j k topic Ht Ha) as Hk.
    specialize (Hk (Hc j ltac:(lia))).
    cbn [existsb enumerate_from run_each].
    destruct (laser_scan_sensor i k).
    + cbn [orb]. rewrite Hk. reflexivity.
    + cbn [orb]. destruct Hk as [rest1 ->]. cbn [run_bind].
      specialize (IH (j + 1) (displays ++ rest1)).
      destruct (existsb (laser_scan_sensor i) ks).
      * apply IH; [intros k' Hk'; apply Hv; right; exact Hk'|intros idx Hi; apply Hc; lia].
      * destruct IH as [rest2 ->];
          [intros k' Hk'; apply Hv; right; exact Hk'|intros idx Hi; apply Hc; lia|].
        exists (rest1 ++ rest2). rewrite app_assoc. reflexivity.
Qed.

(** X24. The construction of the displays of collect_data.rviz cannot get
    past a 2D lidar.  On a configuration that passed the check of the
    topics, with a colour for every sensor: if some sensor publishes laser
    scans the section fails with NameError, raised where line 387 assigns
    to [wg], a name that nothing binds; if none does, the section returns,
    and its list extends the list it started from. *)
Theorem laser_scan_sensor_stops_collect_data i core ct :
  verify_topics i = Ok ct ->
  (forall idx, 0 <= idx < len (sensors i) -> returns (rviz_color i idx) = true) ->
  if existsb (laser_scan_sensor i) (dict_keys (sensors i))
  then collect_data_displays i core = Failed (NameError "wg")
  else exists rest, collect_data_displays i core = Done (core ++ rest).
Proof.
  intros Hv Hc. unfold verify_topics in Hv.
  destruct (verify_loop_returns i _ _ _ Hv) as (Hall & _).
  unfold collect_data_displays.
  destruct (script_calls "" "" "" "" (VInt 0)) as ((d & -> & _) & _).
  cbn [builtin run_bind]. unfold enumerate.
  pose proof (collect_data_loop_verified i (dict_keys (sensors i)) 0 (core ++ [Created d])
                Hall) as H.
  destruct (existsb (laser_scan_sensor i) (dict_keys (sensors i))).
  - apply H. intros idx Hi. apply Hc. unfold dict_keys, len in *.
    rewrite length_map in Hi. lia.
  - destruct H as [rest ->].
    + intros idx Hi. apply Hc. unfold dict_keys, len in *. rewrite length_map in Hi. lia.
    + exists ([Created d] ++ rest). rewrite app_assoc. reflexivity.
Qed.

Lemma laser_scan_sensor_stops_collect_data_witness :
  (if existsb (laser_scan_sensor laser_only) (dict_keys (sensors laser_only))
   then collect_data_displays laser_only [] = Failed (NameError "wg")
   else exists rest, collect_data_displays laser_only [] = Done ([] ++ rest)) /\
  (if existsb (laser_scan_sensor camera_and_lidar) (dict_keys (sensors camera_and_lidar))
   then collect_data_displays camera_and_lidar [] = Failed (NameError "wg")
   else exists rest, collect_data_displays camera_and_lidar [] = Done ([] ++ rest)).
Proof.
  split.
  - apply (laser_scan_sensor_stops_collect_data laser_only [] []).
    + vm_compute. reflexivity.
    + intros idx Hi. change (len (sensors laser_only)) with 1 in Hi.
      assert (idx = 0) as -> by lia. vm_compute. reflexivity.
  - apply (laser_scan_sensor_stops_collect_data camera_and_lidar []
             [("/camera/image"%string,
               mkCompressedTopic "/camera/image/compressed" "sensor_msgs/CompressedImage"
                 "camera")]).
    + vm_compute. reflexivity.
    + intros idx Hi. change (len (sensors camera_and_lidar)) with 2 in Hi.
      assert (idx = 0 \/ idx = 1) as [-> | ->] by lia; vm_compute; reflexivity.
Defined.

(** * The two display lists *)

(** Both loops only append to the list of displays. *)
Lemma initial_estimate_sensor_extends i displays ik displays' :
  initial_estimate_sensor i displays ik = Ok displays' ->
  exists rest, displays' = displays ++ rest.
Proof.
  destruct ik as [idx k]. unfold initial_estimate_sensor.
  destruct (getitem (cm_sensors i) idx); [|discriminate]. cbn [bind].
  destruct (dict_getitem (sensors i) k) as [s|]; [|discriminate]. cbn [bind].
  destruct (dict_getitem s "topic_name") as [topic|]; [|discriminate]. cbn [bind].
  destruct (initial_estimate_msg_type i topic) as [t|]; [|discriminate]. cbn [bind].
  destruct (_ || _);
    [|destruct (String.eqb t "sensor_msgs/LaserScan");
      [|destruct (String.eqb t "sensor_msgs/PointCloud2")]];
    intros H; injection H as <-; rewrite <- ?app_assoc; eauto.
  exists []. rewrite app_nil_r. reflexivity.
Qed.

Lemma initial_estimate_loop_extends i : forall l displays displays',
  for_each (initial_estimate_sensor i) l displays = Ok displays' ->
  exists rest, displays' = displays ++ rest.
Proof.
  induction l as [|ik l IH]; intros displays displays' H.
  - cbn in H. injection H as <-. exists []. rewrite app_nil_r. reflexivity.
  - cbn [for_each] in H.
    destruct (initial_estimate_sensor i displays ik) as [d1|] eqn:E1; [|discriminate].
    cbn [bind] in H.
    destruct (initial_estimate_sensor_extends i _ _ _ E1) as [rest1 ->].
    destruct (IH _ _ H) as [rest2 ->].
    exists (rest1 ++ rest2). rewrite app_assoc. reflexivity.
Qed.

Lemma collect_data_sensor_extends i displays ik displays' :
  collect_data_sensor i displays ik = Done displays' ->
  exists rest, displays' = displays ++ rest.
Proof.
  destruct ik as [idx k]. unfold collect_data_sensor.
  destruct (dict_getitem (sensors i) k) as [s|]; [|discriminate]. cbn [builtin run_bind].
  destruct (dict_getitem s "topic_name") as [topic|]; [|discriminate].
  cbn [builtin run_bind].
  destruct (collect_data_msg_type i topic) as [t|]; [|discriminate]. cbn [builtin run_bind].
  destruct (_ || _);
    [|destruct (String.eqb t "sensor_msgs/LaserScan");
      [|destruct (String.eqb t "sensor_msgs/PointCloud2")]];
    repeat match goal with
           | |- context [builtin ?r] =>
               destruct r; cbn [builtin run_bind]; [|discriminate]
           end;
    try discriminate;
    intros H; injection H as <-; rewrite <- ?app_assoc; eauto.
  exists []. rewrite app_nil_r. reflexivity.
Qed.

Lemma collect_data_loop_extends i : forall l displays displays',
  run_each (collect_data_sensor i) l displays = Done displays' ->
  exists rest, displays' = displays ++ rest.
Proof.
  induction l as [|ik l IH]; intros displays displays' H.
  - cbn in H. injection H as <-. exists []. rewrite app_nil_r. reflexivity.
  - cbn [run_each] in H.
    destruct (collect_data_sensor i displays ik) as [d1|] eqn:E1; [|discriminate].
    cbn [run_bind] in H.
    destruct (collect_data_sensor_extends i _ _ _ E1) as [rest1 ->].
    destruct (IH _ _ H) as [rest2 ->].
    exists (rest1 ++ rest2). rewrite app_assoc. reflexivity.
Qed.

(** X25. Both RViz sections build their displays on the one list
    [core_displays]: when the script gets through them, the displays
    written to collect_data.rviz begin with all the displays written to
    set_initial_estimate.rviz (the core displays, the MoveSensors marker
    and the displays of the sensors), followed by the marker of the data
    labeler and the displays of the section itself. *)
Theorem collect_data_inherits_the_initial_estimate_displays i a b :
  rviz_displays i = Done (a, b) ->
  exists rest1 d rest2,
    a = core_displays i ++ move_sensors_marker :: rest1 /\
    b = a ++ Created d :: rest2 /\
    create_display "rviz/InteractiveMarkers" marker_options = Ok d.
Proof.
  unfold rviz_displays, set_initial_estimate_displays, collect_data_displays.
  destruct (for_each _ _ _) as [a'|] eqn:Ea; [|discriminate]. cbn [builtin run_bind].
  destruct (create_display "rviz/InteractiveMarkers" marker_options) as [d|];
    [|discriminate].
  cbn [builtin run_bind].
  destruct (run_each _ _ _) as [b'|] eqn:Eb; [|discriminate]. cbn [run_bind].
  intros H. injection H as <- <-.
  destruct (initial_estimate_loop_extends i _ _ _ Ea) as [rest1 ->].
  destruct (collect_data_loop_extends i _ _ _ Eb) as [rest2 ->].
  exists rest1, d, rest2. rewrite <- !app_assoc. repeat split.
Qed.

Lemma collect_data_inherits_the_initial_estimate_displays_witness :
  exists rest1 d rest2,
    match rviz_displays camera_and_lidar with
    | Done p => fst p
    | Failed _ => []
    end = core_displays camera_and_lidar ++ move_sensors_marker :: rest1 /\
    match rviz_displays camera_and_lidar with
    | Done p => snd p
    | Failed _ => []
    end
    = match rviz_displays camera_and_lidar with
      | Done p => fst p
      | Failed _ => []
      end ++ Created d :: rest2 /\
    create_display "rviz/InteractiveMarkers" marker_options = Ok d.
Proof.
  apply (collect_data_inherits_the_initial_estimate_displays camera_and_lidar).
  vm_compute. reflexivity.
Defined.
